(** * Fordefi custodial-signing client: a shallow embedding and its properties

    The development follows [src/fordefi/client.ts] (class [FordefiClient]) and
    the batch signing adapter [fordefiSigner] that wraps it.

    Layout:
    - [Text], [Sha256], [Base64], [Js]: the platform the client runs on
      (decimal and hexadecimal printing, [crypto.createHmac], [Buffer],
      [JSON.stringify], truthiness and property reads);
    - [Runtime]: asynchronous computations as trees of effects, their
      sequential execution, and a cooperative scheduler for [Promise.all];
    - [Client]: [createSignature], [authenticate], [request],
      [createAndWaitTransaction], [getWalletAddress], [getTransactionStatus];
    - [Signer]: [signAndSendTransactions];
    - the properties of the specification, at the end. *)

From Stdlib Require Import ZArith NArith List String Ascii Bool Lia.
From Stdlib.Strings Require Import Byte.
From Stdlib Require Import DecimalString DecimalPos DecimalZ.
Import ListNotations.
Open Scope string_scope.

(* ------------------------------------------------------------------------- *)
(** ** Text helpers *)

Module Text.

(** Decimal rendering of an integer, as a template literal renders an
    integral JavaScript number. *)
Definition show (z : Z) : string := NilZero.string_of_int (Z.to_int z).

Definition show_nat (n : nat) : string := show (Z.of_nat n).

(** The line feed of ["\n"]. *)
Definition nl : string := String (ascii_of_nat 10) EmptyString.

Definition bytes_of_string (s : string) : list byte := list_byte_of_string s.

Definition hex_digit (n : Z) : ascii :=
  match n with
  | 0 => "0" | 1 => "1" | 2 => "2" | 3 => "3" | 4 => "4" | 5 => "5"
  | 6 => "6" | 7 => "7" | 8 => "8" | 9 => "9" | 10 => "a" | 11 => "b"
  | 12 => "c" | 13 => "d" | 14 => "e" | _ => "f"
  end%Z%char.

(** Lowercase hexadecimal of a byte sequence ([digest("hex")]). *)
Fixpoint hex (l : list Z) : string :=
  match l with
  | [] => EmptyString
  | b :: r => String (hex_digit (Z.shiftr b 4))
                (String (hex_digit (Z.land b 15)) (hex r))
  end.

(** [contains needle s]: the text [needle] occurs in [s]. *)
Definition contains (needle s : string) : Prop :=
  exists pre post, s = pre ++ needle ++ post.

End Text.

(* ------------------------------------------------------------------------- *)
(** ** SHA-256 and HMAC ([crypto.createHmac("sha256", key)])

    Words are integers in [[0, 2^32)]; every addition is reduced modulo
    [2^32]. *)

Module Sha256.
Open Scope list_scope.
Open Scope Z_scope.

Definition w32 (x : Z) : Z := Z.land x 4294967295.
Definition add32 (x y : Z) : Z := w32 (x + y).
Definition not32 (x : Z) : Z := Z.lxor x 4294967295.
Definition rotr (n x : Z) : Z :=
  Z.lor (Z.shiftr x n) (w32 (Z.shiftl x (32 - n))).

Definition Ch (x y z : Z) := Z.lxor (Z.land x y) (Z.land (not32 x) z).
Definition Maj (x y z : Z) :=
  Z.lxor (Z.lxor (Z.land x y) (Z.land x z)) (Z.land y z).
Definition Sigma0 x := Z.lxor (Z.lxor (rotr 2 x) (rotr 13 x)) (rotr 22 x).
Definition Sigma1 x := Z.lxor (Z.lxor (rotr 6 x) (rotr 11 x)) (rotr 25 x).
Definition sigma0 x := Z.lxor (Z.lxor (rotr 7 x) (rotr 18 x)) (Z.shiftr x 3).
Definition sigma1 x := Z.lxor (Z.lxor (rotr 17 x) (rotr 19 x)) (Z.shiftr x 10).

(** A text of hexadecimal digits read as 32-bit words, eight digits each. *)
Definition hex_value (c : ascii) : Z :=
  let n := Z.of_nat (nat_of_ascii c) in
  if (97 <=? n) then n - 87 else n - 48.

Fixpoint hex_words (fuel : nat) (s : string) (acc : Z) (count : nat) : list Z :=
  match fuel, s with
  | S f, String c r =>
      let acc' := 16 * acc + hex_value c in
      if Nat.eqb count 7 then acc' :: hex_words f r 0 0
      else hex_words f r acc' (S count)
  | _, _ => []
  end.

Definition words_of_hex (s : string) : list Z :=
  hex_words (String.length s) s 0 0.

(** The round constants: the first 32 bits of the fractional parts of the
    cube roots of the first 64 primes. *)
Definition K : list Z :=
  Eval vm_compute in
    words_of_hex
      ("428a2f9871374491b5c0fbcfe9b5dba53956c25b59f111f1923f82a4ab1c5ed5"
       ++ "d807aa9812835b01243185be550c7dc372be5d7480deb1fe9bdc06a7c19bf174"
       ++ "e49b69c1efbe47860fc19dc6240ca1cc2de92c6f4a7484aa5cb0a9dc76f988da"
       ++ "983e5152a831c66db00327c8bf597fc7c6e00bf3d5a7914706ca635114292967"
       ++ "27b70a852e1b21384d2c6dfc53380d13650a7354766a0abb81c2c92e92722c85"
       ++ "a2bfe8a1a81a664bc24b8b70c76c51a3d192e819d6990624f40e3585106aa070"
       ++ "19a4c1161e376c082748774c34b0bcb5391c0cb34ed8aa4a5b9cca4f682e6ff3"
       ++ "748f82ee78a5636f84c878148cc7020890befffaa4506cebbef9a3f7c67178f2")%string.

(** The initial hash value: from the square roots of the first 8 primes. *)
Definition H0 : list Z :=
  Eval vm_compute in
    words_of_hex
      "6a09e667bb67ae853c6ef372a54ff53a510e527f9b05688c1f83d9ab5be0cd19".

(** Padding: a [0x80] byte, zeros up to 56 modulo 64, then the bit length
    on eight big-endian bytes. *)
Definition be_bytes (width : nat) (x : Z) : list Z :=
  map (fun i => Z.land (Z.shiftr x (8 * Z.of_nat i)) 255) (rev (seq 0 width)).

Definition pad (msg : list Z) : list Z :=
  let len := Z.of_nat (List.length msg) in
  let zeros := Z.to_nat ((55 - len) mod 64) in
  msg ++ [128] ++ repeat 0 zeros ++ be_bytes 8 (8 * len).

Fixpoint words (fuel : nat) (l : list Z) : list Z :=
  match fuel, l with
  | S f, a :: b :: c :: d :: r =>
      (Z.shiftl a 24 + Z.shiftl b 16 + Z.shiftl c 8 + d) :: words f r
  | _, _ => []
  end.

(** The message schedule, most recent word first. *)
Fixpoint schedule (n : nat) (rev_w : list Z) : list Z :=
  match n with
  | O => rev_w
  | S n' =>
      let w2 := nth 1 rev_w 0 in
      let w7 := nth 6 rev_w 0 in
      let w15 := nth 14 rev_w 0 in
      let w16 := nth 15 rev_w 0 in
      schedule n'
        (add32 (add32 (sigma1 w2) w7) (add32 (sigma0 w15) w16) :: rev_w)
  end.

Definition round (st : list Z) (kw : Z * Z) : list Z :=
  match st with
  | [a; b; c; d; e; f; g; h] =>
      let t1 := add32 (add32 (add32 h (Sigma1 e)) (add32 (Ch e f g) (fst kw)))
                      (snd kw) in
      let t2 := add32 (Sigma0 a) (Maj a b c) in
      [add32 t1 t2; a; b; c; add32 d t1; e; f; g]
  | _ => st
  end.

Definition compress (h : list Z) (block : list Z) : list Z :=
  let w := rev (schedule 48 (rev (words 16 block))) in
  let st := fold_left round (combine K w) h in
  map (fun p => add32 (fst p) (snd p)) (combine h st).

Fixpoint blocks (fuel : nat) (l : list Z) : list (list Z) :=
  match fuel, l with
  | S f, _ :: _ => firstn 64 l :: blocks f (skipn 64 l)
  | _, _ => []
  end.

Definition sha256 (msg : list Z) : list Z :=
  let p := pad msg in
  flat_map (be_bytes 4) (fold_left compress (blocks (List.length p) p) H0).

Definition xor_pad (c : Z) (key : list Z) : list Z :=
  map (fun b => Z.lxor b c) key.

(** HMAC (RFC 2104) over 64-byte blocks. *)
Definition hmac (key msg : list Z) : list Z :=
  let k0 := if (64 <? Z.of_nat (List.length key)) then sha256 key else key in
  let k := k0 ++ repeat 0 (64 - List.length k0) in
  sha256 (xor_pad 0x5c k ++ sha256 (xor_pad 0x36 k ++ msg)).

Definition octets (s : string) : list Z :=
  map (fun b => Z.of_N (Byte.to_N b)) (Text.bytes_of_string s).

(** [createHmac("sha256", key).update(message).digest("hex")]. *)
Definition createHmac_sha256_hex (key message : string) : string :=
  Text.hex (hmac (octets key) (octets message)).

End Sha256.

(* ------------------------------------------------------------------------- *)
(** ** Base64 ([Buffer.from(bytes).toString("base64")] and
    [Buffer.from(text, "base64")])

    The decoder is Node's lenient one: characters outside the alphabet are
    skipped, both the standard and the URL-safe alphabet are read, decoding
    stops at the first ['='], and an incomplete final group yields the bytes
    it determines. *)

Module Base64.
Open Scope list_scope.
Open Scope Z_scope.

Definition byte_of_Z (z : Z) : byte :=
  match Byte.of_N (Z.to_N (z mod 256)) with
  | Some b => b
  | None => x00
  end.

Definition Z_of_byte (b : byte) : Z := Z.of_N (Byte.to_N b).

Definition alphabet : string :=
  "ABCDEFGHIJKLMNOPQRSTUVWXYZabcdefghijklmnopqrstuvwxyz0123456789+/".

Definition digit (v : Z) : ascii :=
  match String.get (Z.to_nat v) alphabet with
  | Some c => c
  | None => "="%char
  end.

Fixpoint encode (l : list byte) : string :=
  match l with
  | [] => EmptyString
  | [a] =>
      let a := Z_of_byte a in
      String (digit (Z.shiftr a 2))
        (String (digit (Z.shiftl (Z.land a 3) 4)) "==")
  | [a; b] =>
      let a := Z_of_byte a in
      let b := Z_of_byte b in
      String (digit (Z.shiftr a 2))
        (String (digit (Z.lor (Z.shiftl (Z.land a 3) 4) (Z.shiftr b 4)))
           (String (digit (Z.shiftl (Z.land b 15) 2)) "="))
  | a :: b :: c :: r =>
      let a := Z_of_byte a in
      let b := Z_of_byte b in
      let c := Z_of_byte c in
      String (digit (Z.shiftr a 2))
        (String (digit (Z.lor (Z.shiftl (Z.land a 3) 4) (Z.shiftr b 4)))
           (String (digit (Z.lor (Z.shiftl (Z.land b 15) 2) (Z.shiftr c 6)))
              (String (digit (Z.land c 63)) (encode r))))
  end.

Definition sextet (c : ascii) : option Z :=
  let n := Z.of_nat (nat_of_ascii c) in
  if (65 <=? n) && (n <=? 90) then Some (n - 65)
  else if (97 <=? n) && (n <=? 122) then Some (n - 71)
  else if (48 <=? n) && (n <=? 57) then Some (n + 4)
  else if (n =? 43) || (n =? 45) then Some 62
  else if (n =? 47) || (n =? 95) then Some 63
  else None.

Fixpoint sextets (s : string) : list Z :=
  match s with
  | EmptyString => []
  | String c r =>
      if Ascii.eqb c "="%char then []
      else match sextet c with
           | Some v => v :: sextets r
           | None => sextets r
           end
  end.

Fixpoint pack (l : list Z) : list byte :=
  match l with
  | a :: b :: c :: d :: r =>
      byte_of_Z (Z.lor (Z.shiftl a 2) (Z.shiftr b 4))
      :: byte_of_Z (Z.lor (Z.shiftl (Z.land b 15) 4) (Z.shiftr c 2))
      :: byte_of_Z (Z.lor (Z.shiftl (Z.land c 3) 6) d)
      :: pack r
  | [a; b; c] =>
      [ byte_of_Z (Z.lor (Z.shiftl a 2) (Z.shiftr b 4));
        byte_of_Z (Z.lor (Z.shiftl (Z.land b 15) 4) (Z.shiftr c 2)) ]
  | [a; b] => [ byte_of_Z (Z.lor (Z.shiftl a 2) (Z.shiftr b 4)) ]
  | _ => []
  end.

Definition decode (s : string) : list byte := pack (sextets s).

End Base64.

(* ------------------------------------------------------------------------- *)
(** ** JavaScript values

    [jsval] holds the values the client handles: what [JSON.parse] produces
    (axios parses a JSON reply, and delivers any other body as a string),
    [undefined] for absent properties, and [bigint], the one value of this
    universe that [JSON.stringify] refuses.  Numbers are the integral ones;
    an object is the list of its own properties in enumeration order, with
    distinct keys. *)

#[warnings="-register-all"]
Inductive jsval : Type :=
| JUndefined
| JNull
| JBool (b : bool)
| JNum (n : Z)
| JBigInt (n : Z)
| JStr (s : string)
| JArr (items : list jsval)
| JObj (fields : list (string * jsval)).

Module Js.
Open Scope list_scope.
Open Scope string_scope.

(** Truthiness ([if (v)], [!v], [v ? a : b], [a || b]). *)
Definition truthy (v : jsval) : bool :=
  match v with
  | JUndefined | JNull => false
  | JBool b => b
  | JNum n | JBigInt n => negb (Z.eqb n 0)
  | JStr s => negb (String.eqb s EmptyString)
  | JArr _ | JObj _ => true
  end.

Fixpoint lookup (k : string) (fields : list (string * jsval)) : jsval :=
  match fields with
  | [] => JUndefined
  | (k', v) :: r => if String.eqb k k' then v else lookup k r
  end.

(** Template-literal conversion [`${v}`]. *)
Fixpoint to_String (v : jsval) : string :=
  match v with
  | JUndefined => "undefined"
  | JNull => "null"
  | JBool b => if b then "true" else "false"
  | JNum n | JBigInt n => Text.show n
  | JStr s => s
  | JArr items =>
      String.concat ","
        (map (fun x => match x with
                       | JUndefined | JNull => EmptyString
                       | _ => to_String x
                       end) items)
  | JObj _ => "[object Object]"
  end.

(** The double quote character. *)
Definition dq : string := String (ascii_of_nat 34) EmptyString.

Definition escape (c : ascii) : string :=
  let n := nat_of_ascii c in
  if Nat.eqb n 34 then "\" ++ dq
  else if Nat.eqb n 92 then "\\"
  else if Nat.eqb n 8 then "\b"
  else if Nat.eqb n 12 then "\f"
  else if Nat.eqb n 10 then "\n"
  else if Nat.eqb n 13 then "\r"
  else if Nat.eqb n 9 then "\t"
  else if Nat.ltb n 32 then
    "\u00" ++ String (Text.hex_digit (Z.of_nat (n / 16)))
                (String (Text.hex_digit (Z.of_nat (n mod 16))) EmptyString)
  else String c EmptyString.

Fixpoint escape_all (s : string) : string :=
  match s with
  | EmptyString => EmptyString
  | String c r => escape c ++ escape_all r
  end.

Definition quote (s : string) : string := dq ++ escape_all s ++ dq.

(** What [JSON.stringify(v)] does: returns a text, returns [undefined], or
    raises a [TypeError]. *)
Inductive stringified : Type :=
| Text (s : string)
| NoText
| Raises.

(** The texts of the elements of an array, [undefined] written as
    [null]; [None] when one of them raises. *)
Definition elements (text : jsval -> stringified)
  : list jsval -> option (list string) :=
  fix go (l : list jsval) : option (list string) :=
    match l with
    | [] => Some []
    | x :: r =>
        match text x, go r with
        | Raises, _ | _, None => None
        | Text s, Some ss => Some (s :: ss)
        | NoText, Some ss => Some ("null" :: ss)
        end
    end.

(** The texts of the members of an object, without those that are
    [undefined]; [None] when one of them raises. *)
Definition members (text : jsval -> stringified)
  : list (string * jsval) -> option (list string) :=
  fix go (l : list (string * jsval)) : option (list string) :=
    match l with
    | [] => Some []
    | (k, x) :: r =>
        match text x, go r with
        | Raises, _ | _, None => None
        | Text s, Some ss => Some ((quote k ++ ":" ++ s) :: ss)
        | NoText, Some ss => Some ss
        end
    end.

Fixpoint JSON_stringify (v : jsval) : stringified :=
  match v with
  | JUndefined => NoText
  | JNull => Text "null"
  | JBool b => Text (if b then "true" else "false")
  | JNum n => Text (Text.show n)
  | JBigInt _ => Raises
  | JStr s => Text (quote s)
  | JArr items =>
      match elements JSON_stringify items with
      | Some ss => Text ("[" ++ String.concat "," ss ++ "]")
      | None => Raises
      end
  | JObj fields =>
      match members JSON_stringify fields with
      | Some ss => Text ("{" ++ String.concat "," ss ++ "}")
      | None => Raises
      end
  end.

(** The members [JSON.stringify] writes for an object: those whose value is
    not [undefined]. *)
Definition written (fields : list (string * jsval)) : list (string * jsval) :=
  filter (fun kv => match snd kv with JUndefined => false | _ => true end)
    fields.

End Js.

(* ------------------------------------------------------------------------- *)
(** ** Errors, HTTP exchanges, and reads that may raise *)

Record AxiosResponse : Type := { status : Z; data : jsval }.

(** The exceptions that occur: [new Error(message)], the [TypeError] of the
    engine, and the error axios rejects with, which carries the response when
    one was received. *)
Inductive JsError : Type :=
| Error (message : string)
| TypeError (message : string)
| AxiosError (message : string) (response : option AxiosResponse).

Definition error_message (e : JsError) : string :=
  match e with
  | Error m | TypeError m | AxiosError m _ => m
  end.

Definition error_response (e : JsError) : option AxiosResponse :=
  match e with
  | AxiosError _ r => r
  | _ => None
  end.

Inductive Method : Type := GET | POST.

(** A request as handed to axios.  [baseURL] is set when the request goes
    through the configured instance ([this.api]); [body] is the [data]
    argument, a text in every call of the client; [acceptAnyStatus] stands
    for [validateStatus: () => true]. *)
Record HttpRequest : Type := {
  method : Method;
  baseURL : option string;
  url : string;
  headers : list (string * string);
  body : option string;
  acceptAnyStatus : bool
}.

(** What the network does with a request: a response arrives, or the exchange
    fails with a transport message (and, exceptionally, a response). *)
Inductive NetOutcome : Type :=
| Answered (r : AxiosResponse)
| Dropped (message : string) (response : option AxiosResponse).

Module JsRead.
Open Scope list_scope.
Open Scope string_scope.

(** [v.k] for a property name [k] other than an index.  Reading a property
    of [undefined] or [null] raises; strings and arrays have a [length]. *)
Definition get (v : jsval) (k : string) : JsError + jsval :=
  match v with
  | JUndefined =>
      inl (TypeError ("Cannot read properties of undefined (reading '" ++ k ++ "')"))
  | JNull =>
      inl (TypeError ("Cannot read properties of null (reading '" ++ k ++ "')"))
  | JObj fields => inr (Js.lookup k fields)
  | JStr s =>
      inr (if String.eqb k "length" then JNum (Z.of_nat (String.length s))
           else JUndefined)
  | JArr items =>
      inr (if String.eqb k "length" then JNum (Z.of_nat (List.length items))
           else JUndefined)
  | _ => inr JUndefined
  end.

(** [v[0]] for a truthy [v]. *)
Definition first (v : jsval) : jsval :=
  match v with
  | JArr (x :: _) => x
  | JStr (String c _) => JStr (String c EmptyString)
  | JObj fields => Js.lookup "0" fields
  | _ => JUndefined
  end.

(** [v === 0]. *)
Definition is_zero (v : jsval) : bool :=
  match v with
  | JNum n => Z.eqb n 0
  | _ => false
  end.

(** [Buffer.from(v, "base64")].  A string is decoded; [undefined], [null],
    numbers and booleans raise.  (Node also builds buffers from arrays and
    array-like objects; the declared type of a signature is [string], and the
    model raises there too.) *)
Definition Buffer_from_base64 (v : jsval) : JsError + list byte :=
  match v with
  | JStr s => inr (Base64.decode s)
  | _ => inl (TypeError "The first argument must be of type string or an instance of Buffer, ArrayBuffer, or Array or an Array-like Object.")
  end.

End JsRead.

(* ------------------------------------------------------------------------- *)
(** ** Asynchronous computations

    An [Async A] is what an [async] function does: it reads and writes the
    one mutable field of the client ([accessToken]), reads the clock, logs,
    hands requests to the network and waits for them, and ends by returning or
    throwing.  A computation runs without interruption until it waits for the
    network; that is the only point where another computation can run. *)

Module Runtime.
Open Scope list_scope.

Inductive Async (A : Type) : Type :=
| Return (a : A)
| Throw (e : JsError)
| ReadToken (k : jsval -> Async A)
| WriteToken (v : jsval) (k : Async A)
| DateNow (k : Z -> Async A)
| ConsoleError (label : string) (e : JsError) (k : Async A)
| AwaitHttp (req : HttpRequest) (k : NetOutcome -> Async A).

Arguments Return {A} a.
Arguments Throw {A} e.
Arguments ReadToken {A} k.
Arguments WriteToken {A} v k.
Arguments DateNow {A} k.
Arguments ConsoleError {A} label e k.
Arguments AwaitHttp {A} req k.

Fixpoint bind {A B : Type} (m : Async A) (f : A -> Async B) : Async B :=
  match m with
  | Return a => f a
  | Throw e => Throw e
  | ReadToken k => ReadToken (fun v => bind (k v) f)
  | WriteToken v k => WriteToken v (bind k f)
  | DateNow k => DateNow (fun t => bind (k t) f)
  | ConsoleError l e k => ConsoleError l e (bind k f)
  | AwaitHttp req k => AwaitHttp req (fun o => bind (k o) f)
  end.

(** [try { m } catch (error) { h error }]. *)
Fixpoint try_catch {A : Type} (m : Async A) (h : JsError -> Async A) : Async A :=
  match m with
  | Return a => Return a
  | Throw e => h e
  | ReadToken k => ReadToken (fun v => try_catch (k v) h)
  | WriteToken v k => WriteToken v (try_catch k h)
  | DateNow k => DateNow (fun t => try_catch (k t) h)
  | ConsoleError l e k => ConsoleError l e (try_catch k h)
  | AwaitHttp req k => AwaitHttp req (fun o => try_catch (k o) h)
  end.

(** A read that may raise, lifted. *)
Definition lift {A : Type} (r : JsError + A) : Async A :=
  match r with
  | inl e => Throw e
  | inr a => Return a
  end.

(** The state of one client instance and of its surroundings: the cached
    token, the number of clock readings so far, the requests handed to the
    network (oldest first, each with the task that issued it), the console. *)
Record Machine : Type := {
  accessToken : jsval;
  ticks : nat;
  sent : list (nat * HttpRequest);
  console : list (string * JsError)
}.

(** A fresh client: [accessToken = null], nothing sent. *)
Definition fresh : Machine :=
  {| accessToken := JNull; ticks := 0; sent := []; console := [] |}.

(** The environment: [net i n req] is what the network does with [req], the
    [n]-th request (from 0) of task [i]; [clock n] is the [n]-th reading of
    [Date.now()]. *)
Record World : Type := {
  net : nat -> nat -> HttpRequest -> NetOutcome;
  clock : nat -> Z
}.

Definition issued (i : nat) (m : Machine) : nat :=
  List.length (filter (fun e => Nat.eqb (fst e) i) (sent m)).

Definition set_token (v : jsval) (m : Machine) : Machine :=
  {| accessToken := v; ticks := ticks m; sent := sent m; console := console m |}.

Definition tick (m : Machine) : Machine :=
  {| accessToken := accessToken m; ticks := S (ticks m); sent := sent m;
     console := console m |}.

Definition log (l : string) (e : JsError) (m : Machine) : Machine :=
  {| accessToken := accessToken m; ticks := ticks m; sent := sent m;
     console := console m ++ [(l, e)] |}.

Definition send (i : nat) (req : HttpRequest) (m : Machine) : Machine :=
  {| accessToken := accessToken m; ticks := ticks m;
     sent := sent m ++ [(i, req)]; console := console m |}.

(** Sequential execution of task [i]: every wait is served before the
    computation goes on. *)
Fixpoint exec {A : Type} (w : World) (i : nat) (t : Async A) (m : Machine)
  : (JsError + A) * Machine :=
  match t with
  | Return a => (inr a, m)
  | Throw e => (inl e, m)
  | ReadToken k => exec w i (k (accessToken m)) m
  | WriteToken v k => exec w i k (set_token v m)
  | DateNow k => exec w i (k (clock w (ticks m))) (tick m)
  | ConsoleError l e k => exec w i k (log l e m)
  | AwaitHttp req k => exec w i (k (net w i (issued i m) req)) (send i req m)
  end.

(** *** Concurrent tasks and [Promise.all] *)

(** A task has settled, or waits for the network with the rest of its
    computation at hand. *)
Inductive Status (A : Type) : Type :=
| Settled (r : JsError + A)
| Waiting (rest : Async A).

Arguments Settled {A} r.
Arguments Waiting {A} rest.

(** Run task [i] up to its next wait.  The request is handed to the network
    at once; its outcome is fed to the task when the scheduler resumes it. *)
Fixpoint advance {A : Type} (w : World) (i : nat) (t : Async A) (m : Machine)
  : Status A * Machine :=
  match t with
  | Return a => (Settled (inr a), m)
  | Throw e => (Settled (inl e), m)
  | ReadToken k => advance w i (k (accessToken m)) m
  | WriteToken v k => advance w i k (set_token v m)
  | DateNow k => advance w i (k (clock w (ticks m))) (tick m)
  | ConsoleError l e k => advance w i k (log l e m)
  | AwaitHttp req k => (Waiting (k (net w i (issued i m) req)), send i req m)
  end.

(** The promises given to [Promise.all], the shared machine, and the first
    rejection seen so far. *)
Record Pool (A : Type) : Type := {
  tasks : list (Status A);
  machine : Machine;
  rejection : option JsError
}.

Arguments tasks {A} p.
Arguments machine {A} p.
Arguments rejection {A} p.

Definition note_rejection {A : Type} (s : Status A) (r : option JsError)
  : option JsError :=
  match r, s with
  | None, Settled (inl e) => Some e
  | _, _ => r
  end.

(** Calling the [async] functions one after the other, as [Array.map] does:
    each runs up to its first wait. *)
Fixpoint launch_from {A : Type} (w : World) (i : nat) (ts : list (Async A))
  (m : Machine) (r : option JsError) : Pool A :=
  match ts with
  | [] => {| tasks := []; machine := m; rejection := r |}
  | t :: rest =>
      let '(s, m') := advance w i t m in
      let p := launch_from w (S i) rest m' (note_rejection s r) in
      {| tasks := s :: tasks p; machine := machine p; rejection := rejection p |}
  end.

Definition launch {A : Type} (w : World) (ts : list (Async A)) (m : Machine)
  : Pool A :=
  launch_from w 0 ts m None.

Fixpoint replace {A : Type} (i : nat) (x : A) (l : list A) : list A :=
  match l, i with
  | [], _ => []
  | _ :: r, O => x :: r
  | y :: r, S j => y :: replace j x r
  end.

(** The network completes the pending request of task [i]: the task runs up
    to its next wait.  Nothing happens when task [i] is not waiting. *)
Definition resume {A : Type} (w : World) (p : Pool A) (i : nat) : Pool A :=
  match nth_error (tasks p) i with
  | Some (Waiting t) =>
      let '(s, m') := advance w i t (machine p) in
      {| tasks := replace i s (tasks p); machine := m';
         rejection := note_rejection s (rejection p) |}
  | _ => p
  end.

(** [order] lists the tasks in the order their pending requests complete. *)
Definition run {A : Type} (w : World) (order : list nat) (p : Pool A) : Pool A :=
  fold_left (resume w) order p.

Fixpoint values {A : Type} (l : list (Status A)) : option (list A) :=
  match l with
  | [] => Some []
  | Settled (inr a) :: r =>
      match values r with
      | Some vs => Some (a :: vs)
      | None => None
      end
  | _ => None
  end.

(** What the promise of [Promise.all] has become: rejected with the first
    rejection, fulfilled with all values in input order, or still pending
    ([None]). *)
Definition Promise_all {A : Type} (p : Pool A) : option (JsError + list A) :=
  match rejection p with
  | Some e => Some (inl e)
  | None =>
      match values (tasks p) with
      | Some vs => Some (inr vs)
      | None => None
      end
  end.

End Runtime.

(* ------------------------------------------------------------------------- *)
(** ** The client ([class FordefiClient]) *)

Record FordefiConfig : Type := {
  apiKey : string;
  apiSecret : string;
  baseUrl : option string
}.

Inductive TransactionState : Type :=
| Created
| WaitingForApproval
| WaitingForSignature
| ReadyForPush
| Pushed
| Completed
| Failed
| Aborted.

(** The string each member of [enum TransactionState] stands for. *)
Definition state_name (s : TransactionState) : string :=
  match s with
  | Created => "created"
  | WaitingForApproval => "waiting_for_approval"
  | WaitingForSignature => "waiting_for_signature"
  | ReadyForPush => "ready_for_push"
  | Pushed => "pushed"
  | Completed => "completed"
  | Failed => "failed"
  | Aborted => "aborted"
  end.

Inductive Mode : Type := ModeAuto | ModeManual.

Definition mode_name (m : Mode) : string :=
  match m with
  | ModeAuto => "auto"
  | ModeManual => "manual"
  end.

(** The [options] argument of [createAndWaitTransaction] and of the signer. *)
Record Options : Type := {
  note : option string;
  idempotenceId : option string;
  signMode : option Mode;
  pushMode : option Mode;
  timeout : option Z
}.

Module Client.
Import Runtime.
Open Scope list_scope.
Open Scope string_scope.

Definition optional (f : string -> jsval) (o : option string) : jsval :=
  match o with
  | Some s => f s
  | None => JUndefined
  end.

(** [config.baseUrl || "https://api.fordefi.com"]. *)
Definition api_baseURL (cfg : FordefiConfig) : string :=
  match baseUrl cfg with
  | Some u => if Js.truthy (JStr u) then u else "https://api.fordefi.com"
  | None => "https://api.fordefi.com"
  end.

(** How axios settles a request: without [validateStatus: () => true] a
    status outside [[200,300)] rejects. *)
Definition axios_settle (req : HttpRequest) (o : NetOutcome)
  : JsError + AxiosResponse :=
  match o with
  | Answered r =>
      if acceptAnyStatus req || ((200 <=? status r)%Z && (status r <? 300)%Z)
      then inr r
      else inl (AxiosError
                  ("Request failed with status code " ++ Text.show (status r))
                  (Some r))
  | Dropped msg r => inl (AxiosError msg r)
  end.

Definition axios (req : HttpRequest) : Async AxiosResponse :=
  AwaitHttp req (fun o => lift (axios_settle req o)).

(** [createSignature(body)]: the HMAC of the clock reading followed by the
    body, with the reading itself. *)
Definition createSignature (cfg : FordefiConfig) (body : string)
  : Async (string * Z) :=
  DateNow (fun timestamp =>
    let message := Text.show timestamp ++ body in
    let signature := Sha256.createHmac_sha256_hex (apiSecret cfg) message in
    Return (signature, timestamp)).

Definition auth_body (cfg : FordefiConfig) : string :=
  match Js.JSON_stringify (JObj [("apiKey", JStr (apiKey cfg))]) with
  | Js.Text s => s
  | _ => EmptyString
  end.

Definition auth_request (cfg : FordefiConfig) (signature : string)
  (timestamp : Z) : HttpRequest :=
  {| method := POST;
     baseURL := Some (api_baseURL cfg);
     url := "/auth";
     headers := [ ("Content-Type", "application/json");
                  ("x-signature", signature);
                  ("x-timestamp", Text.show timestamp) ];
     body := Some (auth_body cfg);
     acceptAnyStatus := false |}.

Definition authenticate (cfg : FordefiConfig) : Async jsval :=
  ReadToken (fun cached =>
  if Js.truthy cached then Return cached
  else
    let requestBody := auth_body cfg in
    bind (createSignature cfg requestBody) (fun st =>
    let '(signature, timestamp) := st in
    try_catch
      (bind (axios (auth_request cfg signature timestamp)) (fun response =>
       bind (lift (JsRead.get (data response) "accessToken")) (fun token =>
       WriteToken token
         (ReadToken (fun stored =>
          if negb (Js.truthy stored)
          then Throw (Error "No access token received from Fordefi")
          else ReadToken (fun result => Return result))))))
      (fun error =>
         ConsoleError "Authentication failed:" error
           (Throw (Error "Failed to authenticate with Fordefi"))))).

(** The message built for a response [r] with a status outside [[200,300)]. *)
Definition http_error_message (r : AxiosResponse) : string :=
  let errorMessage := "HTTP error occurred: status = " ++ Text.show (status r) in
  match Js.JSON_stringify (data r) with
  | Js.Text s => errorMessage ++ Text.nl ++ "Error details: " ++ s
  | Js.NoText => errorMessage ++ Text.nl ++ "Error details: undefined"
  | Js.Raises => errorMessage ++ Text.nl ++ "Raw response: " ++ Js.to_String (data r)
  end.

Definition get_request (u : string) (accessToken : jsval) : HttpRequest :=
  {| method := GET;
     baseURL := None;
     url := u;
     headers := [ ("Authorization", "Bearer " ++ Js.to_String accessToken);
                  ("Content-Type", "application/json") ];
     body := None;
     acceptAnyStatus := true |}.

Definition post_request (u : string) (accessToken : jsval)
  (requestBody : option string) (signature : string) (timestamp : Z)
  : HttpRequest :=
  {| method := POST;
     baseURL := None;
     url := u;
     headers := [ ("Authorization", "Bearer " ++ Js.to_String accessToken);
                  ("x-signature", signature);
                  ("x-timestamp", Text.show timestamp);
                  ("Content-Type", "application/json") ];
     body := requestBody;
     acceptAnyStatus := true |}.

(** The [catch] clause of [request]. *)
Definition request_handler {A : Type} (error : JsError) : Async A :=
  match error_response error with
  | Some r => Throw (Error (http_error_message r))
  | None => Throw (Error ("Network error occurred: " ++ error_message error))
  end.

(** [body ? JSON.stringify(body) : empty].  The result is [None] when
    [JSON.stringify] returns [undefined]. *)
Definition request_body (body : jsval) : JsError + option string :=
  if Js.truthy body then
    match Js.JSON_stringify body with
    | Js.Text s => inr (Some s)
    | Js.NoText => inr None
    | Js.Raises => inl (TypeError "Do not know how to serialize a BigInt")
    end
  else inr (Some EmptyString).

(** The text [createSignature] receives: an [undefined] body enters the
    template literal as ["undefined"]. *)
Definition signed_text (requestBody : option string) : string :=
  match requestBody with
  | Some s => s
  | None => "undefined"
  end.

(** [request(method, path, body)]. *)
Definition request (cfg : FordefiConfig) (meth : Method) (path : string)
  (body : jsval) : Async jsval :=
  bind (authenticate cfg) (fun accessToken =>
  let u := api_baseURL cfg ++ path in
  bind (lift (request_body body)) (fun requestBody =>
  try_catch
    (bind
       (match meth with
        | GET => axios (get_request u accessToken)
        | POST =>
            bind (createSignature cfg (signed_text requestBody)) (fun st =>
            let '(signature, timestamp) := st in
            axios (post_request u accessToken requestBody signature timestamp))
        end)
       (fun response =>
        if (status response <? 200)%Z || (status response >=? 300)%Z
        then Throw (Error (http_error_message response))
        else Return (data response)))
    request_handler)).

(** The payload of a job submission: [{...txRequest, ...requestOptions}]. *)
Definition submission (vaultId : string) (transaction : list byte)
  (chain : string) (options : Options) : jsval :=
  let serializedTx := Base64.encode transaction in
  let txRequest :=
    [ ("type", JStr "solana_transaction");
      ("vault_id", JStr vaultId);
      ("transaction", JStr serializedTx);
      ("chain", JStr chain);
      ("idempotence_id", optional JStr (idempotenceId options));
      ("note", optional JStr (note options));
      ("sign_mode", optional JStr (option_map mode_name (signMode options)));
      ("push_mode", optional JStr (option_map mode_name (pushMode options))) ] in
  let requestOptions :=
    match timeout options with
    | Some t => if Js.truthy (JNum t) then [("timeout", JNum t)] else []
    | None => []
    end in
  JObj (txRequest ++ requestOptions).

Definition create_and_wait_path : string := "/v1/transactions/create-and-wait".

Definition createAndWaitTransaction (cfg : FordefiConfig) (vaultId : string)
  (transaction : list byte) (chain : string) (options : Options)
  : Async jsval :=
  try_catch
    (bind (request cfg POST create_and_wait_path
             (submission vaultId transaction chain options))
       (fun response => Return response))
    (fun error =>
       ConsoleError "Error creating and waiting for transaction:" error
         (Throw error)).

Definition signTransaction (cfg : FordefiConfig) (transaction : list byte)
  : Async (list byte) :=
  try_catch
    (let serializedTx := Base64.encode transaction in
     bind (request cfg POST "/v1/transactions/sign"
             (JObj [ ("transaction", JStr serializedTx);
                     ("network", JStr "solana") ]))
       (fun response =>
        bind (lift (JsRead.get response "signedTransaction")) (fun signed =>
        lift (JsRead.Buffer_from_base64 signed))))
    (fun error =>
       ConsoleError "Error signing transaction with Fordefi:" error
         (Throw error)).

Definition getWalletAddress (cfg : FordefiConfig) : Async jsval :=
  try_catch
    (bind (request cfg GET "/v1/wallets/solana" JUndefined) (fun response =>
     lift (JsRead.get response "address")))
    (fun error =>
       ConsoleError "Error getting Fordefi wallet address:" error
         (Throw error)).

Definition getTransactionStatus (cfg : FordefiConfig) (txId : string)
  : Async jsval :=
  try_catch
    (bind (request cfg GET ("/v1/transactions/" ++ txId) JUndefined)
       (fun response => lift (JsRead.get response "status")))
    (fun error =>
       ConsoleError "Error getting transaction status:" error
         (Throw error)).

End Client.

(* ------------------------------------------------------------------------- *)
(** ** The declared shape of a job ([interface TransactionResponse]) *)

Inductive TransactionType : Type :=
| SolanaTransaction
| SolanaMessage
| EvmTransaction
| EvmMessage.

Definition type_name (t : TransactionType) : string :=
  match t with
  | SolanaTransaction => "solana_transaction"
  | SolanaMessage => "solana_message"
  | EvmTransaction => "evm_transaction"
  | EvmMessage => "evm_message"
  end.

Record SignatureEntry : Type := { signature : string; public_key : string }.

Record ChainInfo : Type := { unique_id : string; name : string }.

Record TransactionResponse : Type := {
  id : string;
  creation_time : string;
  modification_time : string;
  state : TransactionState;
  vault_id : string;
  type_ : TransactionType;
  chain : ChainInfo;
  transaction_hash : option string;
  signatures : option (list SignatureEntry)
}.

Module Wire.
Open Scope list_scope.
Open Scope string_scope.

Definition entry_json (e : SignatureEntry) : jsval :=
  JObj [ ("signature", JStr (signature e)); ("public_key", JStr (public_key e)) ].

Definition present (k : string) (o : option jsval) : list (string * jsval) :=
  match o with
  | Some v => [(k, v)]
  | None => []
  end.

(** The document a job of the declared shape arrives as; an optional member
    that is not there has no key. *)
Definition job_json (r : TransactionResponse) : jsval :=
  JObj ([ ("id", JStr (id r));
          ("creation_time", JStr (creation_time r));
          ("modification_time", JStr (modification_time r));
          ("state", JStr (state_name (state r)));
          ("vault_id", JStr (vault_id r));
          ("type", JStr (type_name (type_ r)));
          ("chain", JObj [ ("unique_id", JStr (unique_id (chain r)));
                           ("name", JStr (name (chain r))) ]) ]
        ++ present "transaction_hash" (option_map JStr (transaction_hash r))
        ++ present "signatures"
             (option_map (fun l => JArr (map entry_json l)) (signatures r))).

End Wire.

(* ------------------------------------------------------------------------- *)
(** ** The signing adapter ([fordefiSigner]) *)

Record Transaction : Type := { messageBytes : list byte }.

Module Signer.
Import Runtime.
Open Scope list_scope.
Open Scope string_scope.

(** The options handed to the submission of the member at [index]:
    [{...options, idempotenceId: options.idempotenceId ?
    `${options.idempotenceId}-${index}` : undefined}]. *)
Definition member_options (options : Options) (index : nat) : Options :=
  {| note := note options;
     idempotenceId :=
       match idempotenceId options with
       | Some base =>
           if Js.truthy (JStr base)
           then Some (base ++ "-" ++ Text.show_nat index)
           else None
       | None => None
       end;
     signMode := signMode options;
     pushMode := pushMode options;
     timeout := timeout options |}.

(** What the adapter does with the response of the member at [index]. *)
Definition extract_signature (index : nat) (response : jsval)
  : JsError + list byte :=
  match JsRead.get response "signatures" with
  | inl e => inl e
  | inr sigs =>
      if negb (Js.truthy sigs)
         || match JsRead.get sigs "length" with
            | inr n => JsRead.is_zero n
            | inl _ => false
            end
      then inl (Error ("No signature returned for transaction "
                       ++ Text.show_nat index))
      else
        match JsRead.get (JsRead.first sigs) "signature" with
        | inl e => inl e
        | inr signatureBase64 =>
            match JsRead.Buffer_from_base64 signatureBase64 with
            | inl e => inl e
            | inr signatureBuffer =>
                if negb (Nat.eqb (List.length signatureBuffer) 64)
                then inl (Error ("Invalid signature length: "
                                 ++ Text.show_nat (List.length signatureBuffer)
                                 ++ ", expected 64 bytes"))
                else inr signatureBuffer
            end
        end
  end.

(** The [async (tx, index) => ...] given to [transactions.map]. *)
Definition sign_member (cfg : FordefiConfig) (vaultId chain : string)
  (options : Options) (index : nat) (tx : Transaction) : Async (list byte) :=
  let txBuffer := messageBytes tx in
  bind (Client.createAndWaitTransaction cfg vaultId txBuffer chain
          (member_options options index))
    (fun response => lift (extract_signature index response)).

Fixpoint map_from {A B : Type} (f : nat -> A -> B) (i : nat) (l : list A)
  : list B :=
  match l with
  | [] => []
  | x :: r => f i x :: map_from f (S i) r
  end.

Definition signaturePromises (cfg : FordefiConfig) (vaultId chain : string)
  (options : Options) (transactions : list Transaction)
  : list (Async (list byte)) :=
  map_from (sign_member cfg vaultId chain options) 0 transactions.

(** The pool [signAndSendTransactions] hands to [Promise.all], on the fresh
    client it creates, after the pending requests completed in [order]. *)
Definition batch (w : World) (order : list nat) (cfg : FordefiConfig)
  (vaultId chain : string) (options : Options)
  (transactions : list Transaction) : Pool (list byte) :=
  run w order
    (launch w (signaturePromises cfg vaultId chain options transactions) fresh).

(** [signAndSendTransactions(transactions)]; [None] while the promise is
    pending. *)
Definition signAndSendTransactions (w : World) (order : list nat)
  (cfg : FordefiConfig) (vaultId chain : string) (options : Options)
  (transactions : list Transaction) : option (JsError + list (list byte)) :=
  Promise_all (batch w order cfg vaultId chain options transactions).

End Signer.

(* ------------------------------------------------------------------------- *)
(** ** Vocabulary of the specification *)

Module Spec.
Import Runtime.
Open Scope list_scope.
Open Scope string_scope.

(** The client holds the cached token [tok]. *)
Definition holds_token (m : Machine) (tok : jsval) : Prop :=
  accessToken m = tok /\ Js.truthy tok = true.

(** The request is the authentication call [POST /auth] of the instance. *)
Definition is_auth (cfg : FordefiConfig) (req : HttpRequest) : Prop :=
  method req = POST
  /\ baseURL req = Some (Client.api_baseURL cfg)
  /\ url req = "/auth".

(** The request is a job submission to the submit-and-wait endpoint. *)
Definition is_submission (cfg : FordefiConfig) (req : HttpRequest) : Prop :=
  method req = POST
  /\ baseURL req = None
  /\ url req = Client.api_baseURL cfg ++ Client.create_and_wait_path.

(** [Completed], [Failed] and [Aborted] are the terminal states. *)
Definition terminal (s : TransactionState) : bool :=
  match s with
  | Completed | Failed | Aborted => true
  | _ => false
  end.

(** The job document [job] is in state [s]: [job.state] is the string of
    [s]. *)
Definition job_state (job : jsval) (s : TransactionState) : Prop :=
  JsRead.get job "state" = inr (JStr (state_name s)).

(** The contract of the submit-and-wait endpoint: a response with a status in
    [[200,300)] carries a job in a terminal state. *)
Definition server_contract (w : World) (cfg : FordefiConfig) : Prop :=
  forall i n req r,
    is_submission cfg req ->
    net w i n req = Answered r ->
    (200 <= status r < 300)%Z ->
    exists s, job_state (data r) s /\ terminal s = true.

(** The outcome grants a token: a response with a status in [[200,300)]
    whose body has a truthy [accessToken]. *)
Definition grants_token (o : NetOutcome) : Prop :=
  exists a tok,
    o = Answered a
    /\ (200 <= status a < 300)%Z
    /\ JsRead.get (data a) "accessToken" = inr tok
    /\ Js.truthy tok = true.

(** Task [k] is served with the document [r]: its authentication calls are
    granted a token, and its submissions are answered, with a status in
    [[200,300)], by [r]. *)
Definition served (w : World) (cfg : FordefiConfig) (k : nat) (r : jsval)
  : Prop :=
  (forall n req, is_auth cfg req -> grants_token (net w k n req))
  /\ (forall n req, is_submission cfg req ->
        exists a, net w k n req = Answered a
                  /\ (200 <= status a < 300)%Z
                  /\ data a = r).

(** Task [k], in status [s], settles with [out] once at most [n] more of its
    requests have completed, whatever the machine looks like by then. *)
Fixpoint due {A : Type} (w : World) (k : nat) (out : JsError + A) (n : nat)
  (s : Status A) : Prop :=
  match n with
  | O => s = Settled out
  | S n' =>
      match s with
      | Settled r => r = out
      | Waiting t => forall m, due w k out n' (fst (advance w k t m))
      end
  end.

(** Every request of task [k] in the tree [t], on every branch, satisfies
    [ok]. *)
Fixpoint all_requests {A : Type} (ok : HttpRequest -> Prop) (t : Async A)
  : Prop :=
  match t with
  | Return _ | Throw _ => True
  | ReadToken k => forall v, all_requests ok (k v)
  | WriteToken _ k => all_requests ok k
  | DateNow k => forall z, all_requests ok (k z)
  | ConsoleError _ _ k => all_requests ok k
  | AwaitHttp req k => ok req /\ forall o, all_requests ok (k o)
  end.

(** The idempotence key the member at [index] is to carry. *)
Definition member_key (options : Options) (index : nat) : option string :=
  match idempotenceId options with
  | Some base =>
      if String.eqb base EmptyString then None
      else Some (base ++ "-" ++ Text.show_nat index)
  | None => None
  end.

(** The payload the member at [index] submits for [tx]. *)
Definition member_submission (vaultId chain : string) (options : Options)
  (index : nat) (tx : Transaction) : jsval :=
  Client.submission vaultId (messageBytes tx) chain
    (Signer.member_options options index).

(** The payload carries the idempotence key [key]: among the members
    [JSON.stringify] writes, [idempotence_id] is that string, or, without a
    key, is not there at all. *)
Definition carries (payload : jsval) (key : option string) : Prop :=
  match payload with
  | JObj fields =>
      match key with
      | Some s => In ("idempotence_id", JStr s) (Js.written fields)
      | None => ~ In "idempotence_id" (map fst (Js.written fields))
      end
  | _ => False
  end.

(** [req] is a request the member at [k] of the batch [txs] may send: its
    authentication call, or the submission of its payload. *)
Definition member_request (cfg : FordefiConfig) (vaultId chain : string)
  (options : Options) (txs : list Transaction) (k : nat) (req : HttpRequest)
  : Prop :=
  is_auth cfg req
  \/ exists tx text,
       nth_error txs k = Some tx
       /\ is_submission cfg req
       /\ Js.JSON_stringify (member_submission vaultId chain options k tx)
          = Js.Text text
       /\ body req = Some text.

(** The pool has sent, for each task, only requests that satisfy [ok], and
    its waiting tasks will send only such requests. *)
Definition traced {A : Type} (ok : nat -> HttpRequest -> Prop) (p : Pool A)
  : Prop :=
  (forall k req, In (k, req) (sent (machine p)) -> ok k req)
  /\ (forall k t, nth_error (tasks p) k = Some (Waiting t) ->
                  all_requests (ok k) t).

(** What [Promise.all] rejects with is the rejection of one of the tasks. *)
Definition rejection_sound {A : Type} (p : Pool A) : Prop :=
  forall e, rejection p = Some e ->
            exists k, nth_error (tasks p) k = Some (Settled (inl e)).

(** [Promise.all] has rejected as soon as one task has. *)
Definition rejection_complete {A : Type} (p : Pool A) : Prop :=
  forall k e, nth_error (tasks p) k = Some (Settled (inl e)) ->
              rejection p <> None.

(** The value of the header [name] of a request. *)
Fixpoint header (name : string) (hs : list (string * string)) : option string :=
  match hs with
  | [] => None
  | (k, v) :: r => if String.eqb k name then Some v else header name r
  end.

(** A [POST] request is signed for the secret of [cfg]: its [x-signature] is
    the HMAC, in lowercase hexadecimal, of its [x-timestamp] followed by the
    text it hands to axios as body. *)
Definition signed (cfg : FordefiConfig) (req : HttpRequest) : Prop :=
  method req = POST ->
  exists ts text,
    body req = Some text
    /\ header "x-timestamp" (headers req) = Some (Text.show ts)
    /\ header "x-signature" (headers req)
       = Some (Sha256.createHmac_sha256_hex (apiSecret cfg)
                 (Text.show ts ++ text)).

(** The first signature of a job decodes to exactly 64 bytes. *)
Definition first_signature_ok (job : TransactionResponse) : bool :=
  match signatures job with
  | Some (e :: _) => Nat.eqb (List.length (Base64.decode (signature e))) 64
  | _ => false
  end.

(** The bytes of the first signature of a job. *)
Definition first_signature_bytes (job : TransactionResponse) : list byte :=
  match signatures job with
  | Some (e :: _) => Base64.decode (signature e)
  | _ => []
  end.

(** The error the adapter throws for the job of the member at [index] when
    its first signature is not acceptable. *)
Definition validation_error (index : nat) (job : TransactionResponse)
  : JsError :=
  match signatures job with
  | Some (e :: _) =>
      Error ("Invalid signature length: "
             ++ Text.show_nat (List.length (Base64.decode (signature e)))
             ++ ", expected 64 bytes")
  | _ => Error ("No signature returned for transaction " ++ Text.show_nat index)
  end.

(** The authentication request a client in state [m] sends: it is signed
    with the next reading of the clock. *)
Definition auth_call (w : World) (cfg : FordefiConfig) (m : Machine)
  : HttpRequest :=
  Client.auth_request cfg
    (Sha256.createHmac_sha256_hex (apiSecret cfg)
       (Text.show (clock w (ticks m)) ++ Client.auth_body cfg))
    (clock w (ticks m)).

(** The request [request(method, path, body)] sends once it holds the token
    [tok] in state [m]; a [POST] is signed with the next reading of the
    clock. *)
Definition request_call (w : World) (cfg : FordefiConfig) (meth : Method)
  (path : string) (requestBody : option string) (tok : jsval) (m : Machine)
  : HttpRequest :=
  match meth with
  | GET => Client.get_request (Client.api_baseURL cfg ++ path) tok
  | POST =>
      Client.post_request (Client.api_baseURL cfg ++ path) tok requestBody
        (Sha256.createHmac_sha256_hex (apiSecret cfg)
           (Text.show (clock w (ticks m)) ++ Client.signed_text requestBody))
        (clock w (ticks m))
  end.

(** The machine once task [i] has sent that request. *)
Definition after_request_call (w : World) (i : nat) (cfg : FordefiConfig)
  (meth : Method) (path : string) (requestBody : option string) (tok : jsval)
  (m : Machine) : Machine :=
  send i (request_call w cfg meth path requestBody tok m)
    (match meth with
     | GET => m
     | POST => tick m
     end).

(** What [request] makes of the outcome of its call. *)
Definition request_verdict (o : NetOutcome) : JsError + jsval :=
  match o with
  | Answered r =>
      if (status r <? 200)%Z || (status r >=? 300)%Z
      then inl (Error ("Network error occurred: " ++ Client.http_error_message r))
      else inr (data r)
  | Dropped _ (Some r) => inl (Error (Client.http_error_message r))
  | Dropped msg None => inl (Error ("Network error occurred: " ++ msg))
  end.

(** The machine once task [i] has read the clock and sent that request. *)
Definition after_auth_call (w : World) (i : nat) (cfg : FordefiConfig)
  (m : Machine) : Machine :=
  send i (auth_call w cfg m) (tick m).

End Spec.

(* ------------------------------------------------------------------------- *)
(** ** Sample environments *)

Module Samples.
Import Runtime.
Open Scope list_scope.
Open Scope string_scope.

Definition cfg0 : FordefiConfig :=
  {| apiKey := "key"; apiSecret := "secret"; baseUrl := None |}.

(** A world in which the authentication call meets [auth] and every other
    request meets [other]; the clock stands still. *)
Definition world_of (auth other : NetOutcome) : World :=
  {| net := fun _ _ req =>
              match baseURL req with
              | Some _ => auth
              | None => other
              end;
     clock := fun _ => 1700000000000%Z |}.

Definition token_reply : NetOutcome :=
  Answered {| status := 200; data := JObj [("accessToken", JStr "tok")] |}.

Definition refused : NetOutcome :=
  Dropped "connect ECONNREFUSED 127.0.0.1:443" None.

Definition invalid_vault : AxiosResponse :=
  {| status := 400; data := JObj [("error", JStr "invalid vault")] |}.

Definition no_options : Options :=
  {| note := None; idempotenceId := None; signMode := None; pushMode := None;
     timeout := None |}.

Definition with_key (base : string) : Options :=
  {| note := None; idempotenceId := Some base; signMode := None;
     pushMode := None; timeout := None |}.

(** The text [{"error":"invalid vault"}]. *)
Definition invalid_vault_text : string :=
  "{" ++ Js.quote "error" ++ ":" ++ Js.quote "invalid vault" ++ "}".

Definition signature_of_ones : SignatureEntry :=
  {| signature := Base64.encode (repeat x01 64); public_key := "pk" |}.

Definition short_signature : SignatureEntry :=
  {| signature := Base64.encode (repeat x01 63); public_key := "pk" |}.

Definition job_with (st : TransactionState)
  (sigs : option (list SignatureEntry)) : TransactionResponse :=
  {| id := "job-1";
     creation_time := "2024-01-01T00:00:00Z";
     modification_time := "2024-01-01T00:00:01Z";
     state := st;
     vault_id := "vault";
     type_ := SolanaTransaction;
     chain := {| unique_id := "solana_mainnet"; name := "Solana" |};
     transaction_hash := None;
     signatures := sigs |}.

(** A response with status 200 that carries the job [r]. *)
Definition job_reply (r : TransactionResponse) : NetOutcome :=
  Answered {| status := 200; data := Wire.job_json r |}.

(** A world that grants every task a token of its own, ["tok-0"],
    ["tok-1"], ..., and answers every submission with the same job. *)
Definition world_per_task : World :=
  {| net := fun i _ req =>
              match baseURL req with
              | Some _ =>
                  Answered {| status := 200;
                              data := JObj [("accessToken",
                                             JStr ("tok-" ++ Text.show_nat i))] |}
              | None =>
                  job_reply (job_with Completed (Some [signature_of_ones]))
              end;
     clock := fun _ => 1700000000000%Z |}.

(** A world that grants every token, answers the submission of task 0 with
    a job whose signature is one byte short, and fails every other submission
    with status 500. *)
Definition world_of_two_failures : World :=
  {| net := fun i _ req =>
              match baseURL req with
              | Some _ => token_reply
              | None =>
                  if Nat.eqb i 0
                  then job_reply (job_with Completed (Some [short_signature]))
                  else Answered {| status := 500; data := JStr "oops" |}
              end;
     clock := fun _ => 1700000000000%Z |}.

(** A client that holds the token ["tok"]. *)
Definition signed_in : Machine := set_token (JStr "tok") fresh.

End Samples.

(* ------------------------------------------------------------------------- *)
(** ** Further vocabulary: what the client sends and keeps *)

Module Observe.
Import Runtime.
Open Scope list_scope.
Open Scope string_scope.

(** The member [k] of an object document, [undefined] for anything else. *)
Definition member (k : string) (v : jsval) : jsval :=
  match v with
  | JObj fields => Js.lookup k fields
  | _ => JUndefined
  end.

(** The names of the members [JSON.stringify] writes for a document. *)
Definition written_names (v : jsval) : list string :=
  match v with
  | JObj fields => map fst (Js.written fields)
  | _ => []
  end.

(** The names under which the options that are set travel, in the order of
    the payload; a timeout of [0] counts as not set. *)
Definition option_names (options : Options) : list string :=
  (match idempotenceId options with Some _ => ["idempotence_id"] | None => [] end)
  ++ (match note options with Some _ => ["note"] | None => [] end)
  ++ (match signMode options with Some _ => ["sign_mode"] | None => [] end)
  ++ (match pushMode options with Some _ => ["push_mode"] | None => [] end)
  ++ (match timeout options with
      | Some t => if Z.eqb t 0 then [] else ["timeout"]
      | None => []
      end).

(** A character of lowercase hexadecimal. *)
Definition is_hex_digit (c : ascii) : bool :=
  let n := nat_of_ascii c in
  (Nat.leb 48 n && Nat.leb n 57) || (Nat.leb 97 n && Nat.leb n 102).

Fixpoint all_chars (p : ascii -> bool) (s : string) : bool :=
  match s with
  | EmptyString => true
  | String c r => p c && all_chars p r
  end.


(** The tree [t] sends at most [n] requests on any branch. *)
Fixpoint sends_at_most {A : Type} (n : nat) (t : Async A) : Prop :=
  match t with
  | Return _ | Throw _ => True
  | ReadToken k => forall v, sends_at_most n (k v)
  | WriteToken _ k => sends_at_most n k
  | DateNow k => forall z, sends_at_most n (k z)
  | ConsoleError _ _ k => sends_at_most n k
  | AwaitHttp _ k =>
      match n with
      | O => False
      | S n' => forall o, sends_at_most n' (k o)
      end
  end.


(** A task in status [s] sends at most [n] further requests. *)
Definition status_budget {A : Type} (n : nat) (s : Status A) : Prop :=
  match s with
  | Settled _ => True
  | Waiting rest => sends_at_most n rest
  end.

(** No task of the pool sends more than [n] requests in all: what task [k]
    has sent and what it may still send stay within [n], and a task that
    is not there has sent nothing. *)
Definition within {A : Type} (n : nat) (p : Pool A) : Prop :=
  forall k,
    match nth_error (tasks p) k with
    | Some s => exists b, status_budget b s /\ issued k (machine p) + b <= n
    | None => issued k (machine p) = 0
    end.

(** A world that grants every token and answers the submission of task [i]
    with the [i]-th job of [jobs]; the clock stands still. *)
Definition world_of_jobs (jobs : list TransactionResponse) : World :=
  {| net := fun i _ req =>
              match baseURL req with
              | Some _ => Samples.token_reply
              | None =>
                  match nth_error jobs i with
                  | Some job => Samples.job_reply job
                  | None => Samples.refused
                  end
              end;
     clock := fun _ => 1700000000000%Z |}.

End Observe.

(* ------------------------------------------------------------------------- *)
(** ** Authority instructions ([src/token/setAuthority.ts] and its callers)

    An address is the string the kit brands as [Address].  The address codec
    and the program address come from the SDK; the development takes them as
    given: [encode a] is [None] when [getAddressCodec().encode(a)] throws. *)

Module Token.
Import Runtime.
Open Scope list_scope.
Open Scope string_scope.

Inductive AccountRole : Type :=
| READONLY
| WRITABLE
| READONLY_SIGNER
| WRITABLE_SIGNER.

Record AccountMeta : Type := { address : string; role : AccountRole }.

Record Instruction : Type := {
  accounts : list AccountMeta;
  programAddress : string;
  data : list byte
}.

(** What a builder throws: an [Error] with its message, the [RangeError] of
    [Uint8Array.prototype.set], or whatever the codec throws. *)
Inductive Thrown : Type :=
| PlainError (message : string)
| RangeError (message : string)
| CodecFailure.

(** The local table [AuthorityType] of [getSetAuthorityInstruction]. *)
Definition AuthorityType : list (string * Z) :=
  [ ("MintTokens", 0); ("FreezeAccount", 1); ("AccountOwner", 2);
    ("CloseAccount", 3); ("TransferFeeConfig", 4); ("WithheldWithdraw", 5);
    ("CloseMint", 6); ("InterestRate", 7); ("PermanentDelegate", 8);
    ("ConfidentialTransferMint", 9); ("TransferHookProgramId", 10);
    ("ConfidentialTransferFeeConfig", 11); ("MetadataPointer", 12);
    ("GroupPointer", 13); ("GroupMemberPointer", 14); ("ScaledUiAmount", 15);
    ("Pause", 16) ]%Z.

Fixpoint own_property (k : string) (table : list (string * Z)) : option Z :=
  match table with
  | [] => None
  | (k', v) :: r => if String.eqb k k' then Some v else own_property k r
  end.

(** [AuthorityType[name]] when [isNaN] is false of it.  A name that is no
    key of the table reads [undefined] or a member inherited from
    [Object.prototype], a function or an object: [isNaN] is true of each. *)
Definition authority_code (name : string) : option Z :=
  own_property name AuthorityType.

(** [target.set(source, offset)] on a [Uint8Array]. *)
Definition Uint8Array_set (target source : list byte) (offset : nat)
  : Thrown + list byte :=
  if Nat.ltb (List.length target) (List.length source + offset)
  then inl (RangeError "offset is out of bounds")
  else inr (firstn offset target ++ source
            ++ skipn (offset + List.length source) target)%list.

Record SetAuthorityInput : Type := {
  mint : string;
  authority : string;
  newAuthority : string;
  authorityType : string
}.

(** The members of the SDK's [enum AuthorityType] the code names. *)
Inductive SdkAuthorityType : Type :=
| MintTokens
| FreezeAccount
| AccountOwner
| CloseAccount
| TransferFeeConfig
| WithheldWithdraw
| CloseMint
| InterestRate
| PermanentDelegate
| ConfidentialTransferMint
| TransferHookProgramId
| ConfidentialTransferFeeConfig
| MetadataPointer
| GroupPointer
| GroupMemberPointer
| ScaledUiAmount
| Pause.

Definition member_name (t : SdkAuthorityType) : string :=
  match t with
  | MintTokens => "MintTokens"
  | FreezeAccount => "FreezeAccount"
  | AccountOwner => "AccountOwner"
  | CloseAccount => "CloseAccount"
  | TransferFeeConfig => "TransferFeeConfig"
  | WithheldWithdraw => "WithheldWithdraw"
  | CloseMint => "CloseMint"
  | InterestRate => "InterestRate"
  | PermanentDelegate => "PermanentDelegate"
  | ConfidentialTransferMint => "ConfidentialTransferMint"
  | TransferHookProgramId => "TransferHookProgramId"
  | ConfidentialTransferFeeConfig => "ConfidentialTransferFeeConfig"
  | MetadataPointer => "MetadataPointer"
  | GroupPointer => "GroupPointer"
  | GroupMemberPointer => "GroupMemberPointer"
  | ScaledUiAmount => "ScaledUiAmount"
  | Pause => "Pause"
  end.

(** What [getUpdateAuthorityInstructions] puts into its list: an instruction
    built here, or the call of an SDK builder with its arguments. *)
Inductive Built : Type :=
| Manual (instruction : Instruction)
| SdkUpdateMetadataAuthority
    (metadata updateAuthority newUpdateAuthority program : string)
| SdkSetAuthority (owned owner newOwner : string) (kind : SdkAuthorityType).

Record UpdateAuthorityInput : Type := {
  update_mint : string;
  update_role : string;
  currentAuthority : string;
  update_newAuthority : string
}.

(** The first [case] of a [switch] that is strictly equal to [role]. *)
Fixpoint switch_case {A : Type} (role : string) (cases : list (string * A))
  : option A :=
  match cases with
  | [] => None
  | (label, body) :: r =>
      if String.eqb role label then Some body else switch_case role r
  end.

Section Sdk.

Variable encode : string -> option (list byte).
Variable TOKEN_2022_PROGRAM_ADDRESS : string.

(** [getSetAuthorityInstruction(input)] of [src/token/setAuthority.ts]. *)
Definition getSetAuthorityInstruction (input : SetAuthorityInput)
  : Thrown + Instruction :=
  match authority_code (authorityType input) with
  | None =>
      inl (PlainError ("Invalid authority type: " ++ authorityType input))
  | Some code =>
      match encode (newAuthority input) with
      | None => inl CodecFailure
      | Some newAuthorityBytes =>
          let data0 := repeat x00 (1 + 1 + 1 + 32) in
          let data1 := replace 0 x06 data0 in
          let data2 := replace 1 (Base64.byte_of_Z code) data1 in
          let data3 := replace 2 x01 data2 in
          match Uint8Array_set data3 newAuthorityBytes 3 with
          | inl e => inl e
          | inr bytes =>
              inr {| accounts :=
                       [ {| address := mint input; role := WRITABLE |};
                         {| address := authority input;
                            role := READONLY_SIGNER |} ];
                     programAddress := TOKEN_2022_PROGRAM_ADDRESS;
                     data := bytes |}
          end
      end
  end.

(** [getSetTransferHookProgramIdAuthorityInstruction(input)] of the script
    that creates a mint; the authority type of the input is not read. *)
Definition getSetTransferHookProgramIdAuthorityInstruction
  (input : SetAuthorityInput) : Thrown + Instruction :=
  let AUTHORITY_TYPE_TRANSFER_HOOK_PROGRAM_ID := 10%Z in
  match encode (newAuthority input) with
  | None => inl CodecFailure
  | Some newAuthorityBytes =>
      let data0 := repeat x00 (1 + 1 + 1 + 32) in
      let data1 := replace 0 x06 data0 in
      let data2 :=
        replace 1 (Base64.byte_of_Z AUTHORITY_TYPE_TRANSFER_HOOK_PROGRAM_ID)
          data1 in
      let data3 := replace 2 x01 data2 in
      match Uint8Array_set data3 newAuthorityBytes 3 with
      | inl e => inl e
      | inr bytes =>
          inr {| accounts :=
                   [ {| address := mint input; role := WRITABLE |};
                     {| address := authority input; role := READONLY |} ];
                 programAddress := TOKEN_2022_PROGRAM_ADDRESS;
                 data := bytes |}
      end
  end.

End Sdk.

(** [getUpdateAuthorityInstructions(input)] of [src/token/updateAuthority.ts],
    which goes through the SDK. *)
Module ViaSdk.

Definition sdk_cases : list (string * SdkAuthorityType) :=
  [ ("MintTokens", MintTokens);
    ("FreezeAccount", FreezeAccount);
    ("AccountOwner", AccountOwner);
    ("CloseAccount", CloseAccount);
    ("ConfidentialTransferMint", ConfidentialTransferMint);
    ("MetadataPointer", MetadataPointer);
    ("PermanentDelegate", PermanentDelegate);
    ("ScaledUiAmount", ScaledUiAmount);
    ("TransferHookProgramId", TransferHookProgramId);
    ("ConfidentialTransferFeeConfig", ConfidentialTransferFeeConfig);
    ("GroupPointer", GroupPointer);
    ("GroupMemberPointer", GroupMemberPointer);
    ("Pause", Pause);
    ("InterestRate", InterestRate);
    ("WithheldWithdraw", WithheldWithdraw);
    ("CloseMint", CloseMint);
    ("TransferFeeConfig", TransferFeeConfig);
    ("TransferHookProgramId", TransferHookProgramId) ].

Definition getUpdateAuthorityInstructions (TOKEN_2022_PROGRAM_ADDRESS : string)
  (input : UpdateAuthorityInput) : Thrown + list Built :=
  if String.eqb (update_role input) "Metadata" then
    inr [ SdkUpdateMetadataAuthority (update_mint input)
            (currentAuthority input) (update_newAuthority input)
            TOKEN_2022_PROGRAM_ADDRESS ]
  else
    match switch_case (update_role input) sdk_cases with
    | Some kind =>
        inr [ SdkSetAuthority (update_mint input) (currentAuthority input)
                (update_newAuthority input) kind ]
    | None =>
        inl (PlainError ("Unsupported authority role: " ++ update_role input))
    end.

End ViaSdk.

(** The [getUpdateAuthorityInstructions(input)] that goes through
    [./setAuthority]. *)
Module ViaLocal.

Definition local_cases : list (string * unit) :=
  [ ("MintTokens", tt);
    ("FreezeAccount", tt);
    ("ConfidentialTransferMint", tt);
    ("MetadataPointer", tt);
    ("PermanentDelegate", tt);
    ("ScaledUiAmount", tt);
    ("TransferHookProgramId", tt) ].

Definition getUpdateAuthorityInstructions
  (encode : string -> option (list byte))
  (TOKEN_2022_PROGRAM_ADDRESS : string) (input : UpdateAuthorityInput)
  : Thrown + list Built :=
  if String.eqb (update_role input) "Metadata" then
    inr [ SdkUpdateMetadataAuthority (update_mint input)
            (currentAuthority input) (update_newAuthority input)
            TOKEN_2022_PROGRAM_ADDRESS ]
  else
    match switch_case (update_role input) local_cases with
    | Some _ =>
        match getSetAuthorityInstruction encode TOKEN_2022_PROGRAM_ADDRESS
                {| mint := update_mint input;
                   authority := currentAuthority input;
                   newAuthority := update_newAuthority input;
                   authorityType := update_role input |} with
        | inl e => inl e
        | inr instruction => inr [Manual instruction]
        end
    | None =>
        inl (PlainError ("Unsupported authority role: " ++ update_role input))
    end.

End ViaLocal.

End Token.

(* ------------------------------------------------------------------------- *)
(** * Properties *)

(** ** The platform functions on known vectors *)

Example sha256_abc :
  Text.hex (Sha256.sha256 (Sha256.octets "abc"))
  = "ba7816bf8f01cfea414140de5dae2223b00361a396177a9cb410ff61f20015ad".
Proof. vm_compute. reflexivity. Qed.

Example hmac_rfc4231_case2 :
  Sha256.createHmac_sha256_hex "Jefe" "what do ya want for nothing?"
  = "5bdcc146bf60754e6a042426089575c75a003f089d2739839dec58b964ec3843".
Proof. vm_compute. reflexivity. Qed.

Example sha256_two_blocks :
  Text.hex (Sha256.sha256
              (Sha256.octets
                 "abcdbcdecdefdefgefghfghighijhijkijkljklmklmnlmnomnopnopq"))
  = "248d6a61d20638b8e5c026930c3e6039a33ce45964ff2167f6ecedd419db06c1".
Proof. vm_compute. reflexivity. Qed.

Example hmac_rfc4231_case6 :
  Text.hex (Sha256.hmac (repeat 170%Z 131)
              (Sha256.octets
                 "Test Using Larger Than Block-Size Key - Hash Key First"))
  = "60e431591ee0b67f0d8a26aacbf5b77f8e0bc6213728c5140546040f0ee37f54".
Proof. vm_compute. reflexivity. Qed.

Example base64_encode_foobar :
  Base64.encode (Text.bytes_of_string "foobar") = "Zm9vYmFy"
  /\ Base64.encode (Text.bytes_of_string "fooba") = "Zm9vYmE="
  /\ Base64.encode (Text.bytes_of_string "foob") = "Zm9vYg==".
Proof. repeat split; vm_compute; reflexivity. Qed.

Example base64_decode_foobar :
  Base64.decode "Zm9vYmFy" = Text.bytes_of_string "foobar"
  /\ Base64.decode "Zm9vYmE=" = Text.bytes_of_string "fooba"
  /\ Base64.decode "Zm 9v
Yg" = Text.bytes_of_string "foob".
Proof. repeat split; vm_compute; reflexivity. Qed.

(* ------------------------------------------------------------------------- *)
(** ** Execution of composed computations *)

Module RuntimeFacts.
Import Runtime.

Lemma exec_bind {A B : Type} (w : World) (i : nat) (t : Async A)
  (f : A -> Async B) (m : Machine) :
  exec w i (bind t f) m =
  match exec w i t m with
  | (inr a, m') => exec w i (f a) m'
  | (inl e, m') => (inl e, m')
  end.
Proof.
  revert m. induction t; intros m; simpl; auto.
Qed.

Lemma exec_try_catch {A : Type} (w : World) (i : nat) (t : Async A)
  (h : JsError -> Async A) (m : Machine) :
  exec w i (try_catch t h) m =
  match exec w i t m with
  | (inr a, m') => (inr a, m')
  | (inl e, m') => exec w i (h e) m'
  end.
Proof.
  revert m. induction t; intros m; simpl; auto.
Qed.

Lemma exec_lift {A : Type} (w : World) (i : nat) (r : JsError + A)
  (m : Machine) :
  exec w i (lift r) m = (r, m).
Proof. destruct r; reflexivity. Qed.

Lemma advance_bind {A B : Type} (w : World) (i : nat) (t : Async A)
  (f : A -> Async B) (m : Machine) :
  advance w i (bind t f) m =
  match advance w i t m with
  | (Settled (inr a), m') => advance w i (f a) m'
  | (Settled (inl e), m') => (Settled (inl e), m')
  | (Waiting rest, m') => (Waiting (bind rest f), m')
  end.
Proof.
  revert m. induction t; intros m; simpl; auto.
Qed.

Lemma advance_try_catch {A : Type} (w : World) (i : nat) (t : Async A)
  (h : JsError -> Async A) (m : Machine) :
  advance w i (try_catch t h) m =
  match advance w i t m with
  | (Settled (inr a), m') => (Settled (inr a), m')
  | (Settled (inl e), m') => advance w i (h e) m'
  | (Waiting rest, m') => (Waiting (try_catch rest h), m')
  end.
Proof.
  revert m. induction t; intros m; simpl; auto.
Qed.

Lemma advance_lift {A : Type} (w : World) (i : nat) (r : JsError + A)
  (m : Machine) :
  advance w i (lift r) m = (Settled r, m).
Proof. destruct r; reflexivity. Qed.

End RuntimeFacts.

(* ------------------------------------------------------------------------- *)
(** ** Authentication *)

Module AuthFacts.
Import Runtime RuntimeFacts Client Spec.

Lemma authenticate_hit (w : World) (i : nat) (cfg : FordefiConfig)
  (m : Machine) :
  Js.truthy (accessToken m) = true ->
  exec w i (authenticate cfg) m = (inr (accessToken m), m).
Proof.
  intros H. unfold authenticate. simpl. rewrite H. reflexivity.
Qed.

Lemma authenticate_hit_at_once (w : World) (i : nat) (cfg : FordefiConfig)
  (m : Machine) :
  Js.truthy (accessToken m) = true ->
  advance w i (authenticate cfg) m = (Settled (inr (accessToken m)), m).
Proof.
  intros H. unfold authenticate. simpl. rewrite H. reflexivity.
Qed.

(** Without a cached token, [authenticate] sends one request and either
    caches and returns a truthy token, or throws its one error and leaves a
    falsy field. *)
Lemma authenticate_miss (w : World) (i : nat) (cfg : FordefiConfig)
  (m : Machine) :
  Js.truthy (accessToken m) = false ->
  exists m',
    sent m' = sent (after_auth_call w i cfg m)
    /\ ((exists tok, exec w i (authenticate cfg) m = (inr tok, m')
                     /\ holds_token m' tok)
        \/ (exec w i (authenticate cfg) m
            = (inl (Error "Failed to authenticate with Fordefi"), m')
            /\ Js.truthy (accessToken m') = false)).
Proof.
  intros H. unfold authenticate. simpl. rewrite H.
  unfold createSignature. simpl.
  fold (auth_call w cfg m).
  destruct (axios_settle (auth_call w cfg m)
              (net w i (issued i (tick m)) (auth_call w cfg m)))
    as [e | response]; simpl.
  - eexists. split; [| right; split; [reflexivity |]]; simpl; auto.
  - destruct (JsRead.get (data response) "accessToken") as [e | token]; simpl.
    + eexists. split; [| right; split; [reflexivity |]]; simpl; auto.
    + destruct (Js.truthy token) eqn:Htok; simpl.
      * eexists. split; [| left; eexists; split; [reflexivity |]].
        -- reflexivity.
        -- split; simpl; auto.
      * eexists. split; [| right; split; [reflexivity |]]; simpl; auto.
Qed.

Lemma authenticate_success (w : World) (i : nat) (cfg : FordefiConfig)
  (m m' : Machine) (tok : jsval) :
  exec w i (authenticate cfg) m = (inr tok, m') -> holds_token m' tok.
Proof.
  intros H. destruct (Js.truthy (accessToken m)) eqn:Hc.
  - rewrite (authenticate_hit w i cfg m Hc) in H. inversion H; subst.
    split; auto.
  - destruct (authenticate_miss w i cfg m Hc) as [m1 [_ [[t [E Ht]] | [E _]]]];
      rewrite E in H; inversion H; subst; auto.
Qed.

Lemma authenticate_failure (w : World) (i : nat) (cfg : FordefiConfig)
  (m m' : Machine) (e : JsError) :
  exec w i (authenticate cfg) m = (inl e, m') ->
  e = Error "Failed to authenticate with Fordefi"
  /\ Js.truthy (accessToken m) = false
  /\ Js.truthy (accessToken m') = false
  /\ sent m' = sent (after_auth_call w i cfg m).
Proof.
  intros H. destruct (Js.truthy (accessToken m)) eqn:Hc.
  - rewrite (authenticate_hit w i cfg m Hc) in H. discriminate.
  - destruct (authenticate_miss w i cfg m Hc) as [m1 [Hs [[t [E Ht]] | [E Hf]]]];
      rewrite E in H; inversion H; subst; auto.
Qed.

End AuthFacts.

(* ------------------------------------------------------------------------- *)
(** ** The generic request *)

Module RequestFacts.
Import Runtime RuntimeFacts Client Spec AuthFacts.
Open Scope string_scope.

Lemma contains_here (needle pre post : string) :
  Text.contains needle (pre ++ needle ++ post).
Proof. exists pre, post. reflexivity. Qed.

Lemma contains_append_l (needle s pre : string) :
  Text.contains needle s -> Text.contains needle (pre ++ s).
Proof.
  intros [a [b E]]. exists (pre ++ a), b. subst.
  induction pre; simpl; congruence.
Qed.

Lemma contains_self (s : string) : Text.contains s s.
Proof. exists EmptyString, EmptyString. simpl. induction s; simpl; congruence. Qed.

Lemma append_assoc (a b c : string) : (a ++ b) ++ c = a ++ (b ++ c).
Proof. induction a; simpl; congruence. Qed.

Lemma append_nil_r (a : string) : a ++ EmptyString = a.
Proof. induction a; simpl; congruence. Qed.

Lemma stringify_no_text (v : jsval) :
  Js.JSON_stringify v = Js.NoText -> v = JUndefined.
Proof.
  destruct v; cbn [Js.JSON_stringify]; intros H; try discriminate; auto.
  - destruct (Js.elements Js.JSON_stringify items); discriminate.
  - destruct (Js.members Js.JSON_stringify fields); discriminate.
Qed.

(** The message for a status outside [[200,300)] shows the status and the
    body: its JSON text when it has one, its plain rendering otherwise. *)
Lemma http_error_message_carries (r : AxiosResponse) :
  Text.contains (Text.show (status r)) (http_error_message r)
  /\ (forall s, Js.JSON_stringify (data r) = Js.Text s ->
              Text.contains s (http_error_message r))
  /\ ((forall s, Js.JSON_stringify (data r) <> Js.Text s) ->
      Text.contains (Js.to_String (data r)) (http_error_message r)).
Proof.
  unfold http_error_message. repeat split.
  - destruct (Js.JSON_stringify (data r)); rewrite !append_assoc;
      apply contains_here.
  - intros s E. rewrite E.
    do 3 apply contains_append_l. apply contains_self.
  - intros E. destruct (Js.JSON_stringify (data r)) as [s | |] eqn:Hs.
    + destruct (E s eq_refl).
    + apply stringify_no_text in Hs. rewrite Hs.
      do 2 apply contains_append_l.
      exists "Error details: ", EmptyString. reflexivity.
    + do 3 apply contains_append_l. apply contains_self.
Qed.

(** [request] on an authenticated client: one call, judged by
    [request_verdict]. *)
Lemma request_exec (w : World) (i : nat) (cfg : FordefiConfig) (meth : Method)
  (path : string) (body : jsval) (m m1 : Machine) (tok : jsval)
  (rb : option string) :
  exec w i (authenticate cfg) m = (inr tok, m1) ->
  request_body body = inr rb ->
  exec w i (request cfg meth path body) m
  = (request_verdict
       (net w i (issued i m1) (request_call w cfg meth path rb tok m1)),
     after_request_call w i cfg meth path rb tok m1).
Proof.
  intros Hauth Hrb. unfold request.
  rewrite exec_bind, Hauth, exec_bind, exec_lift, Hrb, exec_try_catch, exec_bind.
  unfold after_request_call, request_call.
  destruct meth; simpl;
    try change (issued i (tick m1)) with (issued i m1).
  - match goal with
    | |- context [net w i ?n ?q] => destruct (net w i n q) as [r | msg [r |]]
    end; simpl; auto.
    destruct ((status r <? 200)%Z || (status r >=? 300)%Z); reflexivity.
  - match goal with
    | |- context [net w i ?n ?q] => destruct (net w i n q) as [r | msg [r |]]
    end; simpl; auto.
    destruct ((status r <? 200)%Z || (status r >=? 300)%Z); reflexivity.
Qed.

Lemma request_exec_unauthenticated (w : World) (i : nat) (cfg : FordefiConfig)
  (meth : Method) (path : string) (body : jsval) (m m1 : Machine)
  (e : JsError) :
  exec w i (authenticate cfg) m = (inl e, m1) ->
  exec w i (request cfg meth path body) m = (inl e, m1).
Proof.
  intros Hauth. unfold request. rewrite exec_bind, Hauth. reflexivity.
Qed.

End RequestFacts.

(* ------------------------------------------------------------------------- *)
(** * The claims of the specification *)

Import Runtime RuntimeFacts Client Spec AuthFacts RequestFacts.

(** ** Cached token *)

(** C4.  In a client state that holds a cached token, be it any such state or
    the one a successful authentication has just left, [authenticate] returns
    that token at once, without waiting for the network, sends no request and
    leaves the state as it is; called a second time in succession it returns
    the identical token, again with nothing sent. *)
Theorem authenticate_returns_cached_token (w : World) (i : nat)
  (cfg : FordefiConfig) (m0 m : Machine) (tok : jsval) :
  holds_token m tok \/ exec w i (authenticate cfg) m0 = (inr tok, m) ->
  let first := exec w i (authenticate cfg) m in
  let second := exec w i (authenticate cfg) (snd first) in
  first = (inr tok, m)
  /\ advance w i (authenticate cfg) m = (Settled (inr tok), m)
  /\ second = (inr tok, m)
  /\ sent (snd first) = sent m
  /\ sent (snd second) = sent m.
Proof.
  intros H.
  assert (Hh : holds_token m tok).
  { destruct H as [H | H]; [exact H | exact (authenticate_success _ _ _ _ _ _ H)]. }
  destruct Hh as [Et Ht]. subst tok.
  pose proof (authenticate_hit w i cfg m Ht) as E.
  cbv zeta. rewrite E. cbn [snd]. rewrite E.
  repeat split; auto using authenticate_hit_at_once.
Qed.

Lemma authenticate_returns_cached_token_witness :
  (holds_token Samples.signed_in (JStr "tok")
   \/ exec (Samples.world_of Samples.refused Samples.refused) 0
        (authenticate Samples.cfg0) fresh
      = (inr (JStr "tok"), Samples.signed_in))
  /\ exec (Samples.world_of Samples.refused Samples.refused) 0
       (authenticate Samples.cfg0) Samples.signed_in
     = (inr (JStr "tok"), Samples.signed_in).
Proof.
  assert (H : holds_token Samples.signed_in (JStr "tok")
              \/ exec (Samples.world_of Samples.refused Samples.refused) 0
                   (authenticate Samples.cfg0) fresh
                 = (inr (JStr "tok"), Samples.signed_in)).
  { left. split; reflexivity. }
  split; [exact H |].
  exact (proj1 (authenticate_returns_cached_token _ 0 Samples.cfg0 fresh
                  Samples.signed_in (JStr "tok") H)).
Defined.

(** The session a successful first authentication leaves holds the token it
    returned: the second disjunct of C4 on a concrete exchange. *)
Example authenticate_twice_one_request :
  let w := Samples.world_of Samples.token_reply Samples.refused in
  let first := exec w 0 (authenticate Samples.cfg0) fresh in
  let second := exec w 0 (authenticate Samples.cfg0) (snd first) in
  fst first = inr (JStr "tok")
  /\ fst second = inr (JStr "tok")
  /\ List.length (sent (snd first)) = 1
  /\ List.length (sent (snd second)) = 1.
Proof. vm_compute. repeat split. Qed.



(** The three causes named by C10: the call is rejected for its status, no
    response arrives, the response holds no token.  Each leaves a falsy
    field. *)
Example authenticate_fails_three_ways :
  let run_with auth :=
    exec (Samples.world_of auth Samples.refused) 0
      (authenticate Samples.cfg0) fresh in
  let unauthorized :=
    Answered {| status := 401; data := JObj [("error", JStr "unauthorized")] |} in
  let empty := Answered {| status := 200; data := JObj [] |} in
  let blank :=
    Answered {| status := 200; data := JObj [("accessToken", JStr EmptyString)] |} in
  fst (run_with unauthorized) = inl (Error "Failed to authenticate with Fordefi")
  /\ accessToken (snd (run_with unauthorized)) = JNull
  /\ fst (run_with Samples.refused) = inl (Error "Failed to authenticate with Fordefi")
  /\ accessToken (snd (run_with Samples.refused)) = JNull
  /\ fst (run_with empty) = inl (Error "Failed to authenticate with Fordefi")
  /\ accessToken (snd (run_with empty)) = JUndefined
  /\ fst (run_with blank) = inl (Error "Failed to authenticate with Fordefi")
  /\ accessToken (snd (run_with blank)) = JStr EmptyString.
Proof. vm_compute. repeat split. Qed.

(** ** Status classification *)

(** C5.  When the call of [request] is answered, a status outside [[200,300)]
    makes it throw an error whose message shows the status and the body (the
    JSON text of the body where it has one, its plain rendering where
    [JSON.stringify] refuses it); a status inside [[200,300)] makes it return
    the body. *)
Theorem request_classifies_status (w : World) (i : nat) (cfg : FordefiConfig)
  (meth : Method) (path : string) (body : jsval) (m m1 : Machine)
  (tok : jsval) (rb : option string) (r : AxiosResponse) :
  exec w i (authenticate cfg) m = (inr tok, m1) ->
  request_body body = inr rb ->
  net w i (issued i m1) (request_call w cfg meth path rb tok m1) = Answered r ->
  let result := fst (exec w i (request cfg meth path body) m) in
  ((status r < 200 \/ 300 <= status r)%Z ->
   exists msg,
     result = inl (Error msg)
     /\ Text.contains (Text.show (status r)) msg
     /\ (forall s, Js.JSON_stringify (data r) = Js.Text s -> Text.contains s msg)
     /\ ((forall s, Js.JSON_stringify (data r) <> Js.Text s) ->
         Text.contains (Js.to_String (data r)) msg))
  /\ ((200 <= status r < 300)%Z -> result = inr (data r)).
Proof.
  intros Hauth Hrb Hnet result. subst result.
  rewrite (request_exec w i cfg meth path body m m1 tok rb Hauth Hrb), Hnet.
  cbn [fst request_verdict]. split; intros Hst.
  - replace ((status r <? 200)%Z || (status r >=? 300)%Z) with true
      by (symmetry; apply orb_true_iff;
          destruct Hst; [left; apply Z.ltb_lt | right; apply Z.geb_le]; lia).
    eexists. split; [reflexivity |].
    destruct (http_error_message_carries r) as [H1 [H2 H3]].
    repeat split; intros; apply contains_append_l; auto.
  - replace ((status r <? 200)%Z || (status r >=? 300)%Z) with false;
      [reflexivity |].
    symmetry. apply orb_false_iff. split.
    + apply Z.ltb_ge. lia.
    + rewrite Z.geb_leb. apply Z.leb_gt. lia.
Qed.

Lemma request_classifies_status_witness :
  let w := Samples.world_of Samples.token_reply (Answered Samples.invalid_vault) in
  exists msg,
    fst (exec w 0 (request Samples.cfg0 GET "/v1/wallets/solana" JUndefined)
           Samples.signed_in)
    = inl (Error msg)
    /\ Text.contains "400" msg
    /\ Text.contains Samples.invalid_vault_text msg.
Proof.
  cbv zeta.
  destruct (request_classifies_status
              (Samples.world_of Samples.token_reply
                 (Answered Samples.invalid_vault))
              0 Samples.cfg0 GET "/v1/wallets/solana" JUndefined
              Samples.signed_in Samples.signed_in (JStr "tok")
              (Some EmptyString) Samples.invalid_vault
              eq_refl eq_refl eq_refl) as [Hbad _].
  destruct Hbad as [msg [E [Hs [Hb _]]]].
  - right. unfold Samples.invalid_vault. simpl. lia.
  - exists msg. split; [exact E |]. split; [exact Hs |].
    apply Hb. vm_compute. reflexivity.
Defined.

(** The example of the specification, evaluated: status 400 with body
    [{"error":"invalid vault"}]. *)
Example request_invalid_vault :
  fst (exec (Samples.world_of Samples.token_reply (Answered Samples.invalid_vault))
         0 (request Samples.cfg0 POST create_and_wait_path
              (JObj [("vault_id", JStr "v")])) fresh)
  = inl (Error ("Network error occurred: HTTP error occurred: status = 400"
                ++ Text.nl ++ "Error details: " ++ Samples.invalid_vault_text)).
Proof. vm_compute. reflexivity. Qed.

(** ** Transport failures *)

(** A call that meets no response makes [request] throw the transport
    message under the label [Network error occurred]. *)
Lemma request_without_response (w : World) (i : nat) (cfg : FordefiConfig)
  (meth : Method) (path : string) (body : jsval) (m m1 : Machine)
  (tok : jsval) (rb : option string) (msg : string) :
  exec w i (authenticate cfg) m = (inr tok, m1) ->
  request_body body = inr rb ->
  net w i (issued i m1) (request_call w cfg meth path rb tok m1)
  = Dropped msg None ->
  fst (exec w i (request cfg meth path body) m)
  = inl (Error ("Network error occurred: " ++ msg)).
Proof.
  intros Hauth Hrb Hnet.
  rewrite (request_exec w i cfg meth path body m m1 tok rb Hauth Hrb), Hnet.
  reflexivity.
Qed.

(** A status outside [[200,300)] is thrown inside the [try] block of
    [request] and caught by its own [catch]: it leaves under the same label
    [Network error occurred]. *)
Lemma request_bad_status_relabelled (w : World) (i : nat) (cfg : FordefiConfig)
  (meth : Method) (path : string) (body : jsval) (m m1 : Machine)
  (tok : jsval) (rb : option string) (r : AxiosResponse) :
  exec w i (authenticate cfg) m = (inr tok, m1) ->
  request_body body = inr rb ->
  net w i (issued i m1) (request_call w cfg meth path rb tok m1) = Answered r ->
  ((status r <? 200)%Z || (status r >=? 300)%Z) = true ->
  fst (exec w i (request cfg meth path body) m)
  = inl (Error ("Network error occurred: " ++ http_error_message r)).
Proof.
  intros Hauth Hrb Hnet Hst.
  rewrite (request_exec w i cfg meth path body m m1 tok rb Hauth Hrb), Hnet.
  cbn [fst request_verdict]. rewrite Hst. reflexivity.
Qed.

(** C6, on the code.  A refused connection and a status-400 response both
    leave [request] as an [Error] labelled [Network error occurred]; and a
    transport failure whose message reads like the text built for the 400
    response yields the very same error as that response. *)
Theorem request_network_and_status_errors_alike :
  let call w :=
    fst (exec w 0 (request Samples.cfg0 GET "/v1/wallets/solana" JUndefined)
           Samples.signed_in) in
  let refused := call (Samples.world_of Samples.token_reply Samples.refused) in
  let bad_status :=
    call (Samples.world_of Samples.token_reply (Answered Samples.invalid_vault)) in
  let mimic :=
    call (Samples.world_of Samples.token_reply
            (Dropped (http_error_message Samples.invalid_vault) None)) in
  refused
  = inl (Error ("Network error occurred: " ++ "connect ECONNREFUSED 127.0.0.1:443"))
  /\ bad_status
     = inl (Error ("Network error occurred: "
                   ++ http_error_message Samples.invalid_vault))
  /\ mimic = bad_status.
Proof. vm_compute. repeat split. Qed.

(** ** Submit and wait *)

Module SubmitFacts.
Import Runtime RuntimeFacts Client Spec AuthFacts RequestFacts.
Open Scope string_scope.

Lemma state_name_injective (s s' : TransactionState) :
  state_name s = state_name s' -> s = s'.
Proof. destruct s, s'; simpl; intros H; try reflexivity; discriminate. Qed.

(** The payload of a submission always has a JSON text. *)
Lemma submission_serializable (vaultId : string) (transaction : list byte)
  (chain : string) (options : Options) :
  exists s,
    request_body (submission vaultId transaction chain options) = inr (Some s).
Proof.
  unfold request_body, submission. cbn [Js.truthy].
  destruct options as [n k sm pm t].
  destruct n, k, sm, pm, t as [t |]; cbn;
    try destruct (Z.eqb t 0); cbn; eexists; reflexivity.
Qed.

(** [createAndWaitTransaction] returns what [request] returns and throws
    what [request] throws. *)
Lemma createAndWaitTransaction_exec (w : World) (i : nat) (cfg : FordefiConfig)
  (vaultId : string) (transaction : list byte) (chain : string)
  (options : Options) (m : Machine) :
  fst (exec w i (createAndWaitTransaction cfg vaultId transaction chain options) m)
  = fst (exec w i (request cfg POST create_and_wait_path
                     (submission vaultId transaction chain options)) m).
Proof.
  unfold createAndWaitTransaction.
  rewrite exec_try_catch, exec_bind.
  destruct (exec w i (request cfg POST create_and_wait_path
                        (submission vaultId transaction chain options)) m)
    as [[e | a] m1]; reflexivity.
Qed.

End SubmitFacts.

Import SubmitFacts.

(** C3.  Under the contract that the submit-and-wait endpoint answers
    successfully only with a job in a terminal state, every job that
    [createAndWaitTransaction] returns is in one of the states [Completed],
    [Failed], [Aborted], and in none of the transient ones. *)
Theorem createAndWaitTransaction_returns_terminal_job (w : World) (i : nat)
  (cfg : FordefiConfig) (vaultId : string) (transaction : list byte)
  (chain : string) (options : Options) (m m' : Machine) (job : jsval) :
  server_contract w cfg ->
  exec w i (createAndWaitTransaction cfg vaultId transaction chain options) m
  = (inr job, m') ->
  (exists s, job_state job s /\ (s = Completed \/ s = Failed \/ s = Aborted))
  /\ (forall s, In s [Created; WaitingForApproval; WaitingForSignature;
                      ReadyForPush; Pushed] -> ~ job_state job s).
Proof.
  intros Hc Hrun.
  assert (Hfst : fst (exec w i (request cfg POST create_and_wait_path
                                  (submission vaultId transaction chain options)) m)
                 = inr job).
  { rewrite <- createAndWaitTransaction_exec, Hrun. reflexivity. }
  destruct (exec w i (authenticate cfg) m) as [[e | tok] m1] eqn:Hauth.
  { rewrite (request_exec_unauthenticated _ _ _ _ _ _ _ _ _ Hauth) in Hfst.
    discriminate. }
  destruct (submission_serializable vaultId transaction chain options)
    as [text Hrb].
  rewrite (request_exec _ _ _ _ _ _ _ _ _ _ Hauth Hrb) in Hfst.
  cbn [fst] in Hfst.
  destruct (net w i (issued i m1)
              (request_call w cfg POST create_and_wait_path (Some text) tok m1))
    as [r | msg [r |]] eqn:Hnet; cbn [request_verdict] in Hfst;
    try discriminate.
  destruct ((status r <? 200)%Z || (status r >=? 300)%Z) eqn:Hst;
    [discriminate |].
  inversion Hfst; subst job.
  apply orb_false_iff in Hst. destruct Hst as [H1 H2].
  apply Z.ltb_ge in H1. rewrite Z.geb_leb in H2. apply Z.leb_gt in H2.
  assert (Hsub : is_submission cfg
                   (request_call w cfg POST create_and_wait_path (Some text)
                      tok m1)) by (repeat split).
  destruct (Hc i (issued i m1) _ r Hsub Hnet (conj H1 H2)) as [s [Hs Ht]].
  split.
  - exists s. split; [exact Hs |].
    destruct s; simpl in Ht; try discriminate; auto.
  - intros s' Hin Hs'. unfold job_state in *. rewrite Hs in Hs'.
    inversion Hs' as [E]. apply state_name_injective in E. subst s'.
    simpl in Hin.
    destruct Hin as [E | [E | [E | [E | [E | []]]]]]; subst s;
      discriminate Ht.
Qed.

Lemma createAndWaitTransaction_returns_terminal_job_witness :
  let w := Samples.world_of Samples.token_reply
             (Samples.job_reply
                (Samples.job_with Completed (Some [Samples.signature_of_ones]))) in
  server_contract w Samples.cfg0
  /\ exists s,
       job_state
         (Wire.job_json
            (Samples.job_with Completed (Some [Samples.signature_of_ones]))) s
       /\ (s = Completed \/ s = Failed \/ s = Aborted).
Proof.
  cbv zeta.
  assert (Hc : server_contract
                 (Samples.world_of Samples.token_reply
                    (Samples.job_reply
                       (Samples.job_with Completed
                          (Some [Samples.signature_of_ones]))))
                 Samples.cfg0).
  { intros i n req r [_ [Hb _]] Hnet _.
    unfold Samples.world_of in Hnet. cbn [net] in Hnet. rewrite Hb in Hnet.
    inversion Hnet; subst r. exists Completed. split; reflexivity. }
  split; [exact Hc |].
  refine (proj1 (createAndWaitTransaction_returns_terminal_job _ 0 Samples.cfg0
                   "vault" [x01; x02] "solana_mainnet" Samples.no_options
                   fresh _ _ Hc _)).
  vm_compute. reflexivity.
Defined.

(* ------------------------------------------------------------------------- *)
(** ** Pools of concurrent tasks *)

Module PoolFacts.
Import Runtime RuntimeFacts Spec.
Open Scope list_scope.

Lemma nth_error_replace_same {A : Type} (l : list A) (i : nat) (x y : A) :
  nth_error l i = Some y -> nth_error (replace i x l) i = Some x.
Proof.
  revert i. induction l as [| a l IH]; intros [| i] H; simpl in *;
    try discriminate; auto.
Qed.

Lemma nth_error_replace_other {A : Type} (l : list A) (i k : nat) (x : A) :
  i <> k -> nth_error (replace i x l) k = nth_error l k.
Proof.
  revert i k. induction l as [| a l IH]; intros [| i] [| k] H; simpl;
    auto; try congruence.
Qed.

Section Pool.
Context {A : Type} (w : World).

(** Resuming task [i] leaves every other task as it is. *)
Lemma resume_other (p : Pool A) (i k : nat) :
  i <> k -> nth_error (tasks (resume w p i)) k = nth_error (tasks p) k.
Proof.
  intros H. unfold resume.
  destruct (nth_error (tasks p) i) as [[r | t] |]; auto.
  destruct (advance w i t (machine p)) as [s m']. simpl.
  apply nth_error_replace_other. exact H.
Qed.

(** A settled task stays as it is. *)
Lemma resume_settled (p : Pool A) (i k : nat) (r : JsError + A) :
  nth_error (tasks p) k = Some (Settled r) ->
  nth_error (tasks (resume w p i)) k = Some (Settled r).
Proof.
  intros H. destruct (Nat.eq_dec i k) as [E | E].
  - subst. unfold resume. rewrite H. exact H.
  - rewrite resume_other; auto.
Qed.

Lemma run_settled (order : list nat) (p : Pool A) (k : nat) (r : JsError + A) :
  nth_error (tasks p) k = Some (Settled r) ->
  nth_error (tasks (run w order p)) k = Some (Settled r).
Proof.
  revert p. induction order as [| i order IH]; intros p H; simpl; auto.
  apply IH. apply resume_settled. exact H.
Qed.

(** Resuming a waiting task advances it on the machine of the pool. *)
Lemma resume_waiting (p : Pool A) (k : nat) (t : Async A) :
  nth_error (tasks p) k = Some (Waiting t) ->
  nth_error (tasks (resume w p k)) k
  = Some (fst (advance w k t (machine p))).
Proof.
  intros H. unfold resume. rewrite H.
  destruct (advance w k t (machine p)) as [s m'] eqn:E. simpl.
  eapply nth_error_replace_same. exact H.
Qed.

Lemma due_settled (k : nat) (out : JsError + A) (n : nat) :
  due w k out n (Settled out).
Proof. destruct n; reflexivity. Qed.

(** A task that is due within [n] completions has settled once [n] of its
    requests have completed. *)
Lemma run_due (k : nat) (out : JsError + A) (order : list nat) :
  forall (p : Pool A) (n : nat) (s : Status A),
    nth_error (tasks p) k = Some s ->
    due w k out n s ->
    n <= count_occ Nat.eq_dec order k ->
    nth_error (tasks (run w order p)) k = Some (Settled out).
Proof.
  induction order as [| i order IH]; intros p n s Hs Hd Hn; simpl in *.
  - assert (n = 0) by lia. subst n. simpl in Hd. subst s. exact Hs.
  - destruct s as [r | t].
    + assert (r = out) by (destruct n; simpl in Hd; congruence). subst r.
      apply run_settled. apply resume_settled. exact Hs.
    + destruct (Nat.eq_dec i k) as [E | E].
      * subst i. destruct n as [| n]; [discriminate Hd |].
        simpl in Hd.
        eapply (IH _ n); [apply resume_waiting; exact Hs | apply Hd | lia].
      * eapply (IH _ n); [rewrite resume_other; eauto | exact Hd | lia].
Qed.

(** *** The rejection of [Promise.all] *)

Lemma note_rejection_cases (s : Status A) (r : option JsError) :
  (note_rejection s r = r /\ (r <> None \/ forall e, s <> Settled (inl e)))
  \/ (r = None /\ exists e, s = Settled (inl e) /\ note_rejection s r = Some e).
Proof.
  destruct r as [e |]; simpl.
  - left. split; auto. left. discriminate.
  - destruct s as [[e | a] | t]; simpl.
    + right. split; auto. exists e. auto.
    + left. split; auto. right. intros e H. discriminate.
    + left. split; auto. right. intros e H. discriminate.
Qed.

Lemma launch_from_rejection (ts : list (Async A)) :
  forall (i : nat) (m : Machine) (r : option JsError),
    (forall e, rejection (launch_from w i ts m r) = Some e ->
               r = Some e
               \/ exists k, nth_error (tasks (launch_from w i ts m r)) k
                            = Some (Settled (inl e)))
    /\ (r <> None -> rejection (launch_from w i ts m r) <> None)
    /\ (forall k e, nth_error (tasks (launch_from w i ts m r)) k
                    = Some (Settled (inl e)) ->
                    rejection (launch_from w i ts m r) <> None).
Proof.
  induction ts as [| t ts IH]; intros i m r; simpl.
  - repeat split; auto. intros [| k] e H; discriminate.
  - destruct (advance w i t m) as [s m'] eqn:E. simpl.
    destruct (IH (S i) m' (note_rejection s r)) as [IH1 [IH2 IH3]].
    repeat split.
    + intros e H. destruct (IH1 e H) as [Hr | [k Hk]].
      * destruct (note_rejection_cases s r) as [[Hn _] | [Hn [e' [Hs He]]]].
        -- left. congruence.
        -- right. exists 0. simpl. congruence.
      * right. exists (S k). exact Hk.
    + intros Hr. apply IH2.
      destruct (note_rejection_cases s r) as [[Hn _] | [Hn _]]; congruence.
    + intros [| k] e H; simpl in H.
      * apply IH2. inversion H; subst s. destruct r; simpl; discriminate.
      * eapply IH3. exact H.
Qed.

Lemma launch_rejection (ts : list (Async A)) (m : Machine) :
  rejection_sound (launch w ts m) /\ rejection_complete (launch w ts m).
Proof.
  unfold launch.
  destruct (launch_from_rejection ts 0 m None) as [H1 [_ H3]].
  split.
  - intros e H. destruct (H1 e H) as [Hr | Hk]; [discriminate | exact Hk].
  - exact H3.
Qed.

Lemma resume_rejection (p : Pool A) (i : nat) :
  rejection_sound p /\ rejection_complete p ->
  rejection_sound (resume w p i) /\ rejection_complete (resume w p i).
Proof.
  intros [Hs Hc]. unfold resume.
  destruct (nth_error (tasks p) i) as [[r | t] |] eqn:Hi; auto.
  destruct (advance w i t (machine p)) as [s m'] eqn:E.
  split.
  - intros e H. simpl in *.
    destruct (note_rejection_cases s (rejection p))
      as [[Hn _] | [Hn [e' [Hse He]]]].
    + rewrite Hn in H. destruct (Hs e H) as [k Hk]. exists k.
      destruct (Nat.eq_dec i k) as [Eq | Ne].
      * subst. congruence.
      * rewrite nth_error_replace_other; auto.
    + rewrite He in H. inversion H; subst e'. exists i.
      rewrite (nth_error_replace_same _ _ _ _ Hi). congruence.
  - intros k e H. simpl in *.
    destruct (Nat.eq_dec i k) as [Eq | Ne].
    + subst k. rewrite (nth_error_replace_same _ _ _ _ Hi) in H.
      inversion H; subst s. destruct (rejection p); simpl; discriminate.
    + rewrite nth_error_replace_other in H; auto.
      pose proof (Hc k e H) as Hr.
      destruct (rejection p); simpl; [discriminate | congruence].
Qed.

Lemma run_rejection (order : list nat) (p : Pool A) :
  rejection_sound p /\ rejection_complete p ->
  rejection_sound (run w order p) /\ rejection_complete (run w order p).
Proof.
  revert p. induction order as [| i order IH]; intros p H; simpl; auto.
  apply IH. apply resume_rejection. exact H.
Qed.

(** What [Promise.all] rejects with is the rejection of one of its tasks, and
    it rejects as soon as one task has. *)
Lemma Promise_all_rejection (order : list nat) (ts : list (Async A))
  (m : Machine) :
  let p := run w order (launch w ts m) in
  (forall e, Promise_all p = Some (inl e) ->
             exists k, nth_error (tasks p) k = Some (Settled (inl e)))
  /\ (forall k e, nth_error (tasks p) k = Some (Settled (inl e)) ->
                  exists e', Promise_all p = Some (inl e')).
Proof.
  cbv zeta.
  destruct (run_rejection order (launch w ts m) (launch_rejection ts m))
    as [Hs Hc].
  unfold Promise_all. split.
  - intros e H. destruct (rejection (run w order (launch w ts m))) as [e' |] eqn:Hr.
    + inversion H; subst. apply Hs. exact Hr.
    + destruct (values (tasks (run w order (launch w ts m)))); discriminate.
  - intros k e H. specialize (Hc k e H).
    destruct (rejection (run w order (launch w ts m))) as [e' |];
      [eauto | congruence].
Qed.

(** The status a task has after the launch is the one it reaches from some
    machine satisfying [P], when [P] holds at the start and every launch
    keeps it. *)
Lemma launch_from_nth (P : Machine -> Prop) (ts : list (Async A)) :
  forall (i : nat) (m : Machine) (r : option JsError) (k : nat) (t : Async A),
    P m ->
    (forall j u m', nth_error ts j = Some u -> P m' ->
                    P (snd (advance w (i + j) u m'))) ->
    nth_error ts k = Some t ->
    exists mk,
      P mk
      /\ nth_error (tasks (launch_from w i ts m r)) k
         = Some (fst (advance w (i + k) t mk)).
Proof.
  induction ts as [| u ts IH]; intros i m r k t HP Hkeep Hk.
  - destruct k; discriminate.
  - simpl. destruct (advance w i u m) as [s m'] eqn:E. simpl.
    destruct k as [| k]; simpl in *.
    + inversion Hk; subst u. exists m. rewrite Nat.add_0_r, E. auto.
    + assert (HP' : P m').
      { specialize (Hkeep 0 u m eq_refl HP). rewrite Nat.add_0_r, E in Hkeep.
        exact Hkeep. }
      destruct (IH (S i) m' (note_rejection s r) k t HP') as [mk [Hmk Hn]].
      * intros j v m2 Hj Hm2. specialize (Hkeep (S j) v m2 Hj Hm2).
        rewrite Nat.add_succ_r in Hkeep. exact Hkeep.
      * exact Hk.
      * exists mk. rewrite Nat.add_succ_r. auto.
Qed.

(** *** The tasks of a pool and their values *)

Lemma replace_length {B : Type} (i : nat) (x : B) (l : list B) :
  List.length (replace i x l) = List.length l.
Proof.
  revert i. induction l as [| a l IH]; intros [| i]; simpl; auto.
Qed.

Lemma launch_from_length (ts : list (Async A)) :
  forall (i : nat) (m : Machine) (r : option JsError),
    List.length (tasks (launch_from w i ts m r)) = List.length ts.
Proof.
  induction ts as [| t ts IH]; intros i m r; simpl; auto.
  destruct (advance w i t m) as [s m']. simpl. rewrite IH. reflexivity.
Qed.

Lemma resume_length (p : Pool A) (i : nat) :
  List.length (tasks (resume w p i)) = List.length (tasks p).
Proof.
  unfold resume. destruct (nth_error (tasks p) i) as [[r | t] |]; auto.
  destruct (advance w i t (machine p)) as [s m']. simpl.
  apply replace_length.
Qed.

Lemma run_length (order : list nat) (p : Pool A) :
  List.length (tasks (run w order p)) = List.length (tasks p).
Proof.
  revert p. induction order as [| i order IH]; intros p; simpl; auto.
  rewrite IH. apply resume_length.
Qed.

(** When every task has settled with a value, [values] lists them in the
    order of the tasks. *)
Lemma values_all (l : list (Status A)) :
  forall vs : list A,
    List.length l = List.length vs ->
    (forall k v, nth_error vs k = Some v ->
                 nth_error l k = Some (Settled (inr v))) ->
    values l = Some vs.
Proof.
  induction l as [| s l IH]; intros [| v vs] Hlen H; simpl in *;
    try discriminate; auto.
  pose proof (H 0 v eq_refl) as H0. simpl in H0. inversion H0; subst s.
  rewrite (IH vs); auto.
  intros k x Hk. exact (H (S k) x Hk).
Qed.

(** *** The requests a pool sends *)

Lemma all_requests_bind {B : Type} (ok : HttpRequest -> Prop) (t : Async A)
  (f : A -> Async B) :
  all_requests ok t -> (forall a, all_requests ok (f a)) ->
  all_requests ok (bind t f).
Proof.
  intros Ht Hf. induction t; simpl in *; auto.
  - destruct Ht. split; auto.
Qed.

Lemma all_requests_try_catch (ok : HttpRequest -> Prop) (t : Async A)
  (h : JsError -> Async A) :
  all_requests ok t -> (forall e, all_requests ok (h e)) ->
  all_requests ok (try_catch t h).
Proof.
  intros Ht Hh. induction t; simpl in *; auto.
  - destruct Ht. split; auto.
Qed.

Lemma all_requests_lift (ok : HttpRequest -> Prop) (r : JsError + A) :
  all_requests ok (lift r).
Proof. destruct r; exact I. Qed.

(** Advancing a task sends at most one request, an admissible one, and
    leaves a task that will send only admissible ones. *)
Lemma advance_requests (ok : HttpRequest -> Prop) (i : nat) (t : Async A) :
  forall m,
    all_requests ok t ->
    (forall t', fst (advance w i t m) = Waiting t' -> all_requests ok t')
    /\ (sent (snd (advance w i t m)) = sent m
        \/ exists req, ok req
                       /\ sent (snd (advance w i t m)) = sent m ++ [(i, req)]).
Proof.
  induction t; intros m Ht; simpl in *; try (split; [discriminate | auto]).
  - apply H. auto.
  - destruct (IHt (set_token v m) Ht) as [H1 H2]. auto.
  - destruct (H (clock w (ticks m)) (tick m) (Ht _)) as [H1 H2]. auto.
  - destruct (IHt (log label e m) Ht) as [H1 H2]. auto.
  - destruct Ht as [Hreq Hk]. split.
    + intros t' E. inversion E. apply Hk.
    + right. exists req. auto.
Qed.

Lemma resume_traced (ok : nat -> HttpRequest -> Prop) (p : Pool A) (i : nat) :
  traced ok p -> traced ok (resume w p i).
Proof.
  intros [Hsent Htasks]. unfold resume.
  destruct (nth_error (tasks p) i) as [[r | t] |] eqn:Hi;
    try (split; assumption).
  destruct (advance_requests (ok i) i t (machine p) (Htasks i t Hi))
    as [Hrest Hnew].
  destruct (advance w i t (machine p)) as [s m'] eqn:E. simpl in *.
  split; simpl.
  - intros k req Hin. destruct Hnew as [Hsame | [q [Hq Hsame]]];
      rewrite Hsame in Hin; auto.
    apply in_app_or in Hin. destruct Hin as [Hin | [Hin | []]]; auto.
    inversion Hin; subst. exact Hq.
  - intros k t' Hk. destruct (Nat.eq_dec i k) as [Eq | Ne].
    + subst k. rewrite (nth_error_replace_same _ _ _ _ Hi) in Hk.
      inversion Hk; subst s. apply Hrest. reflexivity.
    + rewrite nth_error_replace_other in Hk; auto.
Qed.

Lemma run_traced (ok : nat -> HttpRequest -> Prop) (order : list nat)
  (p : Pool A) :
  traced ok p -> traced ok (run w order p).
Proof.
  revert p. induction order as [| i order IH]; intros p H; simpl; auto.
  apply IH. apply resume_traced. exact H.
Qed.

Lemma launch_from_traced (ok : nat -> HttpRequest -> Prop)
  (ts : list (Async A)) :
  forall (i : nat) (m : Machine) (r : option JsError),
    (forall k req, In (k, req) (sent m) -> ok k req) ->
    (forall k t, nth_error ts k = Some t -> all_requests (ok (i + k)) t) ->
    (forall k req, In (k, req) (sent (machine (launch_from w i ts m r))) ->
                   ok k req)
    /\ (forall k t, nth_error (tasks (launch_from w i ts m r)) k
                    = Some (Waiting t) ->
                    all_requests (ok (i + k)) t).
Proof.
  induction ts as [| u ts IH]; intros i m r Hsent Hts; simpl.
  - split; auto. intros [| k] t H; discriminate.
  - assert (Hu : all_requests (ok i) u).
    { specialize (Hts 0 u eq_refl). rewrite Nat.add_0_r in Hts. exact Hts. }
    destruct (advance_requests (ok i) i u m Hu) as [Hrest Hnew].
    destruct (advance w i u m) as [s m'] eqn:E. simpl in *.
    destruct (IH (S i) m' (note_rejection s r)) as [IH1 IH2].
    + intros k req Hin. destruct Hnew as [Hsame | [q [Hq Hsame]]];
        rewrite Hsame in Hin; auto.
      apply in_app_or in Hin. destruct Hin as [Hin | [Hin | []]]; auto.
      inversion Hin; subst. exact Hq.
    + intros k t Hk. specialize (Hts (S k) t Hk).
      rewrite Nat.add_succ_r in Hts. exact Hts.
    + split; auto.
      intros [| k] t Hk; simpl in Hk.
      * inversion Hk; subst s. rewrite Nat.add_0_r. apply Hrest. reflexivity.
      * rewrite Nat.add_succ_r. apply IH2. exact Hk.
Qed.

Lemma launch_traced (ok : nat -> HttpRequest -> Prop) (ts : list (Async A)) :
  (forall k t, nth_error ts k = Some t -> all_requests (ok k) t) ->
  traced ok (launch w ts fresh).
Proof.
  intros Hts. unfold launch.
  destruct (launch_from_traced ok ts 0 fresh None) as [H1 H2]; auto.
  - intros k req [].
  - split; auto.
Qed.

End Pool.
End PoolFacts.

(* ------------------------------------------------------------------------- *)
(** ** The members of a batch *)

Module MemberFacts.
Import Runtime RuntimeFacts Client Spec AuthFacts RequestFacts SubmitFacts.
Import PoolFacts Signer.
Open Scope string_scope.

(** Launched on a client without a token, a member sends its authentication
    call and waits; the token field is as it was. *)
Lemma member_launch (w : World) (k : nat) (cfg : FordefiConfig)
  (vaultId chain : string) (options : Options) (tx : Transaction)
  (m : Machine) :
  Js.truthy (accessToken m) = false ->
  exists rest,
    advance w k (sign_member cfg vaultId chain options k tx) m
    = (Waiting rest, after_auth_call w k cfg m).
Proof.
  intros H. unfold sign_member, createAndWaitTransaction, request.
  rewrite advance_bind, advance_try_catch, !advance_bind.
  unfold authenticate. simpl. rewrite H. simpl.
  eexists. reflexivity.
Qed.

Lemma member_due (w : World) (k : nat) (cfg : FordefiConfig)
  (vaultId chain : string) (options : Options) (tx : Transaction)
  (m : Machine) (r : jsval) :
  Js.truthy (accessToken m) = false ->
  served w cfg k r ->
  due w k (extract_signature k r) 2
    (fst (advance w k (sign_member cfg vaultId chain options k tx) m)).
Proof.
  intros H [Hauth Hsub]. unfold sign_member, createAndWaitTransaction, request.
  rewrite advance_bind, advance_try_catch, !advance_bind.
  unfold authenticate. simpl. rewrite H. simpl.
  intros m1.
  match goal with
  | |- context [net w k ?n ?q] =>
      destruct (Hauth n q) as [a [tok [E [Hst [Hget Htr]]]]];
        [repeat split | rewrite E]
  end.
  unfold axios_settle. cbn [acceptAnyStatus auth_request orb].
  replace ((200 <=? status a)%Z && (status a <? 300)%Z) with true
    by (symmetry; apply andb_true_iff; split;
        [apply Z.leb_le | apply Z.ltb_lt]; lia).
  simpl. rewrite Hget. simpl. rewrite Htr. simpl.
  destruct (submission_serializable vaultId (messageBytes tx) chain
              (member_options options k)) as [text Hrb].
  rewrite Hrb. simpl.
  intros m2.
  match goal with
  | |- context [net w k ?n ?q] =>
      destruct (Hsub n q) as [a2 [E2 [Hst2 Hd2]]];
        [repeat split | rewrite E2]
  end.
  simpl.
  replace ((status a2 <? 200)%Z || (status a2 >=? 300)%Z) with false
    by (symmetry; apply orb_false_iff; split;
        [apply Z.ltb_ge | rewrite Z.geb_leb; apply Z.leb_gt]; lia).
  simpl. rewrite advance_lift. simpl. rewrite Hd2. reflexivity.
Qed.

(** The adapter on a job of the declared shape: it reads the first
    signature only. *)
Lemma extract_signature_job (k : nat) (job : TransactionResponse) :
  extract_signature k (Wire.job_json job)
  = if first_signature_ok job then inr (first_signature_bytes job)
    else inl (validation_error k job).
Proof.
  unfold extract_signature, first_signature_ok, first_signature_bytes,
    validation_error, Wire.job_json.
  destruct job as [i ct mt st v ty ch th sigs]. cbn [signatures transaction_hash].
  destruct th as [h |], sigs as [[| e l] |]; cbn;
    try reflexivity;
    destruct (Nat.eqb (List.length (Base64.decode (signature e))) 64);
    reflexivity.
Qed.

Lemma map_from_nth {A B : Type} (f : nat -> A -> B) (l : list A) :
  forall (i k : nat) (x : A),
    nth_error l k = Some x ->
    nth_error (map_from f i l) k = Some (f (i + k) x).
Proof.
  induction l as [| a l IH]; intros i [| k] x H; simpl in *; try discriminate.
  - inversion H. rewrite Nat.add_0_r. reflexivity.
  - rewrite Nat.add_succ_r. apply (IH (S i) k x H).
Qed.

Lemma map_from_nth_inv {A B : Type} (f : nat -> A -> B) (l : list A) :
  forall (i k : nat) (y : B),
    nth_error (map_from f i l) k = Some y ->
    exists x, nth_error l k = Some x /\ y = f (i + k) x.
Proof.
  induction l as [| a l IH]; intros i [| k] y H; simpl in *; try discriminate.
  - inversion H. exists a. rewrite Nat.add_0_r. auto.
  - rewrite Nat.add_succ_r. apply (IH (S i) k y H).
Qed.

(** During the launch of a batch no member stores a token. *)
Lemma batch_launch_keeps_token (w : World) (cfg : FordefiConfig)
  (vaultId chain : string) (options : Options) (txs : list Transaction) :
  forall j u m,
    nth_error (signaturePromises cfg vaultId chain options txs) j = Some u ->
    Js.truthy (accessToken m) = false ->
    Js.truthy (accessToken (snd (advance w (0 + j) u m))) = false.
Proof.
  intros j u m Hu Hm. unfold signaturePromises in Hu.
  destruct (map_from_nth_inv _ _ _ _ _ Hu) as [tx [_ Eu]]. subst u.
  destruct (member_launch w (0 + j) cfg vaultId chain options tx m Hm)
    as [rest E].
  rewrite E. exact Hm.
Qed.

(** A served member of a batch settles with what the adapter makes of its
    job, once its two requests have completed. *)
Lemma batch_member_settles (w : World) (order : list nat)
  (cfg : FordefiConfig) (vaultId chain : string) (options : Options)
  (txs : list Transaction) (j : nat) (tx : Transaction) (r : jsval) :
  nth_error txs j = Some tx ->
  served w cfg j r ->
  2 <= count_occ Nat.eq_dec order j ->
  nth_error (tasks (batch w order cfg vaultId chain options txs)) j
  = Some (Settled (extract_signature j r)).
Proof.
  intros Htx Hserved Horder. unfold batch, launch.
  destruct (launch_from_nth w (fun m => Js.truthy (accessToken m) = false)
              (signaturePromises cfg vaultId chain options txs)
              0 fresh None j (sign_member cfg vaultId chain options j tx)
              eq_refl
              (batch_launch_keeps_token w cfg vaultId chain options txs)
              (map_from_nth _ _ 0 j tx Htx))
    as [mk [Hmk Hn]].
  eapply run_due; [exact Hn | | exact Horder].
  apply member_due; assumption.
Qed.

(** A batch whose members are all served, once every request has completed:
    it is fulfilled with the first signatures, in the order of the
    transactions, when each of them decodes to 64 bytes, and it is rejected
    with the validation error of one of the members otherwise. *)
Lemma batch_of_served_members (w : World) (order : list nat)
  (cfg : FordefiConfig) (vaultId chain : string) (options : Options)
  (txs : list Transaction) (jobs : list TransactionResponse) :
  List.length jobs = List.length txs ->
  (forall k job, nth_error jobs k = Some job ->
                 served w cfg k (Wire.job_json job)) ->
  (forall k, k < List.length txs -> 2 <= count_occ Nat.eq_dec order k) ->
  (forallb first_signature_ok jobs = true ->
   signAndSendTransactions w order cfg vaultId chain options txs
   = Some (inr (map first_signature_bytes jobs)))
  /\ (forallb first_signature_ok jobs = false ->
      exists k job,
        nth_error jobs k = Some job
        /\ first_signature_ok job = false
        /\ signAndSendTransactions w order cfg vaultId chain options txs
           = Some (inl (validation_error k job))).
Proof.
  intros Hlen Hserved Horder.
  set (p := batch w order cfg vaultId chain options txs).
  assert (Htask : forall k job,
             nth_error jobs k = Some job ->
             nth_error (tasks p) k
             = Some (Settled (if first_signature_ok job
                              then inr (first_signature_bytes job)
                              else inl (validation_error k job)))).
  { intros k job Hk.
    assert (Hlt : k < List.length txs).
    { rewrite <- Hlen. apply nth_error_Some. congruence. }
    destruct (nth_error txs k) as [tx |] eqn:Htx;
      [| apply nth_error_None in Htx; lia].
    rewrite <- extract_signature_job.
    apply (batch_member_settles w order cfg vaultId chain options txs k tx);
      auto. }
  assert (Hsize : List.length (tasks p) = List.length jobs).
  { unfold p, batch, launch. rewrite run_length, launch_from_length.
    unfold signaturePromises. rewrite Hlen. clear.
    generalize 0. induction txs as [| tx txs IH]; intros i; simpl; auto. }
  destruct (run_rejection w order
              (launch w (signaturePromises cfg vaultId chain options txs) fresh)
              (launch_rejection w _ fresh)) as [Hsound Hcomplete].
  fold (batch w order cfg vaultId chain options txs) in Hsound, Hcomplete.
  fold p in Hsound, Hcomplete.
  unfold signAndSendTransactions, Promise_all. fold p.
  split; intros Hall.
  - destruct (rejection p) as [e |] eqn:Hr.
    + destruct (Hsound e Hr) as [k Hk].
      assert (Hlt : k < List.length jobs).
      { rewrite <- Hsize. apply nth_error_Some. congruence. }
      destruct (nth_error jobs k) as [job |] eqn:Hjob;
        [| apply nth_error_None in Hjob; lia].
      rewrite (Htask k job Hjob) in Hk.
      rewrite forallb_forall in Hall.
      rewrite (Hall job (nth_error_In _ _ Hjob)) in Hk. discriminate.
    + rewrite (values_all (tasks p) (map first_signature_bytes jobs));
        [reflexivity | rewrite length_map; exact Hsize |].
      intros k v Hk. rewrite nth_error_map in Hk.
      destruct (nth_error jobs k) as [job |] eqn:Hjob; [| discriminate].
      inversion Hk; subst v. rewrite (Htask k job Hjob).
      rewrite forallb_forall in Hall.
      rewrite (Hall job (nth_error_In _ _ Hjob)). reflexivity.
  - assert (Hbad : exists k job, nth_error jobs k = Some job
                                 /\ first_signature_ok job = false).
    { clear - Hall. induction jobs as [| job jobs IH]; [discriminate |].
      simpl in Hall. apply andb_false_iff in Hall.
      destruct Hall as [H | H].
      - exists 0, job. auto.
      - destruct (IH H) as [k [j [Hk Hj]]]. exists (S k), j. auto. }
    destruct Hbad as [k0 [job0 [Hk0 Hj0]]].
    pose proof (Htask k0 job0 Hk0) as Ht0. rewrite Hj0 in Ht0.
    destruct (rejection p) as [e |] eqn:Hr;
      [| exfalso; exact (Hcomplete k0 _ Ht0 Hr)].
    destruct (Hsound e Hr) as [k Hk].
    assert (Hlt : k < List.length jobs).
    { rewrite <- Hsize. apply nth_error_Some. congruence. }
    destruct (nth_error jobs k) as [job |] eqn:Hjob;
      [| apply nth_error_None in Hjob; lia].
    rewrite (Htask k job Hjob) in Hk.
    destruct (first_signature_ok job) eqn:Hok; [discriminate |].
    inversion Hk; subst e. exists k, job. auto.
Qed.

(** *** The requests of a member *)

Lemma authenticate_requests (ok : HttpRequest -> Prop) (cfg : FordefiConfig) :
  (forall ts,
      ok (auth_request cfg
            (Sha256.createHmac_sha256_hex (apiSecret cfg)
               (Text.show ts ++ auth_body cfg)) ts)) ->
  all_requests ok (authenticate cfg).
Proof.
  intros Hok. unfold authenticate. simpl. intros cached.
  destruct (Js.truthy cached); simpl; auto.
  intros z. split.
  - apply Hok.
  - intros o. apply all_requests_try_catch.
    + apply all_requests_bind; [apply all_requests_lift |].
      intros a. apply all_requests_bind; [apply all_requests_lift |].
      intros tok. simpl. intros stored.
      destruct (negb (Js.truthy stored)); simpl; auto.
    + intros e. simpl. auto.
Qed.

Lemma request_requests (ok : HttpRequest -> Prop) (cfg : FordefiConfig)
  (meth : Method) (path : string) (body : jsval) :
  (forall ts,
      ok (auth_request cfg
            (Sha256.createHmac_sha256_hex (apiSecret cfg)
               (Text.show ts ++ auth_body cfg)) ts)) ->
  (forall tok rb ts,
      request_body body = inr rb ->
      ok (match meth with
          | GET => get_request (api_baseURL cfg ++ path) tok
          | POST =>
              post_request (api_baseURL cfg ++ path) tok rb
                (Sha256.createHmac_sha256_hex (apiSecret cfg)
                   (Text.show ts ++ signed_text rb)) ts
          end)) ->
  all_requests ok (request cfg meth path body).
Proof.
  intros Hauth Hcall. unfold request.
  apply all_requests_bind; [apply authenticate_requests; exact Hauth |].
  intros tok.
  destruct (request_body body) as [e | rb] eqn:Hrb; simpl; auto.
  assert (Hrest : forall (req : HttpRequest) (o : NetOutcome),
             all_requests ok
               (try_catch
                  (bind (lift (axios_settle req o))
                     (fun response : AxiosResponse =>
                      if (status response <? 200)%Z || (status response >=? 300)%Z
                      then Throw (Error (http_error_message response))
                      else Return (data response)))
                  request_handler)).
  { intros req o. apply all_requests_try_catch.
    - apply all_requests_bind; [apply all_requests_lift |].
      intros a. destruct ((status a <? 200)%Z || (status a >=? 300)%Z);
        simpl; auto.
    - intros e. unfold request_handler.
      destruct (error_response e); simpl; auto. }
  destruct meth; simpl.
  - split; [exact (Hcall tok rb 0%Z eq_refl) | intros o; apply Hrest].
  - intros z. split; [exact (Hcall tok rb z eq_refl) | intros o; apply Hrest].
Qed.

Lemma sign_member_requests (cfg : FordefiConfig) (vaultId chain : string)
  (options : Options) (txs : list Transaction) (k : nat) (tx : Transaction) :
  nth_error txs k = Some tx ->
  all_requests (member_request cfg vaultId chain options txs k)
    (sign_member cfg vaultId chain options k tx).
Proof.
  intros Htx. unfold sign_member, createAndWaitTransaction.
  apply all_requests_bind; [| intros a; apply all_requests_lift].
  apply all_requests_try_catch; [| intros e; simpl; auto].
  apply all_requests_bind; [| intros a; simpl; auto].
  apply request_requests.
  - intros ts. left. repeat split.
  - intros tok rb ts Hrb. right.
    destruct (submission_serializable vaultId (messageBytes tx) chain
                (member_options options k)) as [text Htext].
    rewrite Htext in Hrb. inversion Hrb; subst rb.
    exists tx, text. split; [exact Htx |]. split; [repeat split |].
    split; [| reflexivity].
    unfold request_body in Htext. cbn [Js.truthy submission] in Htext.
    unfold member_submission.
    destruct (Js.JSON_stringify
                (submission vaultId (messageBytes tx) chain
                   (member_options options k))); congruence.
Qed.

(** Every request a batch has sent for its member [k] is an authentication
    call or the submission of the payload of that member. *)
Lemma batch_traced (w : World) (order : list nat) (cfg : FordefiConfig)
  (vaultId chain : string) (options : Options) (txs : list Transaction) :
  traced (member_request cfg vaultId chain options txs)
    (batch w order cfg vaultId chain options txs).
Proof.
  unfold batch. apply run_traced. apply launch_traced.
  intros k t Hk. unfold signaturePromises in Hk.
  destruct (map_from_nth_inv _ _ _ _ _ Hk) as [tx [Htx Et]]. subst t.
  apply sign_member_requests. exact Htx.
Qed.

(** [JSON.stringify] leaves out the members that are [undefined]. *)
Lemma members_written (fields : list (string * jsval)) :
  Js.members Js.JSON_stringify fields
  = Js.members Js.JSON_stringify (Js.written fields).
Proof.
  induction fields as [| [k x] l IH]; [reflexivity |].
  unfold Js.written in *. cbn [filter snd].
  destruct x; cbn [Js.members]; try (rewrite IH; reflexivity).
  cbn [Js.JSON_stringify]. rewrite <- IH.
  destruct (Js.members Js.JSON_stringify l); reflexivity.
Qed.

Lemma JSON_stringify_written (fields : list (string * jsval)) :
  Js.JSON_stringify (JObj fields) = Js.JSON_stringify (JObj (Js.written fields)).
Proof.
  cbn [Js.JSON_stringify]. rewrite members_written. reflexivity.
Qed.

(** The key the adapter derives is [member_key]. *)
Lemma member_options_key (options : Options) (index : nat) :
  idempotenceId (member_options options index) = member_key options index.
Proof.
  unfold member_options, member_key. cbn [idempotenceId].
  destruct (idempotenceId options) as [base |]; auto.
  cbn [Js.truthy]. destruct (String.eqb base EmptyString); reflexivity.
Qed.

(** The payload carries the key of its options as [idempotence_id], and no
    such member when there is no key. *)
Lemma submission_idempotence_id (vaultId : string) (transaction : list byte)
  (chain : string) (options : Options) :
  JsRead.get (submission vaultId transaction chain options) "idempotence_id"
  = inr (match idempotenceId options with
         | Some key => JStr key
         | None => JUndefined
         end).
Proof.
  unfold submission. cbn. destruct (idempotenceId options); reflexivity.
Qed.

Lemma submission_carries (vaultId : string) (transaction : list byte)
  (chain : string) (options : Options) :
  carries (submission vaultId transaction chain options)
    (idempotenceId options).
Proof.
  unfold carries, submission, Js.written.
  destruct options as [n key sm pm t]. cbn [idempotenceId note signMode pushMode timeout].
  destruct key as [key |]; cbn [optional filter snd app].
  - right. right. right. right. left. reflexivity.
  - destruct n, sm, pm, t as [t |]; cbn;
      try destruct (Z.eqb t 0); cbn; intuition discriminate.
Qed.

End MemberFacts.

Import PoolFacts MemberFacts Signer.

(** ** Validation of the returned signatures *)

(** C1, as the code has it.  Take a member of a batch whose submission is
    answered with a job, once its requests have completed.  If the job has no
    [signatures] member, or an empty list, or a first signature that does not
    decode to exactly 64 bytes, the member fails with the validation error
    and the call of the whole batch is rejected, with the rejection of the
    member that failed first.  If the first signature decodes to 64 bytes
    the member yields those bytes, however many signatures the job
    returns. *)
Theorem batch_validates_first_signature (w : World) (order : list nat)
  (cfg : FordefiConfig) (vaultId chain : string) (options : Options)
  (txs : list Transaction) (j : nat) (tx : Transaction)
  (job : TransactionResponse) :
  nth_error txs j = Some tx ->
  served w cfg j (Wire.job_json job) ->
  2 <= count_occ Nat.eq_dec order j ->
  let p := batch w order cfg vaultId chain options txs in
  ((signatures job = None
    \/ signatures job = Some []
    \/ (exists e l, signatures job = Some (e :: l)
                    /\ List.length (Base64.decode (signature e)) <> 64)) ->
   nth_error (tasks p) j = Some (Settled (inl (validation_error j job)))
   /\ exists e k,
        signAndSendTransactions w order cfg vaultId chain options txs
        = Some (inl e)
        /\ nth_error (tasks p) k = Some (Settled (inl e)))
  /\ (forall e l,
        signatures job = Some (e :: l) ->
        List.length (Base64.decode (signature e)) = 64 ->
        nth_error (tasks p) j
        = Some (Settled (inr (Base64.decode (signature e))))).
Proof.
  intros Htx Hserved Horder p.
  pose proof (batch_member_settles w order cfg vaultId chain options txs j tx
                (Wire.job_json job) Htx Hserved Horder) as Hj.
  rewrite extract_signature_job in Hj. fold p in Hj.
  split.
  - intros Hbad.
    assert (Hok : first_signature_ok job = false).
    { unfold first_signature_ok.
      destruct Hbad as [E | [E | [e [l [E Hlen]]]]]; rewrite E; auto.
      apply Nat.eqb_neq. exact Hlen. }
    rewrite Hok in Hj. split; [exact Hj |].
    destruct (Promise_all_rejection w order
                (signaturePromises cfg vaultId chain options txs) fresh)
      as [Hsound Hcomplete].
    destruct (Hcomplete j _ Hj) as [e He].
    exists e. destruct (Hsound e He) as [k Hk]. exists k. split; assumption.
  - intros e l E Hlen.
    unfold first_signature_ok, first_signature_bytes in Hj. rewrite E in Hj.
    apply Nat.eqb_eq in Hlen. rewrite Hlen in Hj. exact Hj.
Qed.

Lemma batch_validates_first_signature_witness :
  let w := Samples.world_of Samples.token_reply
             (Samples.job_reply
                (Samples.job_with Completed (Some [Samples.short_signature]))) in
  served w Samples.cfg0 0
    (Wire.job_json (Samples.job_with Completed (Some [Samples.short_signature])))
  /\ nth_error
       (tasks (batch w [0; 0] Samples.cfg0 "vault" "solana_mainnet"
                 Samples.no_options [ {| messageBytes := [x01; x02] |} ])) 0
     = Some (Settled
               (inl (Error "Invalid signature length: 63, expected 64 bytes"))).
Proof.
  cbv zeta.
  assert (Hs : served
                 (Samples.world_of Samples.token_reply
                    (Samples.job_reply
                       (Samples.job_with Completed
                          (Some [Samples.short_signature]))))
                 Samples.cfg0 0
                 (Wire.job_json
                    (Samples.job_with Completed
                       (Some [Samples.short_signature])))).
  { split.
    - intros n req [_ [Hb _]]. unfold Samples.world_of. cbn [net].
      rewrite Hb. exists {| status := 200;
                            data := JObj [("accessToken", JStr "tok")] |},
                    (JStr "tok").
      repeat split; simpl; lia.
    - intros n req [_ [Hb _]]. unfold Samples.world_of. cbn [net].
      rewrite Hb. eexists. split; [reflexivity |]. split; [simpl; lia |].
      reflexivity. }
  split; [exact Hs |].
  refine (proj1 (proj1 (batch_validates_first_signature _ [0; 0] Samples.cfg0
                          "vault" "solana_mainnet" Samples.no_options
                          [ {| messageBytes := [x01; x02] |} ] 0 _ _
                          eq_refl Hs _) _)).
  - simpl. lia.
  - right. right. exists Samples.short_signature, []. split; [reflexivity |].
    vm_compute. discriminate.
Defined.

(** C1 as stated fails: a job that returns two signatures, a count other
    than one, is accepted, and the batch is fulfilled with the first. *)
Lemma two_signatures_are_accepted :
  let job :=
    Samples.job_with Completed
      (Some [Samples.signature_of_ones; Samples.short_signature]) in
  let w := Samples.world_of Samples.token_reply (Samples.job_reply job) in
  option_map (@List.length SignatureEntry) (signatures job) = Some 2
  /\ signAndSendTransactions w [0; 0] Samples.cfg0 "vault" "solana_mainnet"
       Samples.no_options [ {| messageBytes := [x01; x02] |} ]
     = Some (inr [repeat x01 64]).
Proof. vm_compute. split; reflexivity. Qed.

(** [Promise.all] keeps the first rejection: when the submission of a sibling
    fails before the short signature of member 0 is seen, the batch is
    rejected with the error of the sibling; in the other order, with the
    validation error. *)
Example first_rejection_wins :
  let txs := [ {| messageBytes := [x01; x02] |}; {| messageBytes := [x03] |} ] in
  let call order :=
    signAndSendTransactions Samples.world_of_two_failures order Samples.cfg0
      "vault" "solana_mainnet" Samples.no_options txs in
  call [0; 1; 1; 0]
  = Some (inl (Error ("Network error occurred: HTTP error occurred: status = 500"
                      ++ Text.nl ++ "Error details: " ++ Js.quote "oops")))
  /\ call [0; 1; 0; 1]
     = Some (inl (Error "Invalid signature length: 63, expected 64 bytes"))
  /\ call [0; 1] = None.
Proof. vm_compute. repeat split. Qed.

(** ** Idempotence keys *)

(** C2, as the code has it.  Every submission a batch sends for the member
    at index [k] is the payload of that member, and the payload carries the
    idempotence id [base-k] when the options supply a non-empty base key
    [base]; when they supply none, or the empty string, it carries no
    idempotence id at all. *)
Theorem batch_members_carry_indexed_keys (w : World) (order : list nat)
  (cfg : FordefiConfig) (vaultId chain : string) (options : Options)
  (txs : list Transaction) (k : nat) (req : HttpRequest) :
  In (k, req) (sent (machine (batch w order cfg vaultId chain options txs))) ->
  baseURL req = None ->
  exists tx text,
    nth_error txs k = Some tx
    /\ is_submission cfg req
    /\ body req = Some text
    /\ Js.JSON_stringify (member_submission vaultId chain options k tx)
       = Js.Text text
    /\ carries (member_submission vaultId chain options k tx)
         (match idempotenceId options with
          | Some base =>
              if String.eqb base EmptyString then None
              else Some (base ++ "-" ++ Text.show_nat k)
          | None => None
          end).
Proof.
  intros Hin Hbase.
  destruct (batch_traced w order cfg vaultId chain options txs) as [Hsent _].
  destruct (Hsent k req Hin) as [[_ [Hb _]] | [tx [text [Htx [Hsub [Ht Hbody]]]]]].
  - rewrite Hb in Hbase. discriminate.
  - exists tx, text. repeat (split; [assumption |]).
    fold (member_key options k). rewrite <- member_options_key.
    apply submission_carries.
Qed.

Lemma batch_members_carry_indexed_keys_witness :
  let w := Samples.world_of Samples.token_reply
             (Samples.job_reply
                (Samples.job_with Completed (Some [Samples.signature_of_ones]))) in
  let txs := [ {| messageBytes := [x01; x02] |}; {| messageBytes := [x03] |} ] in
  let p := batch w [0; 1] Samples.cfg0 "vault" "solana_mainnet"
             (Samples.with_key "base") txs in
  let req := snd (nth 3 (sent (machine p)) (0, auth_call w Samples.cfg0 fresh)) in
  In (1, req) (sent (machine p))
  /\ baseURL req = None
  /\ carries
       (member_submission "vault" "solana_mainnet" (Samples.with_key "base") 1
          {| messageBytes := [x03] |})
       (Some "base-1").
Proof.
  cbv zeta.
  assert (Hin : In (1, snd (nth 3
                       (sent (machine
                          (batch (Samples.world_of Samples.token_reply
                                    (Samples.job_reply
                                       (Samples.job_with Completed
                                          (Some [Samples.signature_of_ones]))))
                             [0; 1] Samples.cfg0 "vault" "solana_mainnet"
                             (Samples.with_key "base")
                             [ {| messageBytes := [x01; x02] |};
                               {| messageBytes := [x03] |} ])))
                       (0, auth_call
                             (Samples.world_of Samples.token_reply
                                (Samples.job_reply
                                   (Samples.job_with Completed
                                      (Some [Samples.signature_of_ones]))))
                             Samples.cfg0 fresh)))
                 (sent (machine
                    (batch (Samples.world_of Samples.token_reply
                              (Samples.job_reply
                                 (Samples.job_with Completed
                                    (Some [Samples.signature_of_ones]))))
                       [0; 1] Samples.cfg0 "vault" "solana_mainnet"
                       (Samples.with_key "base")
                       [ {| messageBytes := [x01; x02] |};
                         {| messageBytes := [x03] |} ])))).
  { vm_compute. right. right. right. left. reflexivity. }
  split; [exact Hin |]. split; [vm_compute; reflexivity |].
  destruct (batch_members_carry_indexed_keys _ _ _ _ _ _ _ _ _ Hin)
    as [tx [text [Htx [_ [_ [_ Hc]]]]]].
  - vm_compute. reflexivity.
  - cbn in Htx. inversion Htx; subst tx. exact Hc.
Defined.

(** The example of the specification: two transactions under the base key
    ["base"] are submitted with the ids [base-0] and [base-1]; without a
    base key the payload has no [idempotence_id] member. *)
Example batch_of_two_keys :
  let w := Samples.world_of Samples.token_reply
             (Samples.job_reply
                (Samples.job_with Completed (Some [Samples.signature_of_ones]))) in
  let txs := [ {| messageBytes := [x01; x02] |}; {| messageBytes := [x03] |} ] in
  let bodies options :=
    map (fun e => body (snd e))
      (filter (fun e => match baseURL (snd e) with None => true | _ => false end)
         (sent (machine (batch w [0; 1] Samples.cfg0 "vault" "solana_mainnet"
                           options txs)))) in
  let member tx key :=
    "{" ++ Js.quote "type" ++ ":" ++ Js.quote "solana_transaction"
    ++ "," ++ Js.quote "vault_id" ++ ":" ++ Js.quote "vault"
    ++ "," ++ Js.quote "transaction" ++ ":" ++ Js.quote tx
    ++ "," ++ Js.quote "chain" ++ ":" ++ Js.quote "solana_mainnet"
    ++ key ++ "}" in
  let id key := "," ++ Js.quote "idempotence_id" ++ ":" ++ Js.quote key in
  bodies (Samples.with_key "base")
  = [ Some (member "AQI=" (id "base-0")); Some (member "Aw==" (id "base-1")) ]
  /\ bodies Samples.no_options
     = [ Some (member "AQI=" EmptyString); Some (member "Aw==" EmptyString) ].
Proof. vm_compute. split; reflexivity. Qed.

(** C2 as stated fails for the empty base key: it is supplied, and the
    member at index 0 is submitted without any idempotence id, not with
    [-0]. *)
Lemma empty_base_key_is_dropped :
  idempotenceId (Samples.with_key EmptyString) = Some EmptyString
  /\ idempotenceId (member_options (Samples.with_key EmptyString) 0) = None
  /\ idempotenceId (member_options (Samples.with_key EmptyString) 0)
     <> Some (EmptyString ++ "-" ++ Text.show_nat 0)
  /\ carries
       (member_submission "vault" "solana_mainnet"
          (Samples.with_key EmptyString) 0 {| messageBytes := [x01; x02] |})
       None.
Proof.
  repeat split; try discriminate.
  vm_compute. intuition discriminate.
Qed.

(* ------------------------------------------------------------------------- *)
(** ** Concurrent first callers *)

Module ConcurrencyFacts.
Import Runtime RuntimeFacts Client Spec AuthFacts PoolFacts.
Open Scope list_scope.

(** Without a cached token, [authenticate] sends its call and waits. *)
Lemma authenticate_launch (w : World) (k : nat) (cfg : FordefiConfig)
  (m : Machine) :
  Js.truthy (accessToken m) = false ->
  exists rest,
    advance w k (authenticate cfg) m
    = (Waiting rest, after_auth_call w k cfg m).
Proof.
  intros H. unfold authenticate. simpl. rewrite H. simpl.
  eexists. reflexivity.
Qed.

(** A caller whose authentication call is granted the token [tok] returns
    [tok] once that call has completed, whatever the other callers have
    stored in the meantime. *)
Lemma authenticate_due (w : World) (k : nat) (cfg : FordefiConfig)
  (m : Machine) (a : AxiosResponse) (tok : jsval) :
  Js.truthy (accessToken m) = false ->
  (forall n req, is_auth cfg req -> net w k n req = Answered a) ->
  (200 <= status a < 300)%Z ->
  JsRead.get (data a) "accessToken" = inr tok ->
  Js.truthy tok = true ->
  due w k (inr tok) 1 (fst (advance w k (authenticate cfg) m)).
Proof.
  intros H Hnet Hst Hget Htok. unfold authenticate. simpl. rewrite H. simpl.
  intros m1.
  rewrite Hnet by (repeat split).
  unfold axios_settle. cbn [acceptAnyStatus auth_request orb].
  replace ((200 <=? status a)%Z && (status a <? 300)%Z) with true
    by (symmetry; apply andb_true_iff; split;
        [apply Z.leb_le | apply Z.ltb_lt]; lia).
  simpl. rewrite Hget. simpl. rewrite Htok. reflexivity.
Qed.

(** A call of [authenticate] that ends by throwing has stored nothing
    truthy: the field is as the call found it when it resumed, or falsy. *)
Lemma failed_attempt_stores_nothing_truthy (w : World) (k : nat)
  (cfg : FordefiConfig) (m m1 m2 m3 : Machine) (rest : Async jsval)
  (e : JsError) :
  advance w k (authenticate cfg) m = (Waiting rest, m1) ->
  advance w k rest m2 = (Settled (inl e), m3) ->
  accessToken m3 = accessToken m2 \/ Js.truthy (accessToken m3) = false.
Proof.
  unfold authenticate. simpl.
  destruct (Js.truthy (accessToken m)); simpl; [discriminate |].
  intros E. inversion E; subst rest m1. clear E.
  match goal with
  | |- context [axios_settle ?q ?o] => destruct (axios_settle q o) as [x | a]
  end; simpl.
  - intros E. inversion E. left. reflexivity.
  - destruct (JsRead.get (data a) "accessToken") as [x | tok]; simpl.
    + intros E. inversion E. left. reflexivity.
    + destruct (Js.truthy tok) eqn:Ht; simpl; intros E; inversion E.
      right. simpl. exact Ht.
Qed.

(** Launching [n] callers on a client without a token sends [n]
    authentication calls, one for each caller, and stores nothing. *)
Lemma launch_from_authenticate (w : World) (cfg : FordefiConfig) (n : nat) :
  forall (i : nat) (m : Machine) (r : option JsError),
    Js.truthy (accessToken m) = false ->
    exists l,
      sent (machine (launch_from w i (repeat (authenticate cfg) n) m r))
      = sent m ++ l
      /\ map fst l = seq i n
      /\ Forall (fun e => is_auth cfg (snd e)) l.
Proof.
  induction n as [| n IH]; intros i m r H.
  - exists []. simpl. rewrite app_nil_r. auto.
  - cbn [repeat launch_from].
    destruct (authenticate_launch w i cfg m H) as [rest E]. rewrite E.
    destruct (IH (S i) (after_auth_call w i cfg m) (note_rejection (Waiting rest) r) H)
      as [l [Hs [Hf Ha]]].
    exists ((i, auth_call w cfg m) :: l). simpl. rewrite Hs. simpl.
    rewrite <- app_assoc. simpl. split; [reflexivity |].
    split; [congruence |].
    constructor; [repeat split | exact Ha].
Qed.

Lemma repeat_nth {A : Type} (x : A) (n k : nat) :
  k < n -> nth_error (repeat x n) k = Some x.
Proof.
  revert k. induction n as [| n IH]; intros [| k] H; simpl; try lia; auto.
  apply IH. lia.
Qed.

Lemma repeat_nth_inv {A : Type} (x y : A) (n k : nat) :
  nth_error (repeat x n) k = Some y -> y = x.
Proof.
  revert k. induction n as [| n IH]; intros [| k] H; simpl in *;
    try discriminate; [congruence | eauto].
Qed.

End ConcurrencyFacts.

Import ConcurrencyFacts.

(** C9, as the code has it.  The client has no mechanism that joins callers:
    [n] callers that start before a token is cached send [n] authentication
    calls, one each; a caller whose own call is granted a token returns that
    token once its call has completed; and only a caller that starts on a
    client that holds a token gets it at once, without a call. *)
Theorem concurrent_callers_authenticate_separately (w : World)
  (cfg : FordefiConfig) (n : nat) (m : Machine) :
  Js.truthy (accessToken m) = false ->
  let p := launch w (repeat (authenticate cfg) n) m in
  (exists l,
      sent (machine p) = (sent m ++ l)%list
      /\ map fst l = seq 0 n
      /\ Forall (fun e => is_auth cfg (snd e)) l)
  /\ (forall order k a tok,
        k < n ->
        (forall j req, is_auth cfg req -> net w k j req = Answered a) ->
        (200 <= status a < 300)%Z ->
        JsRead.get (data a) "accessToken" = inr tok ->
        Js.truthy tok = true ->
        1 <= count_occ Nat.eq_dec order k ->
        nth_error (tasks (run w order p)) k = Some (Settled (inr tok)))
  /\ (forall k m' tok,
        holds_token m' tok ->
        advance w k (authenticate cfg) m' = (Settled (inr tok), m')).
Proof.
  intros H p. split; [| split].
  - apply launch_from_authenticate. exact H.
  - intros order k a tok Hk Hnet Hst Hget Htok Horder.
    destruct (launch_from_nth w (fun m => Js.truthy (accessToken m) = false)
                (repeat (authenticate cfg) n) 0 m None k (authenticate cfg) H)
      as [mk [Hmk Hn]].
    + intros j u m' Hu Hm'. apply repeat_nth_inv in Hu. subst u.
      destruct (authenticate_launch w (0 + j) cfg m' Hm') as [rest E].
      rewrite E. exact Hm'.
    + apply repeat_nth. exact Hk.
    + eapply run_due; [exact Hn | | exact Horder].
      eapply authenticate_due; eauto.
  - intros k m' tok [Et Ht]. subst tok. apply authenticate_hit_at_once.
    exact Ht.
Qed.

Lemma concurrent_callers_authenticate_separately_witness :
  Js.truthy (accessToken fresh) = false
  /\ exists l,
       sent (machine (launch Samples.world_per_task
                        (repeat (authenticate Samples.cfg0) 3) fresh))
       = l
       /\ map fst l = [0; 1; 2].
Proof.
  split; [reflexivity |].
  destruct (proj1 (concurrent_callers_authenticate_separately
                     Samples.world_per_task Samples.cfg0 3 fresh eq_refl))
    as [l [Hs [Hf _]]].
  exists l. split; [exact Hs | exact Hf].
Defined.

(** C9 as stated fails: the two members of a batch, started on the fresh
    client of the batch, send two authentication calls, and each goes on
    with the token of its own call. *)
Lemma two_members_authenticate_twice :
  let txs := [ {| messageBytes := [x01; x02] |}; {| messageBytes := [x03] |} ] in
  let started :=
    launch Samples.world_per_task
      (Signer.signaturePromises Samples.cfg0 "vault" "solana_mainnet"
         Samples.no_options txs) fresh in
  let finished :=
    Signer.batch Samples.world_per_task [0; 1; 0; 1] Samples.cfg0 "vault"
      "solana_mainnet" Samples.no_options txs in
  map (fun e => (fst e, method (snd e), url (snd e))) (sent (machine started))
  = [ (0, POST, "/auth"); (1, POST, "/auth") ]
  /\ map (fun e => (fst e, nth 0 (headers (snd e)) (EmptyString, EmptyString)))
       (filter (fun e => match baseURL (snd e) with None => true | _ => false end)
          (sent (machine finished)))
     = [ (0, ("Authorization", "Bearer tok-0"));
         (1, ("Authorization", "Bearer tok-1")) ].
Proof. vm_compute. split; reflexivity. Qed.

(* ------------------------------------------------------------------------- *)
(** ** Propagation of errors *)

Module PropagationFacts.
Import Runtime RuntimeFacts Client Spec AuthFacts RequestFacts Signer.
Open Scope string_scope.

(** A [catch] clause that logs and rethrows changes no result. *)
Lemma exec_rethrow {A : Type} (w : World) (i : nat) (t : Async A)
  (label : string) (m : Machine) :
  fst (exec w i
         (try_catch t (fun error => ConsoleError label error (Throw error))) m)
  = fst (exec w i t m).
Proof.
  rewrite exec_try_catch. destruct (exec w i t m) as [[e | a] m1]; reflexivity.
Qed.

Lemma exec_bind_error {A B : Type} (w : World) (i : nat) (t : Async A)
  (f : A -> Async B) (m : Machine) (e : JsError) :
  fst (exec w i t m) = inl e -> fst (exec w i (bind t f) m) = inl e.
Proof.
  intros H. rewrite exec_bind.
  destruct (exec w i t m) as [[e' | a] m1]; simpl in *;
    [congruence | discriminate].
Qed.

Lemma sign_member_exec (w : World) (i : nat) (cfg : FordefiConfig)
  (vaultId chain : string) (options : Options) (index : nat)
  (tx : Transaction) (m : Machine) :
  fst (exec w i (sign_member cfg vaultId chain options index tx) m)
  = match fst (exec w i
                 (createAndWaitTransaction cfg vaultId (messageBytes tx) chain
                    (member_options options index)) m) with
    | inl e => inl e
    | inr response => extract_signature index response
    end.
Proof.
  unfold sign_member. rewrite exec_bind.
  destruct (exec w i
              (createAndWaitTransaction cfg vaultId (messageBytes tx) chain
                 (member_options options index)) m) as [[e | a] m1];
    cbn [fst]; [reflexivity |].
  rewrite exec_lift. reflexivity.
Qed.

End PropagationFacts.

Import PropagationFacts.

(** C7, as the code has it.  [authenticate] replaces every failure by its one
    error, [Failed to authenticate with Fordefi]; [request] lets that error
    pass as it is and turns a call without response into an error that shows
    the transport message; [createAndWaitTransaction], [signTransaction],
    [getWalletAddress] and [getTransactionStatus] rethrow what [request]
    throws; a member of a batch throws what [createAndWaitTransaction]
    throws, and the batch is rejected with the rejection of one of its
    members. *)
Theorem errors_reach_the_caller (w : World) (i : nat) (cfg : FordefiConfig)
  (vaultId chain : string) (options : Options) (m : Machine) :
  (forall e m',
      exec w i (authenticate cfg) m = (inl e, m') ->
      e = Error "Failed to authenticate with Fordefi")
  /\ (forall meth path body e m',
        exec w i (authenticate cfg) m = (inl e, m') ->
        exec w i (request cfg meth path body) m = (inl e, m'))
  /\ (forall meth path body tok m1 rb msg,
        exec w i (authenticate cfg) m = (inr tok, m1) ->
        request_body body = inr rb ->
        net w i (issued i m1) (request_call w cfg meth path rb tok m1)
        = Dropped msg None ->
        fst (exec w i (request cfg meth path body) m)
        = inl (Error ("Network error occurred: " ++ msg)))
  /\ (forall transaction e,
        fst (exec w i (request cfg POST create_and_wait_path
                         (submission vaultId transaction chain options)) m)
        = inl e ->
        fst (exec w i (createAndWaitTransaction cfg vaultId transaction chain
                         options) m)
        = inl e)
  /\ (forall transaction e,
        fst (exec w i (request cfg POST "/v1/transactions/sign"
                         (JObj [ ("transaction", JStr (Base64.encode transaction));
                                 ("network", JStr "solana") ])) m)
        = inl e ->
        fst (exec w i (signTransaction cfg transaction) m) = inl e)
  /\ (forall e,
        fst (exec w i (request cfg GET "/v1/wallets/solana" JUndefined) m)
        = inl e ->
        fst (exec w i (getWalletAddress cfg) m) = inl e)
  /\ (forall txId e,
        fst (exec w i (request cfg GET ("/v1/transactions/" ++ txId) JUndefined) m)
        = inl e ->
        fst (exec w i (getTransactionStatus cfg txId) m) = inl e)
  /\ (forall index tx e,
        fst (exec w i (createAndWaitTransaction cfg vaultId (messageBytes tx)
                         chain (member_options options index)) m)
        = inl e ->
        fst (exec w i (sign_member cfg vaultId chain options index tx) m)
        = inl e)
  /\ (forall order txs e,
        signAndSendTransactions w order cfg vaultId chain options txs
        = Some (inl e) ->
        exists k,
          nth_error (tasks (batch w order cfg vaultId chain options txs)) k
          = Some (Settled (inl e))).
Proof.
  repeat split.
  - intros e m' H. apply (authenticate_failure w i cfg m m' e H).
  - intros meth path body e m' H.
    apply request_exec_unauthenticated. exact H.
  - intros meth path body tok m1 rb msg Hauth Hrb Hnet.
    eapply request_without_response; eauto.
  - intros transaction e H. rewrite SubmitFacts.createAndWaitTransaction_exec.
    exact H.
  - intros transaction e H. unfold signTransaction. rewrite exec_rethrow.
    apply exec_bind_error. exact H.
  - intros e H. unfold getWalletAddress. rewrite exec_rethrow.
    apply exec_bind_error. exact H.
  - intros txId e H. unfold getTransactionStatus. rewrite exec_rethrow.
    apply exec_bind_error. exact H.
  - intros index tx e H. rewrite sign_member_exec, H. reflexivity.
  - intros order txs e H.
    apply (proj1 (Promise_all_rejection w order
                    (signaturePromises cfg vaultId chain options txs) fresh)).
    exact H.
Qed.

Lemma errors_reach_the_caller_witness :
  let w := Samples.world_of Samples.refused Samples.refused in
  exec w 0 (authenticate Samples.cfg0) fresh
  = (inl (Error "Failed to authenticate with Fordefi"),
     snd (exec w 0 (authenticate Samples.cfg0) fresh))
  /\ fst (exec w 0 (getWalletAddress Samples.cfg0) fresh)
     = inl (Error "Failed to authenticate with Fordefi").
Proof.
  cbv zeta.
  assert (H : exec (Samples.world_of Samples.refused Samples.refused) 0
                (authenticate Samples.cfg0) fresh
              = (inl (Error "Failed to authenticate with Fordefi"),
                 snd (exec (Samples.world_of Samples.refused Samples.refused) 0
                        (authenticate Samples.cfg0) fresh))).
  { vm_compute. reflexivity. }
  split; [exact H |].
  destruct (errors_reach_the_caller
              (Samples.world_of Samples.refused Samples.refused) 0
              Samples.cfg0 "vault" "solana_mainnet" Samples.no_options fresh)
    as [_ [Hreq [_ [_ [_ [Hwallet _]]]]]].
  apply Hwallet.
  rewrite (Hreq GET "/v1/wallets/solana" JUndefined _ _ H). reflexivity.
Defined.

(** C7 as stated fails: a refused connection reaches [authenticate] as the
    error of axios, which goes to the console, and leaves it, and every layer
    above, as the generic [Failed to authenticate with Fordefi]; so does the
    error raised for a response without token. *)
Lemma authenticate_replaces_the_error :
  let refused := Samples.world_of Samples.refused Samples.refused in
  let empty :=
    Samples.world_of (Answered {| status := 200; data := JObj [] |})
      Samples.refused in
  let auth w := exec w 0 (authenticate Samples.cfg0) fresh in
  let submit w :=
    fst (exec w 0
           (createAndWaitTransaction Samples.cfg0 "vault" [x01; x02]
              "solana_mainnet" Samples.no_options) fresh) in
  console (snd (auth refused))
  = [ ("Authentication failed:",
       AxiosError "connect ECONNREFUSED 127.0.0.1:443" None) ]
  /\ fst (auth refused) = inl (Error "Failed to authenticate with Fordefi")
  /\ submit refused = inl (Error "Failed to authenticate with Fordefi")
  /\ console (snd (auth empty))
     = [ ("Authentication failed:",
          Error "No access token received from Fordefi") ]
  /\ fst (auth empty) = inl (Error "Failed to authenticate with Fordefi")
  /\ submit empty = inl (Error "Failed to authenticate with Fordefi").
Proof. vm_compute. repeat split. Qed.

(* ------------------------------------------------------------------------- *)
(** ** Request signatures *)

Module SignatureFacts.
Import Runtime RuntimeFacts Client Spec AuthFacts PoolFacts MemberFacts.
Open Scope string_scope.

(** [createSignature] reads the clock once and returns the HMAC-SHA256, in
    lowercase hexadecimal, of the reading followed by the body. *)
Lemma createSignature_exec (w : World) (i : nat) (cfg : FordefiConfig)
  (body : string) (m : Machine) :
  exec w i (createSignature cfg body) m
  = (inr (Text.hex (Sha256.hmac (Sha256.octets (apiSecret cfg))
                      (Sha256.octets (Text.show (clock w (ticks m)) ++ body))),
          clock w (ticks m)),
     tick m).
Proof. reflexivity. Qed.

(** Two computations on the same secret, clock reading and body yield the
    same signature. *)
Lemma createSignature_deterministic (w w' : World) (i i' : nat)
  (cfg : FordefiConfig) (body : string) (m m' : Machine) :
  clock w (ticks m) = clock w' (ticks m') ->
  fst (exec w i (createSignature cfg body) m)
  = fst (exec w' i' (createSignature cfg body) m').
Proof. intros H. rewrite !createSignature_exec. cbn [fst]. rewrite H. reflexivity. Qed.

Lemma show_injective (z z' : Z) : Text.show z = Text.show z' -> z = z'.
Proof.
  unfold Text.show. intros H.
  assert (Hn : forall x, Z.to_int x <> Decimal.Pos Decimal.Nil
                         /\ Z.to_int x <> Decimal.Neg Decimal.Nil).
  { intros [| p | p]; simpl; split; try discriminate;
      intros E; inversion E as [E'];
      exact (DecimalPos.Unsigned.to_uint_nonnil p E'). }
  apply DecimalZ.to_int_inj.
  destruct (Hn z) as [H1 H2]. destruct (Hn z') as [H1' H2'].
  pose proof (NilZero.isi _ H1 H2) as E. rewrite H in E.
  rewrite (NilZero.isi _ H1' H2') in E. congruence.
Qed.

Lemma append_cancel_l (a b c : string) : a ++ b = a ++ c -> b = c.
Proof. induction a; simpl; intros H; [exact H | inversion H; auto]. Qed.

(** A change of the body changes the text that is signed. *)
Lemma signed_text_depends_on_body (timestamp : Z) (body body' : string) :
  body <> body' ->
  Text.show timestamp ++ body <> Text.show timestamp ++ body'.
Proof. intros H E. apply H. exact (append_cancel_l _ _ _ E). Qed.




End SignatureFacts.

(* ------------------------------------------------------------------------- *)
(** * Further properties of the code *)

(** ** Base64 round trip *)

Module Base64Facts.
Open Scope Z_scope.

Lemma forallb_range (P : nat -> bool) (k : nat) :
  forallb P (seq 0 k) = true -> forall n, (n < k)%nat -> P n = true.
Proof.
  intros H n Hn. rewrite forallb_forall in H. apply H.
  apply in_seq. lia.
Qed.

Lemma forallb_range2 (P : nat -> nat -> bool) (k : nat) :
  forallb (fun n => forallb (P n) (seq 0 k)) (seq 0 k) = true ->
  forall n m, (n < k)%nat -> (m < k)%nat -> P n m = true.
Proof.
  intros H n m Hn Hm.
  apply (forallb_range (P n) k); [| exact Hm].
  apply (forallb_range (fun n => forallb (P n) (seq 0 k)) k H n Hn).
Qed.

(** A byte as a natural number below 256. *)
Lemma byte_as_nat (x : byte) :
  exists n, (n < 256)%nat /\ Base64.Z_of_byte x = Z.of_nat n.
Proof.
  exists (Byte.to_nat x). split.
  - pose proof (Byte.to_nat_bounded x). lia.
  - unfold Base64.Z_of_byte. rewrite Byte.to_N_via_nat.
    rewrite nat_N_Z. reflexivity.
Qed.

Lemma byte_of_Z_of_byte (x : byte) (z : Z) :
  z mod 256 = Base64.Z_of_byte x -> Base64.byte_of_Z z = x.
Proof.
  intros H. unfold Base64.byte_of_Z. rewrite H. unfold Base64.Z_of_byte.
  rewrite N2Z.id, Byte.of_to_N. reflexivity.
Qed.

(** A digit of the alphabet is read back as the value it stands for. *)
Lemma sextets_digit (v : Z) (rest : string) :
  0 <= v < 64 ->
  Base64.sextets (String (Base64.digit v) rest) = (v :: Base64.sextets rest)%list.
Proof.
  intros Hv.
  assert (H : forall n, (n < 64)%nat ->
              (negb (Ascii.eqb (Base64.digit (Z.of_nat n)) "="%char)
               && match Base64.sextet (Base64.digit (Z.of_nat n)) with
                  | Some u => Z.eqb u (Z.of_nat n)
                  | None => false
                  end)%bool = true).
  { apply forallb_range. vm_compute. reflexivity. }
  specialize (H (Z.to_nat v)). rewrite Z2Nat.id in H by lia.
  specialize (H ltac:(lia)).
  apply andb_true_iff in H. destruct H as [H1 H2].
  apply negb_true_iff in H1. cbn [Base64.sextets]. rewrite H1.
  destruct (Base64.sextet (Base64.digit v)) as [u |]; [| discriminate].
  apply Z.eqb_eq in H2. subst u. reflexivity.
Qed.

(** The arithmetic of one group of three bytes, checked on all bytes. *)
Lemma group_arithmetic (a b : Z) :
  (exists n, (n < 256)%nat /\ a = Z.of_nat n) ->
  (exists n, (n < 256)%nat /\ b = Z.of_nat n) ->
  let s1 := Z.shiftr a 2 in
  let s2 := Z.lor (Z.shiftl (Z.land a 3) 4) (Z.shiftr b 4) in
  let s3 := Z.lor (Z.shiftl (Z.land a 15) 2) (Z.shiftr b 6) in
  let s4 := Z.land a 63 in
  (0 <= s1 < 64) /\ (0 <= s2 < 64) /\ (0 <= s3 < 64) /\ (0 <= s4 < 64)
  /\ (0 <= Z.shiftl (Z.land a 3) 4 < 64)
  /\ (0 <= Z.shiftl (Z.land a 15) 2 < 64)
  /\ (Z.lor (Z.shiftl s1 2) (Z.shiftr s2 4)) mod 256 = a
  /\ (Z.lor (Z.shiftl s1 2) (Z.shiftr (Z.shiftl (Z.land a 3) 4) 4)) mod 256 = a
  /\ Z.land s2 15 = Z.shiftr b 4
  /\ Z.shiftr s3 2 = Z.land a 15
  /\ Z.shiftr (Z.shiftl (Z.land a 15) 2) 2 = Z.land a 15
  /\ Z.land s3 3 = Z.shiftr b 6
  /\ (Z.lor (Z.shiftl (Z.shiftr a 4) 4) (Z.land a 15)) mod 256 = a
  /\ (Z.lor (Z.shiftl (Z.shiftr a 6) 6) (Z.land a 63)) mod 256 = a.
Proof.
  intros [n [Hn Ea]] [m [Hm Eb]]. subst a b.
  pose (check := fun n m : nat =>
    let a := Z.of_nat n in
    let b := Z.of_nat m in
    let s1 := Z.shiftr a 2 in
    let s2 := Z.lor (Z.shiftl (Z.land a 3) 4) (Z.shiftr b 4) in
    let s3 := Z.lor (Z.shiftl (Z.land a 15) 2) (Z.shiftr b 6) in
    let s4 := Z.land a 63 in
    let small x := ((0 <=? x) && (x <? 64))%bool in
    (small s1 && small s2 && small s3 && small s4
     && small (Z.shiftl (Z.land a 3) 4)
     && small (Z.shiftl (Z.land a 15) 2)
     && ((Z.lor (Z.shiftl s1 2) (Z.shiftr s2 4)) mod 256 =? a)
     && ((Z.lor (Z.shiftl s1 2) (Z.shiftr (Z.shiftl (Z.land a 3) 4) 4)) mod 256 =? a)
     && (Z.land s2 15 =? Z.shiftr b 4)
     && (Z.shiftr s3 2 =? Z.land a 15)
     && (Z.shiftr (Z.shiftl (Z.land a 15) 2) 2 =? Z.land a 15)
     && (Z.land s3 3 =? Z.shiftr b 6)
     && ((Z.lor (Z.shiftl (Z.shiftr a 4) 4) (Z.land a 15)) mod 256 =? a)
     && ((Z.lor (Z.shiftl (Z.shiftr a 6) 6) (Z.land a 63)) mod 256 =? a))%bool).
  assert (H : check n m = true).
  { apply (forallb_range2 check 256); [vm_compute; reflexivity | exact Hn | exact Hm]. }
  unfold check in H. cbv zeta in H.
  repeat (apply andb_true_iff in H; destruct H as [H ?]).
  repeat match goal with
         | H : (_ =? _) = true |- _ => apply Z.eqb_eq in H
         | H : (_ && _)%bool = true |- _ =>
             apply andb_true_iff in H; destruct H
         | H : (_ <=? _) = true |- _ => apply Z.leb_le in H
         | H : (_ <? _) = true |- _ => apply Z.ltb_lt in H
         end.
  cbv zeta. repeat split; assumption.
Qed.

Lemma roundtrip_bounded (n : nat) :
  forall l : list byte,
    (List.length l <= n)%nat -> Base64.decode (Base64.encode l) = l.
Proof.
  induction n as [| n IH]; intros l Hl.
  - destruct l; [reflexivity | simpl in Hl; lia].
  - destruct l as [| a [| b [| c r]]]; [reflexivity | | |].
    + destruct (group_arithmetic (Base64.Z_of_byte a) (Base64.Z_of_byte a)
                  (byte_as_nat a) (byte_as_nat a))
        as (R1 & _ & _ & _ & R5 & _ & _ & E8 & _ & _ & _ & _ & _ & _).
      unfold Base64.decode. cbn [Base64.encode].
      rewrite !sextets_digit by assumption.
      cbn [Base64.sextets Ascii.eqb Bool.eqb Base64.pack].
      rewrite (byte_of_Z_of_byte a _ E8). reflexivity.
    + destruct (group_arithmetic (Base64.Z_of_byte a) (Base64.Z_of_byte b)
                  (byte_as_nat a) (byte_as_nat b))
        as (R1 & R2 & _ & _ & _ & _ & E7 & _ & E9 & _ & _ & _ & _ & _).
      destruct (group_arithmetic (Base64.Z_of_byte b) (Base64.Z_of_byte b)
                  (byte_as_nat b) (byte_as_nat b))
        as (_ & _ & _ & _ & _ & R6 & _ & _ & _ & _ & E11 & _ & E13 & _).
      unfold Base64.decode. cbn [Base64.encode].
      rewrite !sextets_digit by assumption.
      cbn [Base64.sextets Ascii.eqb Bool.eqb Base64.pack].
      rewrite E9, E11.
      rewrite (byte_of_Z_of_byte a _ E7), (byte_of_Z_of_byte b _ E13).
      reflexivity.
    + destruct (group_arithmetic (Base64.Z_of_byte a) (Base64.Z_of_byte b)
                  (byte_as_nat a) (byte_as_nat b))
        as (R1 & R2 & _ & _ & _ & _ & E7 & _ & E9 & _ & _ & _ & _ & _).
      destruct (group_arithmetic (Base64.Z_of_byte b) (Base64.Z_of_byte c)
                  (byte_as_nat b) (byte_as_nat c))
        as (_ & _ & R3 & _ & _ & _ & _ & _ & _ & E10 & _ & E12 & E13 & _).
      destruct (group_arithmetic (Base64.Z_of_byte c) (Base64.Z_of_byte c)
                  (byte_as_nat c) (byte_as_nat c))
        as (_ & _ & _ & R4 & _ & _ & _ & _ & _ & _ & _ & _ & _ & E14).
      unfold Base64.decode. cbn [Base64.encode].
      rewrite !sextets_digit by assumption.
      cbn [Base64.pack].
      rewrite E9, E10, E12.
      rewrite (byte_of_Z_of_byte a _ E7), (byte_of_Z_of_byte b _ E13),
        (byte_of_Z_of_byte c _ E14).
      f_equal. f_equal. f_equal.
      apply IH. simpl in Hl. lia.
Qed.

(** Decoding the base64 text of a byte sequence gives the sequence back. *)
Lemma decode_encode (l : list byte) :
  Base64.decode (Base64.encode l) = l.
Proof. apply (roundtrip_bounded (List.length l)). lia. Qed.

End Base64Facts.


(** ** The payload of a submission *)

(** X1.  The payload [createAndWaitTransaction] builds names the type
    [solana_transaction], the vault and the chain it was given, and its
    [transaction] member is a base64 text that decodes to exactly the bytes
    it was given. *)
Theorem submission_keeps_transaction (vaultId : string)
  (transaction : list byte) (chain : string) (options : Options) :
  let payload := Client.submission vaultId transaction chain options in
  JsRead.Buffer_from_base64 (Observe.member "transaction" payload)
  = inr transaction
  /\ Observe.member "type" payload = JStr "solana_transaction"
  /\ Observe.member "vault_id" payload = JStr vaultId
  /\ Observe.member "chain" payload = JStr chain.
Proof.
  cbv zeta. unfold Client.submission, Observe.member. cbn.
  rewrite Base64Facts.decode_encode. repeat split.
Qed.

(** X2.  Of the options, the payload that is written carries exactly those
    that are set, after the four fixed members and in a fixed order; an
    option that is not given leaves no member behind, and a timeout of [0]
    counts as not given. *)
Theorem submission_written_members (vaultId : string)
  (transaction : list byte) (chain : string) (options : Options) :
  Observe.written_names (Client.submission vaultId transaction chain options)
  = (["type"; "vault_id"; "transaction"; "chain"]
     ++ Observe.option_names options)%list
  /\ Observe.member "timeout"
       (Client.submission vaultId transaction chain options)
     = match timeout options with
       | Some t => if Z.eqb t 0 then JUndefined else JNum t
       | None => JUndefined
       end.
Proof.
  unfold Observe.written_names, Observe.option_names, Observe.member,
    Client.submission, Js.written.
  destruct options as [n k sm pm t].
  cbn [idempotenceId note signMode pushMode timeout].
  destruct n, k, sm, pm, t as [t |]; cbn;
    try destruct (Z.eqb t 0); cbn; split; reflexivity.
Qed.

(* ------------------------------------------------------------------------- *)
(** ** The client, operation by operation *)

Module ClientFacts.
Import Runtime RuntimeFacts Client Spec AuthFacts RequestFacts.
Open Scope string_scope.

(** A body [JSON.stringify] refuses makes [request] throw after the
    authentication and before any call. *)
Lemma request_exec_unserializable (w : World) (i : nat) (cfg : FordefiConfig)
  (meth : Method) (path : string) (body : jsval) (m m1 : Machine)
  (tok : jsval) (e : JsError) :
  exec w i (authenticate cfg) m = (inr tok, m1) ->
  request_body body = inl e ->
  exec w i (request cfg meth path body) m = (inl e, m1).
Proof.
  intros Hauth Hrb. unfold request.
  rewrite exec_bind, Hauth, exec_bind, exec_lift, Hrb. reflexivity.
Qed.

(** What the call of [request] leaves of the machine. *)
Lemma after_request_call_fields (w : World) (i : nat) (cfg : FordefiConfig)
  (meth : Method) (path : string) (rb : option string) (tok : jsval)
  (m : Machine) :
  let m' := after_request_call w i cfg meth path rb tok m in
  accessToken m' = accessToken m
  /\ console m' = console m
  /\ sent m' = (sent m ++ [(i, request_call w cfg meth path rb tok m)])%list
  /\ ticks m' = match meth with GET => ticks m | POST => S (ticks m) end.
Proof. destruct meth; repeat split. Qed.

(** A [catch] clause that logs and rethrows adds one line to the console
    when the body throws, and nothing otherwise. *)
Lemma exec_logged {A : Type} (w : World) (i : nat) (t : Async A)
  (label : string) (m : Machine) :
  exec w i (try_catch t (fun error => ConsoleError label error (Throw error))) m
  = (fst (exec w i t m),
     match fst (exec w i t m) with
     | inl e => log label e (snd (exec w i t m))
     | inr _ => snd (exec w i t m)
     end).
Proof.
  rewrite exec_try_catch. destruct (exec w i t m) as [[e | a] m1]; reflexivity.
Qed.

(** Reading a member of the body [request] returns changes no state. *)
Lemma exec_then_read {A : Type} (w : World) (i : nat) (t : Async jsval)
  (read : jsval -> JsError + A) (m : Machine) :
  exec w i (bind t (fun response => lift (read response))) m
  = (match fst (exec w i t m) with
     | inl e => inl e
     | inr response => read response
     end,
     snd (exec w i t m)).
Proof.
  rewrite exec_bind. destruct (exec w i t m) as [[e | a] m1]; cbn [fst snd].
  - reflexivity.
  - apply exec_lift.
Qed.


End ClientFacts.

Import ClientFacts.

(** X3.  [request] never retries and never authenticates twice: on a client
    that holds a token it hands exactly one request to the network; on a
    client without one it sends the authentication call and, only when that
    yields a token, exactly one further request, the call itself; a failed
    authentication ends it with nothing else sent. *)
Theorem request_never_retries (w : World) (i : nat) (cfg : FordefiConfig)
  (meth : Method) (path : string) (body : jsval) (m : Machine)
  (rb : option string) :
  request_body body = inr rb ->
  let outcome := exec w i (request cfg meth path body) m in
  (Js.truthy (accessToken m) = true
   /\ sent (snd outcome)
      = (sent m
         ++ [(i, request_call w cfg meth path rb (accessToken m) m)])%list)
  \/ (Js.truthy (accessToken m) = false
      /\ fst outcome = inl (Error "Failed to authenticate with Fordefi")
      /\ sent (snd outcome) = (sent m ++ [(i, auth_call w cfg m)])%list)
  \/ (Js.truthy (accessToken m) = false
      /\ exists tok m1,
           exec w i (authenticate cfg) m = (inr tok, m1)
           /\ sent (snd outcome)
              = (sent m
                 ++ [(i, auth_call w cfg m);
                     (i, request_call w cfg meth path rb tok m1)])%list).
Proof.
  intros Hrb. cbv zeta.
  destruct (Js.truthy (accessToken m)) eqn:Hc.
  - left. split; [reflexivity |].
    rewrite (request_exec w i cfg meth path body m m (accessToken m) rb
               (authenticate_hit w i cfg m Hc) Hrb).
    cbn [snd]. destruct meth; reflexivity.
  - right.
    destruct (authenticate_miss w i cfg m Hc)
      as [m1 [Hs [[tok [E Ht]] | [E Hf]]]].
    + right. split; [reflexivity |]. exists tok, m1. split; [exact E |].
      rewrite (request_exec w i cfg meth path body m m1 tok rb E Hrb).
      cbn [snd].
      destruct (after_request_call_fields w i cfg meth path rb tok m1)
        as [_ [_ [Hsent _]]].
      rewrite Hsent, Hs. unfold after_auth_call. cbn [sent send tick].
      rewrite <- app_assoc. reflexivity.
    + left. split; [reflexivity |].
      rewrite (request_exec_unauthenticated w i cfg meth path body m m1 _ E).
      cbn [fst snd]. split; [reflexivity |].
      rewrite Hs. reflexivity.
Qed.

Lemma request_never_retries_witness :
  let w := Samples.world_of Samples.token_reply
             (Answered Samples.invalid_vault) in
  List.length
    (sent (snd (exec w 0 (request Samples.cfg0 POST create_and_wait_path
                            JUndefined) fresh)))
  = 2.
Proof.
  cbv zeta.
  destruct (request_never_retries
              (Samples.world_of Samples.token_reply
                 (Answered Samples.invalid_vault))
              0 Samples.cfg0 POST create_and_wait_path JUndefined fresh
              (Some EmptyString) eq_refl)
    as [[H _] | [[_ [H _]] | [_ [tok [m1 [_ H]]]]]].
  - discriminate H.
  - vm_compute in H. discriminate H.
  - cbv zeta in H. rewrite H. reflexivity.
Defined.



(** X5.  The read operations on a client that holds a token:
    [getWalletAddress] and [getTransactionStatus] each hand one [GET] to the
    network, to [/v1/wallets/solana] and to [/v1/transactions/<txId>] under
    the base address, with the bearer token, no body, no [x-signature] and no
    [x-timestamp]; they do not read the clock. *)
Theorem read_operations_send_one_unsigned_get (w : World) (i : nat)
  (cfg : FordefiConfig) (txId : string) (m : Machine) (tok : jsval) :
  holds_token m tok ->
  let wallet := snd (exec w i (getWalletAddress cfg) m) in
  let status := snd (exec w i (getTransactionStatus cfg txId) m) in
  let unsigned (u : string) (req : HttpRequest) :=
    method req = GET /\ url req = u /\ baseURL req = None /\ body req = None
    /\ header "Authorization" (headers req)
       = Some ("Bearer " ++ Js.to_String tok)
    /\ header "x-signature" (headers req) = None
    /\ header "x-timestamp" (headers req) = None in
  (exists req,
     sent wallet = (sent m ++ [(i, req)])%list
     /\ unsigned (api_baseURL cfg ++ "/v1/wallets/solana") req)
  /\ (exists req,
        sent status = (sent m ++ [(i, req)])%list
        /\ unsigned (api_baseURL cfg ++ "/v1/transactions/" ++ txId) req)
  /\ ticks wallet = ticks m
  /\ ticks status = ticks m.
Proof.
  intros [Et Ht]. cbv zeta. subst tok.
  pose proof (authenticate_hit w i cfg m Ht) as Hauth.
  assert (Hgen : forall path,
             exec w i (request cfg GET path JUndefined) m
             = (request_verdict
                  (net w i (issued i m)
                     (request_call w cfg GET path (Some EmptyString)
                        (accessToken m) m)),
                after_request_call w i cfg GET path (Some EmptyString)
                  (accessToken m) m)).
  { intros path. apply request_exec; [exact Hauth | reflexivity]. }
  unfold getWalletAddress, getTransactionStatus.
  rewrite !exec_logged, !exec_then_read, !Hgen. cbn [fst snd].
  repeat split.
  - eexists. split.
    + match goal with
      | |- context [match ?r with inl _ => _ | inr _ => _ end] => destruct r
      end; reflexivity.
    + repeat split.
  - eexists. split.
    + match goal with
      | |- context [match ?r with inl _ => _ | inr _ => _ end] => destruct r
      end; reflexivity.
    + repeat split.
  - match goal with
    | |- context [match ?r with inl _ => _ | inr _ => _ end] => destruct r
    end; reflexivity.
  - match goal with
    | |- context [match ?r with inl _ => _ | inr _ => _ end] => destruct r
    end; reflexivity.
Qed.

Lemma read_operations_send_one_unsigned_get_witness :
  let w := Samples.world_of Samples.token_reply
             (Answered Samples.invalid_vault) in
  ticks (snd (exec w 0 (getWalletAddress Samples.cfg0) Samples.signed_in)) = 0.
Proof.
  cbv zeta.
  destruct (read_operations_send_one_unsigned_get
              (Samples.world_of Samples.token_reply
                 (Answered Samples.invalid_vault))
              0 Samples.cfg0 "job-1" Samples.signed_in (JStr "tok")
              (conj eq_refl eq_refl))
    as [_ [_ [H _]]].
  exact H.
Defined.

(** X6.  What the read operations return.  When the call is answered with a
    status in [[200,300)], [getWalletAddress] returns the member [address]
    of the body and [getTransactionStatus] the member [status]; a body that is
    an object without that member yields [undefined], not an error, and a
    body that is [null] makes the operation throw a [TypeError]. *)
Theorem read_operations_return_member (w : World) (i : nat)
  (cfg : FordefiConfig) (txId : string) (m : Machine) (tok : jsval)
  (a : AxiosResponse) :
  holds_token m tok ->
  (forall req, method req = GET -> baseURL req = None ->
               net w i (issued i m) req = Answered a) ->
  (200 <= status a < 300)%Z ->
  let wallet := fst (exec w i (getWalletAddress cfg) m) in
  let state := fst (exec w i (getTransactionStatus cfg txId) m) in
  wallet = JsRead.get (data a) "address"
  /\ state = JsRead.get (data a) "status"
  /\ (forall fields,
        data a = JObj fields ->
        (Js.lookup "address" fields = JUndefined -> wallet = inr JUndefined)
        /\ (Js.lookup "status" fields = JUndefined -> state = inr JUndefined))
  /\ (data a = JNull ->
      (exists msg, wallet = inl (TypeError msg))
      /\ (exists msg, state = inl (TypeError msg))).
Proof.
  intros [Et Ht] Hnet Hst. cbv zeta. subst tok.
  pose proof (authenticate_hit w i cfg m Ht) as Hauth.
  assert (Hgen : forall path,
             fst (exec w i (request cfg GET path JUndefined) m)
             = inr (data a)).
  { intros path.
    rewrite (request_exec w i cfg GET path JUndefined m m (accessToken m)
               (Some EmptyString) Hauth eq_refl).
    cbn [fst]. rewrite Hnet by reflexivity.
    unfold request_verdict.
    replace ((status a <? 200)%Z || (status a >=? 300)%Z) with false;
      [reflexivity |].
    symmetry. apply orb_false_iff. split.
    - apply Z.ltb_ge. lia.
    - rewrite Z.geb_leb. apply Z.leb_gt. lia. }
  unfold getWalletAddress, getTransactionStatus.
  rewrite !exec_logged, !exec_then_read, !Hgen. cbn [fst].
  split; [reflexivity |]. split; [reflexivity |]. split.
  - intros fields E. rewrite E. cbn [JsRead.get].
    split; intros H; rewrite H; reflexivity.
  - intros E. rewrite E. cbn [JsRead.get]. split; eexists; reflexivity.
Qed.

Lemma read_operations_return_member_witness :
  let w := Samples.world_of Samples.token_reply
             (Answered {| status := 200;
                          data := JObj [("address", JStr "So1ana")] |}) in
  fst (exec w 0 (getWalletAddress Samples.cfg0) Samples.signed_in)
  = inr (JStr "So1ana")
  /\ fst (exec w 0 (getTransactionStatus Samples.cfg0 "job-1") Samples.signed_in)
     = inr JUndefined.
Proof.
  cbv zeta.
  destruct (read_operations_return_member
              (Samples.world_of Samples.token_reply
                 (Answered {| status := 200;
                              data := JObj [("address", JStr "So1ana")] |}))
              0 Samples.cfg0 "job-1" Samples.signed_in (JStr "tok")
              {| status := 200; data := JObj [("address", JStr "So1ana")] |}
              (conj eq_refl eq_refl)
              (fun req _ Hb =>
                 f_equal (fun b => match b with
                                   | Some _ => Samples.token_reply
                                   | None => _
                                   end) Hb)
              ltac:(cbn; lia))
    as [Hw [Hs _]].
  split; [exact Hw | exact Hs].
Defined.

(** X7.  [signTransaction] on a client that holds a token, when its call is
    answered with a status in [[200,300)]: it returns the bytes the member
    [signedTransaction] of the body decodes to, so that a server which
    answers with the base64 text of [signed] makes it return exactly
    [signed]; a body without that member makes it throw a [TypeError]
    rather than return an empty buffer. *)
Theorem signTransaction_returns_decoded (w : World) (i : nat)
  (cfg : FordefiConfig) (transaction : list byte) (m : Machine) (tok : jsval)
  (a : AxiosResponse) :
  holds_token m tok ->
  (forall req, method req = POST -> baseURL req = None ->
               net w i (issued i m) req = Answered a) ->
  (200 <= status a < 300)%Z ->
  let result := fst (exec w i (signTransaction cfg transaction) m) in
  (forall fields text,
     data a = JObj fields ->
     Js.lookup "signedTransaction" fields = JStr text ->
     result = inr (Base64.decode text))
  /\ (forall fields signed,
        data a = JObj fields ->
        Js.lookup "signedTransaction" fields = JStr (Base64.encode signed) ->
        result = inr signed)
  /\ (forall fields,
        data a = JObj fields ->
        Js.lookup "signedTransaction" fields = JUndefined ->
        exists msg, result = inl (TypeError msg)).
Proof.
  intros [Et Ht] Hnet Hst. cbv zeta. subst tok.
  pose proof (authenticate_hit w i cfg m Ht) as Hauth.
  set (payload := JObj [("transaction", JStr (Base64.encode transaction));
                        ("network", JStr "solana")]).
  assert (Hrb : exists rb, request_body payload = inr rb).
  { unfold request_body, payload. cbn. eexists. reflexivity. }
  destruct Hrb as [rb Hrb].
  assert (Hgen : fst (exec w i (request cfg POST "/v1/transactions/sign"
                                  payload) m)
                 = inr (data a)).
  { rewrite (request_exec w i cfg POST "/v1/transactions/sign" payload m m
               (accessToken m) rb Hauth Hrb).
    cbn [fst]. rewrite Hnet by reflexivity.
    unfold request_verdict.
    replace ((status a <? 200)%Z || (status a >=? 300)%Z) with false;
      [reflexivity |].
    symmetry. apply orb_false_iff. split.
    - apply Z.ltb_ge. lia.
    - rewrite Z.geb_leb. apply Z.leb_gt. lia. }
  assert (Hres : fst (exec w i (signTransaction cfg transaction) m)
                 = match JsRead.get (data a) "signedTransaction" with
                   | inl e => inl e
                   | inr signed => JsRead.Buffer_from_base64 signed
                   end).
  { unfold signTransaction. fold payload. rewrite exec_logged. cbn [fst].
    rewrite exec_bind.
    destruct (exec w i (request cfg POST "/v1/transactions/sign" payload) m)
      as [[e | response] m1]; cbn [fst] in Hgen; [discriminate |].
    inversion Hgen; subst response.
    rewrite exec_bind, exec_lift.
    destruct (JsRead.get (data a) "signedTransaction") as [e | signed];
      [reflexivity |].
    rewrite exec_lift. reflexivity. }
  rewrite Hres. repeat split.
  - intros fields text E H. rewrite E. cbn [JsRead.get]. rewrite H.
    reflexivity.
  - intros fields signed E H. rewrite E. cbn [JsRead.get]. rewrite H.
    cbn [JsRead.Buffer_from_base64].
    rewrite Base64Facts.decode_encode. reflexivity.
  - intros fields E H. rewrite E. cbn [JsRead.get]. rewrite H.
    eexists. reflexivity.
Qed.

Lemma signTransaction_returns_decoded_witness :
  let w := Samples.world_of Samples.token_reply
             (Answered {| status := 200;
                          data := JObj [("signedTransaction",
                                         JStr (Base64.encode [x01; x02; x03; x04]))] |}) in
  fst (exec w 0 (signTransaction Samples.cfg0 [x09]) Samples.signed_in)
  = inr [x01; x02; x03; x04].
Proof.
  cbv zeta.
  destruct (signTransaction_returns_decoded
              (Samples.world_of Samples.token_reply
                 (Answered {| status := 200;
                              data := JObj [("signedTransaction",
                                             JStr (Base64.encode [x01; x02; x03; x04]))] |}))
              0 Samples.cfg0 [x09] Samples.signed_in (JStr "tok")
              {| status := 200;
                 data := JObj [("signedTransaction",
                                JStr (Base64.encode [x01; x02; x03; x04]))] |}
              (conj eq_refl eq_refl)
              (fun req _ Hb =>
                 f_equal (fun b => match b with
                                   | Some _ => Samples.token_reply
                                   | None => _
                                   end) Hb)
              ltac:(cbn; lia))
    as [_ [H _]].
  exact (H _ [x01; x02; x03; x04] eq_refl eq_refl).
Defined.

(** X8.  Beyond its request, an operation of the client does one thing: its
    [catch] clause writes the error it rethrows to the console, under the
    label of the operation, once.  An operation that returns leaves the
    machine as its request left it. *)
Theorem operations_log_what_they_rethrow (w : World) (i : nat)
  (cfg : FordefiConfig) (vaultId chain txId : string)
  (transaction : list byte) (options : Options) (m : Machine) :
  let logged {A : Type} (label : string) (op : Async A)
             (inner : Async jsval) :=
    snd (exec w i op m)
    = match fst (exec w i op m) with
      | inl e => log label e (snd (exec w i inner m))
      | inr _ => snd (exec w i inner m)
      end in
  logged "Error creating and waiting for transaction:"
    (createAndWaitTransaction cfg vaultId transaction chain options)
    (request cfg POST create_and_wait_path
       (submission vaultId transaction chain options))
  /\ logged "Error signing transaction with Fordefi:"
       (signTransaction cfg transaction)
       (request cfg POST "/v1/transactions/sign"
          (JObj [("transaction", JStr (Base64.encode transaction));
                 ("network", JStr "solana")]))
  /\ logged "Error getting Fordefi wallet address:"
       (getWalletAddress cfg)
       (request cfg GET "/v1/wallets/solana" JUndefined)
  /\ logged "Error getting transaction status:"
       (getTransactionStatus cfg txId)
       (request cfg GET ("/v1/transactions/" ++ txId) JUndefined).
Proof.
  cbv zeta.
  unfold createAndWaitTransaction, signTransaction, getWalletAddress,
    getTransactionStatus.
  rewrite !exec_logged. cbn [fst snd].
  rewrite !exec_then_read. cbn [fst snd].
  repeat split.
  - rewrite exec_bind.
    destruct (exec w i (request cfg POST create_and_wait_path
                          (submission vaultId transaction chain options)) m)
      as [[e | a] m1]; reflexivity.
  - rewrite exec_bind.
    destruct (exec w i (request cfg POST "/v1/transactions/sign"
                          (JObj [("transaction",
                                  JStr (Base64.encode transaction));
                                 ("network", JStr "solana")])) m)
      as [[e | a] m1]; cbn [fst snd]; [reflexivity |].
    rewrite exec_bind, exec_lift.
    destruct (JsRead.get a "signedTransaction") as [e | signed];
      cbn [fst snd]; [reflexivity |].
    rewrite exec_lift. destruct (JsRead.Buffer_from_base64 signed); reflexivity.
Qed.

(** X9.  A failed authentication leaves its cause on the console.  The
    error [authenticate] throws is always the same, but its [catch] clause
    first logs, under [Authentication failed:], what went wrong: the error of
    axios when the call met no response or a status outside [[200,300)], and
    [No access token received from Fordefi] when the response carried no
    usable token.  A successful authentication logs nothing. *)
Theorem authenticate_logs_the_cause (w : World) (i : nat)
  (cfg : FordefiConfig) (m : Machine) :
  Js.truthy (accessToken m) = false ->
  let outcome := exec w i (authenticate cfg) m in
  let answer := net w i (issued i m) (auth_call w cfg m) in
  let logged (cause : JsError) :=
    fst outcome = inl (Error "Failed to authenticate with Fordefi")
    /\ console (snd outcome)
       = (console m ++ [("Authentication failed:", cause)])%list in
  (forall tok, fst outcome = inr tok -> console (snd outcome) = console m)
  /\ (forall msg r, answer = Dropped msg r -> logged (AxiosError msg r))
  /\ (forall a,
        answer = Answered a ->
        (status a < 200 \/ 300 <= status a)%Z ->
        logged (AxiosError
                  ("Request failed with status code " ++ Text.show (status a))
                  (Some a)))
  /\ (forall a tok,
        answer = Answered a ->
        (200 <= status a < 300)%Z ->
        JsRead.get (data a) "accessToken" = inr tok ->
        Js.truthy tok = false ->
        logged (Error "No access token received from Fordefi")).
Proof.
  intros H. cbv zeta. unfold authenticate. simpl. rewrite H.
  unfold createSignature. simpl. fold (auth_call w cfg m).
  change (issued i (tick m)) with (issued i m).
  destruct (net w i (issued i m) (auth_call w cfg m)) as [a | msg r] eqn:Hnet.
  - unfold axios_settle. cbn [acceptAnyStatus auth_call auth_request orb].
    destruct ((200 <=? status a)%Z && (status a <? 300)%Z) eqn:Hst.
    + apply andb_true_iff in Hst. destruct Hst as [H1 H2].
      apply Z.leb_le in H1. apply Z.ltb_lt in H2. simpl.
      destruct (JsRead.get (data a) "accessToken") as [e | token] eqn:Hget;
        simpl; [| destruct (Js.truthy token) eqn:Htok; simpl];
        repeat split; try discriminate; intros;
        repeat match goal with
               | E : Answered _ = Answered _ |- _ =>
                   inversion E; subst; clear E
               end;
        try lia; try congruence.
    + apply andb_false_iff in Hst. simpl.
      repeat split; try discriminate; intros;
        repeat match goal with
               | E : Answered _ = Answered _ |- _ =>
                   inversion E; subst; clear E
               end;
        try reflexivity;
        destruct Hst as [Hst | Hst];
        try apply Z.leb_gt in Hst; try apply Z.ltb_ge in Hst; lia.
  - simpl. repeat split; try discriminate; intros; congruence.
Qed.

Lemma authenticate_logs_the_cause_witness :
  let w := Samples.world_of Samples.refused Samples.refused in
  console (snd (exec w 0 (authenticate Samples.cfg0) fresh))
  = [("Authentication failed:",
      AxiosError "connect ECONNREFUSED 127.0.0.1:443" None)].
Proof.
  cbv zeta.
  destruct (authenticate_logs_the_cause
              (Samples.world_of Samples.refused Samples.refused) 0
              Samples.cfg0 fresh eq_refl) as [_ [H _]].
  destruct (H "connect ECONNREFUSED 127.0.0.1:443" None eq_refl) as [_ Hc].
  exact Hc.
Defined.

(** X10.  A body [JSON.stringify] refuses, one that holds a [bigint], makes
    [request] throw the [TypeError] of [JSON.stringify] as it is, outside its
    own [catch] clause; [request] has authenticated by then, and the call
    itself is never sent. *)
Theorem request_refuses_unserializable_body (w : World) (i : nat)
  (cfg : FordefiConfig) (meth : Method) (path : string) (body : jsval)
  (m : Machine) :
  Js.truthy body = true ->
  Js.JSON_stringify body = Js.Raises ->
  let outcome := exec w i (request cfg meth path body) m in
  let auth := exec w i (authenticate cfg) m in
  snd outcome = snd auth
  /\ (forall tok, fst auth = inr tok ->
                  fst outcome
                  = inl (TypeError "Do not know how to serialize a BigInt"))
  /\ (forall e, fst auth = inl e -> fst outcome = inl e).
Proof.
  intros Ht Hs. cbv zeta.
  assert (Hrb : request_body body
                = inl (TypeError "Do not know how to serialize a BigInt")).
  { unfold request_body. rewrite Ht, Hs. reflexivity. }
  destruct (exec w i (authenticate cfg) m) as [[e | tok] m1] eqn:E.
  - rewrite (request_exec_unauthenticated w i cfg meth path body m m1 e E).
    cbn [fst snd]. repeat split; [discriminate | congruence].
  - rewrite (request_exec_unserializable w i cfg meth path body m m1 tok _
               E Hrb).
    cbn [fst snd]. repeat split; discriminate.
Qed.

Lemma request_refuses_unserializable_body_witness :
  let w := Samples.world_of Samples.token_reply Samples.refused in
  fst (exec w 0 (request Samples.cfg0 POST create_and_wait_path
                   (JObj [("amount", JBigInt 1)])) Samples.signed_in)
  = inl (TypeError "Do not know how to serialize a BigInt").
Proof.
  cbv zeta.
  destruct (request_refuses_unserializable_body
              (Samples.world_of Samples.token_reply Samples.refused) 0
              Samples.cfg0 POST create_and_wait_path
              (JObj [("amount", JBigInt 1)]) Samples.signed_in
              eq_refl eq_refl) as [_ [H _]].
  exact (H (JStr "tok") eq_refl).
Defined.

(* ------------------------------------------------------------------------- *)
(** ** Signatures of requests *)

Module DigestFacts.
Import Runtime RuntimeFacts Client Spec.
Open Scope string_scope.

Lemma round_length (st : list Z) (kw : Z * Z) :
  List.length (Sha256.round st kw) = List.length st.
Proof.
  unfold Sha256.round.
  do 9 (destruct st as [| ? st]; try reflexivity).
Qed.

Lemma rounds_length (kws : list (Z * Z)) :
  forall st, List.length (fold_left Sha256.round kws st) = List.length st.
Proof.
  induction kws as [| kw kws IH]; intros st; simpl; [reflexivity |].
  rewrite IH. apply round_length.
Qed.

Lemma compress_length (h block : list Z) :
  List.length (Sha256.compress h block) = List.length h.
Proof.
  unfold Sha256.compress.
  rewrite length_map, length_combine, rounds_length. apply Nat.min_id.
Qed.

Lemma chain_length (bs : list (list Z)) :
  forall h, List.length (fold_left Sha256.compress bs h) = List.length h.
Proof.
  induction bs as [| b bs IH]; intros h; simpl; [reflexivity |].
  rewrite IH. apply compress_length.
Qed.

Lemma be_bytes_length (width : nat) (x : Z) :
  List.length (Sha256.be_bytes width x) = width.
Proof.
  unfold Sha256.be_bytes. rewrite length_map, length_rev, length_seq.
  reflexivity.
Qed.

Lemma flat_be_bytes_length (l : list Z) :
  List.length (flat_map (Sha256.be_bytes 4) l) = 4 * List.length l.
Proof.
  induction l as [| x l IH]; [reflexivity |].
  cbn [flat_map]. rewrite length_app, be_bytes_length, IH. simpl. lia.
Qed.

(** A digest has 32 bytes. *)
Lemma sha256_length (msg : list Z) : List.length (Sha256.sha256 msg) = 32.
Proof.
  unfold Sha256.sha256. rewrite flat_be_bytes_length, chain_length.
  reflexivity.
Qed.

Lemma hmac_length (key msg : list Z) : List.length (Sha256.hmac key msg) = 32.
Proof. unfold Sha256.hmac. apply sha256_length. Qed.

Lemma hex_digit_is_hex (n : Z) :
  Observe.is_hex_digit (Text.hex_digit n) = true.
Proof.
  destruct n as [| p | p]; try reflexivity.
  do 5 (try destruct p as [p | p |]; try reflexivity).
Qed.

Lemma hex_length (l : list Z) : String.length (Text.hex l) = 2 * List.length l.
Proof.
  induction l as [| b l IH]; [reflexivity |].
  cbn [Text.hex String.length List.length]. rewrite IH. lia.
Qed.

Lemma hex_chars (l : list Z) :
  Observe.all_chars Observe.is_hex_digit (Text.hex l) = true.
Proof.
  induction l as [| b l IH]; [reflexivity |].
  cbn [Text.hex Observe.all_chars]. rewrite !hex_digit_is_hex, IH. reflexivity.
Qed.

End DigestFacts.

(** X11.  Whatever the secret, the clock and the body, [createSignature]
    reads the clock once and returns that reading with a signature of
    exactly 64 characters, all of them lowercase hexadecimal digits. *)
Theorem createSignature_gives_64_hex_digits (w : World) (i : nat)
  (cfg : FordefiConfig) (body : string) (m : Machine) :
  exists signature,
    exec w i (createSignature cfg body) m
    = (inr (signature, clock w (ticks m)), tick m)
    /\ String.length signature = 64
    /\ Observe.all_chars Observe.is_hex_digit signature = true.
Proof.
  eexists. split; [reflexivity |].
  unfold Sha256.createHmac_sha256_hex.
  rewrite DigestFacts.hex_length, DigestFacts.hmac_length.
  split; [reflexivity | apply DigestFacts.hex_chars].
Qed.


(* ------------------------------------------------------------------------- *)
(** ** The signing adapter, whatever the server does *)

Module BatchFacts.
Import Runtime RuntimeFacts Client Spec PoolFacts MemberFacts Signer Observe.
Open Scope string_scope.

(** *** What tasks can return *)










Lemma map_from_Forall {A B : Type} (P : B -> Prop) (f : nat -> A -> B)
  (l : list A) :
  (forall i x, P (f i x)) -> forall i, Forall P (map_from f i l).
Proof.
  intros H. induction l as [| x l IH]; intros i; simpl; constructor; auto.
Qed.

Lemma map_from_length {A B : Type} (f : nat -> A -> B) (l : list A) :
  forall i, List.length (map_from f i l) = List.length l.
Proof.
  induction l as [| x l IH]; intros i; simpl; auto.
Qed.

(** *** How many requests tasks send *)

Lemma sends_at_most_more {A : Type} (t : Async A) :
  forall n n', sends_at_most n t -> n <= n' -> sends_at_most n' t.
Proof.
  induction t as [a | e | k IH | v k IH | k IH | l0 e k IH | req k IH];
    intros n n' H Hle; simpl in *; eauto.
  destruct n as [| n]; [contradiction |].
  destruct n' as [| n']; [lia |].
  intros o. apply (IH o n n' (H o)). lia.
Qed.

Lemma sends_at_most_bind {A B : Type} (t : Async A) (f : A -> Async B)
  (k : nat) :
  (forall a, sends_at_most k (f a)) ->
  forall n, sends_at_most n t -> sends_at_most (n + k) (bind t f).
Proof.
  intros Hf.
  induction t as [a | e | g IH | v g IH | g IH | l0 e g IH | req g IH];
    intros n H; simpl in *; eauto.
  - apply (sends_at_most_more (f a) k); [apply Hf | lia].
  - destruct n as [| n]; [contradiction |]. simpl. intros o. apply IH, H.
Qed.

Lemma sends_at_most_try_catch {A : Type} (t : Async A)
  (h : JsError -> Async A) (k : nat) :
  (forall e, sends_at_most k (h e)) ->
  forall n, sends_at_most n t -> sends_at_most (n + k) (try_catch t h).
Proof.
  intros Hh.
  induction t as [a | e | g IH | v g IH | g IH | l0 e g IH | req g IH];
    intros n H; simpl in *; eauto.
  - apply (sends_at_most_more (h e) k); [apply Hh | lia].
  - destruct n as [| n]; [contradiction |]. simpl. intros o. apply IH, H.
Qed.

Lemma sends_at_most_lift {A : Type} (r : JsError + A) (n : nat) :
  sends_at_most n (lift r).
Proof. destruct r; exact I. Qed.

Lemma axios_sends_one (req : HttpRequest) : sends_at_most 1 (axios req).
Proof. simpl. intros o. apply sends_at_most_lift. Qed.

Lemma authenticate_sends_one (cfg : FordefiConfig) :
  sends_at_most 1 (authenticate cfg).
Proof.
  unfold authenticate. simpl. intros cached.
  destruct (Js.truthy cached); [exact I |].
  simpl. intros z o.
  apply (sends_at_most_try_catch _ _ 0) with (n := 0); [intros e; exact I |].
  apply (sends_at_most_bind _ _ 0) with (n := 0); [| apply sends_at_most_lift].
  intros response.
  apply (sends_at_most_bind _ _ 0) with (n := 0); [| apply sends_at_most_lift].
  intros token. simpl. intros stored.
  destruct (negb (Js.truthy stored)); simpl; auto.
Qed.

Lemma request_sends_two (cfg : FordefiConfig) (meth : Method) (path : string)
  (body : jsval) :
  sends_at_most 2 (request cfg meth path body).
Proof.
  unfold request.
  apply (sends_at_most_bind _ _ 1) with (n := 1); [| apply authenticate_sends_one].
  intros accessToken.
  apply (sends_at_most_bind _ _ 1) with (n := 0); [| apply sends_at_most_lift].
  intros requestBody.
  apply (sends_at_most_try_catch _ _ 0) with (n := 1).
  - intros e. unfold request_handler.
    destruct (error_response e); exact I.
  - apply (sends_at_most_bind _ _ 0) with (n := 1).
    + intros response.
      destruct ((status response <? 200)%Z || (status response >=? 300)%Z);
        exact I.
    + destruct meth; [apply axios_sends_one |].
      simpl. intros z o. apply sends_at_most_lift.
Qed.

Lemma sign_member_sends_two (cfg : FordefiConfig) (vaultId chain : string)
  (options : Options) (index : nat) (tx : Transaction) :
  sends_at_most 2 (sign_member cfg vaultId chain options index tx).
Proof.
  unfold sign_member, createAndWaitTransaction.
  apply (sends_at_most_bind _ _ 0) with (n := 2);
    [intros a; apply sends_at_most_lift |].
  apply (sends_at_most_try_catch _ _ 0) with (n := 2); [intros e; exact I |].
  apply (sends_at_most_bind _ _ 0) with (n := 2); [intros a; exact I |].
  apply request_sends_two.
Qed.

Lemma issued_send (i k : nat) (req : HttpRequest) (m : Machine) :
  issued k (send i req m) = (if Nat.eqb i k then 1 else 0) + issued k m.
Proof.
  unfold issued, send. cbn [sent]. rewrite filter_app, length_app.
  cbn [filter fst]. destruct (Nat.eqb i k); simpl; lia.
Qed.

(** Running a task up to its next wait: the other tasks have sent what they
    had sent, and the task stays within its budget. *)
Lemma advance_budget {A : Type} (w : World) (i : nat) (t : Async A) :
  forall n m,
    sends_at_most n t ->
    (forall k, k <> i ->
               issued k (snd (advance w i t m)) = issued k m)
    /\ exists b,
         status_budget b (fst (advance w i t m))
         /\ issued i (snd (advance w i t m)) + b <= issued i m + n.
Proof.
  induction t as [a | e | g IH | v g IH | g IH | l0 e g IH | req g IH];
    intros n m H; simpl in *.
  - split; [reflexivity |]. exists 0. split; [exact I | lia].
  - split; [reflexivity |]. exists 0. split; [exact I | lia].
  - apply (IH _ n m (H _)).
  - apply (IH n (set_token v m) H).
  - apply (IH _ n (tick m) (H _)).
  - apply (IH n (log l0 e m) H).
  - destruct n as [| n]; [contradiction |]. split.
    + intros k Hk. rewrite issued_send.
      destruct (Nat.eqb i k) eqn:E; [apply Nat.eqb_eq in E; congruence |].
      reflexivity.
    + exists n. split; [apply H |].
      rewrite issued_send, Nat.eqb_refl. lia.
Qed.

Lemma launch_from_within {A : Type} (w : World) (n : nat)
  (ts : list (Async A)) :
  Forall (sends_at_most n) ts ->
  forall i m r,
    let p := launch_from w i ts m r in
    (forall k, k < i \/ i + List.length ts <= k ->
               issued k (machine p) = issued k m)
    /\ (forall j s, nth_error (tasks p) j = Some s ->
          exists b, status_budget b s
                    /\ issued (i + j) (machine p) + b <= issued (i + j) m + n).
Proof.
  induction 1 as [| t ts Ht Hts IH]; intros i m r; cbv zeta.
  - simpl. split; [reflexivity |]. intros [| j] s Hj; discriminate.
  - cbn [launch_from].
    destruct (advance_budget w i t n m Ht) as [Hother [b [Hb Hle]]].
    destruct (advance w i t m) as [s0 m'] eqn:E. cbn [fst snd] in *.
    destruct (IH (S i) m' (note_rejection s0 r)) as [Hout Hin].
    cbn [tasks machine List.length]. split.
    + intros k Hk. rewrite Hout by lia. apply Hother. lia.
    + intros [| j] s Hj; cbn [nth_error] in Hj.
      * inversion Hj; subst s. exists b. split; [exact Hb |].
        rewrite Nat.add_0_r. rewrite Hout by lia. exact Hle.
      * destruct (Hin j s Hj) as [b' [Hb' Hle']].
        exists b'. split; [exact Hb' |].
        replace (i + S j) with (S i + j) by lia.
        rewrite <- (Hother (S i + j)) by lia. exact Hle'.
Qed.

Lemma launch_within {A : Type} (w : World) (n : nat) (ts : list (Async A)) :
  Forall (sends_at_most n) ts -> within n (launch w ts fresh).
Proof.
  intros Hts k. unfold launch.
  destruct (launch_from_within w n ts Hts 0 fresh None) as [Hout Hin].
  destruct (nth_error (tasks (launch_from w 0 ts fresh None)) k)
    as [s |] eqn:Hk.
  - destruct (Hin k s Hk) as [b [Hb Hle]]. exists b. split; [exact Hb |].
    exact Hle.
  - apply nth_error_None in Hk. rewrite launch_from_length in Hk.
    rewrite Hout by lia. reflexivity.
Qed.

Lemma nth_error_replace_at {A : Type} (l : list A) (i : nat) (x y : A) :
  nth_error l i = Some y -> nth_error (replace i x l) i = Some x.
Proof.
  revert i. induction l as [| a l IH]; intros [| i] H; simpl in *;
    try discriminate; auto.
Qed.

Lemma nth_error_replace_off {A : Type} (l : list A) (i k : nat) (x : A) :
  k <> i -> nth_error (replace i x l) k = nth_error l k.
Proof.
  revert i k. induction l as [| a l IH]; intros [| i] [| k] H; simpl;
    try reflexivity; try congruence.
  apply IH. congruence.
Qed.

Lemma resume_within {A : Type} (w : World) (n : nat) (p : Pool A) (i : nat) :
  within n p -> within n (resume w p i).
Proof.
  intros Hp. unfold resume.
  destruct (nth_error (tasks p) i) as [[r | t] |] eqn:Hi; try exact Hp.
  pose proof (Hp i) as Hpi. rewrite Hi in Hpi.
  destruct Hpi as [b [Hb Hle]]. simpl in Hb.
  destruct (advance_budget w i t b (machine p) Hb) as [Hother [b' [Hb' Hle']]].
  destruct (advance w i t (machine p)) as [s m'] eqn:E. cbn [fst snd] in *.
  intros k. cbn [tasks machine].
  destruct (Nat.eq_dec k i) as [-> | Hk].
  - rewrite (nth_error_replace_at _ _ _ _ Hi).
    exists b'. split; [exact Hb' | lia].
  - rewrite (nth_error_replace_off _ _ _ _ Hk), (Hother k Hk). apply Hp.
Qed.

Lemma run_within {A : Type} (w : World) (n : nat) (order : list nat) :
  forall p : Pool A, within n p -> within n (run w order p).
Proof.
  induction order as [| i order IH]; intros p Hp; simpl; [exact Hp |].
  apply IH. apply resume_within. exact Hp.
Qed.

Lemma run_no_tasks {A : Type} (w : World) (order : list nat) (m : Machine)
  (r : option JsError) :
  run w order {| tasks := @nil (Status A); machine := m; rejection := r |}
  = {| tasks := []; machine := m; rejection := r |}.
Proof.
  induction order as [| i order IH]; simpl; [reflexivity |].
  replace (resume w {| tasks := []; machine := m; rejection := r |} i)
    with {| tasks := @nil (Status A); machine := m; rejection := r |}
    by (destruct i; reflexivity).
  exact IH.
Qed.

End BatchFacts.

Import PoolFacts MemberFacts Signer.



(** X14.  No member of a batch sends more than two requests, its
    authentication call and its submission, however the server answers and
    in whatever order the requests complete: the adapter never repeats a
    submission. *)
Theorem batch_member_sends_at_most_two (w : World) (order : list nat)
  (cfg : FordefiConfig) (vaultId chain : string) (options : Options)
  (txs : list Transaction) (k : nat) :
  issued k (machine (batch w order cfg vaultId chain options txs)) <= 2
  /\ (List.length txs <= k ->
      issued k (machine (batch w order cfg vaultId chain options txs)) = 0).
Proof.
  assert (H : Observe.within 2 (batch w order cfg vaultId chain options txs)).
  { unfold batch. apply BatchFacts.run_within, BatchFacts.launch_within.
    unfold signaturePromises. apply BatchFacts.map_from_Forall.
    intros i tx. apply BatchFacts.sign_member_sends_two. }
  pose proof (H k) as Hk.
  destruct (nth_error (tasks (batch w order cfg vaultId chain options txs)) k)
    as [s |] eqn:E.
  - destruct Hk as [b [_ Hle]]. split; [lia |].
    intros Hlen. exfalso.
    assert (Hsome : nth_error
                      (tasks (batch w order cfg vaultId chain options txs)) k
                    <> None) by congruence.
    apply nth_error_Some in Hsome.
    unfold batch, launch in Hsome.
    rewrite run_length, launch_from_length in Hsome.
    unfold signaturePromises in Hsome.
    rewrite BatchFacts.map_from_length in Hsome. lia.
  - rewrite Hk. split; [lia | reflexivity].
Qed.

(** X15.  A batch of no transactions is fulfilled at once with the empty
    list, and sends nothing: not even an authentication call. *)
Theorem empty_batch_sends_nothing (w : World) (order : list nat)
  (cfg : FordefiConfig) (vaultId chain : string) (options : Options) :
  signAndSendTransactions w order cfg vaultId chain options [] = Some (inr [])
  /\ sent (machine (batch w order cfg vaultId chain options [])) = [].
Proof.
  unfold signAndSendTransactions, batch, launch, signaturePromises.
  cbn [map_from launch_from]. rewrite BatchFacts.run_no_tasks.
  split; reflexivity.
Qed.

(** In [Observe.world_of_jobs] every member with a job is served with it. *)
Lemma world_of_jobs_serves (cfg : FordefiConfig)
  (jobs : list TransactionResponse) (k : nat) (job : TransactionResponse) :
  nth_error jobs k = Some job ->
  served (Observe.world_of_jobs jobs) cfg k (Wire.job_json job).
Proof.
  intros Hk. split.
  - intros n req [_ [Hbase _]]. simpl. rewrite Hbase.
    exists {| status := 200; data := JObj [("accessToken", JStr "tok")] |},
      (JStr "tok").
    repeat split; simpl; lia.
  - intros n req [_ [Hbase _]]. simpl. rewrite Hbase, Hk.
    eexists. split; [reflexivity |]. simpl. split; [lia | reflexivity].
Qed.

(** X16.  The signatures of a fulfilled batch follow the order of the
    transactions, not the order in which the server answered: when every
    member is served with a job whose first signature has 64 bytes, any two
    orders of completion that let every request finish yield the same list,
    the first signatures of the jobs in the order of the input. *)
Theorem batch_result_ignores_completion_order (w : World)
  (order order' : list nat) (cfg : FordefiConfig) (vaultId chain : string)
  (options : Options) (txs : list Transaction)
  (jobs : list TransactionResponse) :
  List.length jobs = List.length txs ->
  (forall k job, nth_error jobs k = Some job ->
                 served w cfg k (Wire.job_json job)) ->
  forallb first_signature_ok jobs = true ->
  (forall k, k < List.length txs -> 2 <= count_occ Nat.eq_dec order k) ->
  (forall k, k < List.length txs -> 2 <= count_occ Nat.eq_dec order' k) ->
  signAndSendTransactions w order cfg vaultId chain options txs
  = Some (inr (map first_signature_bytes jobs))
  /\ signAndSendTransactions w order' cfg vaultId chain options txs
     = signAndSendTransactions w order cfg vaultId chain options txs.
Proof.
  intros Hlen Hserved Hok Horder Horder'.
  destruct (batch_of_served_members w order cfg vaultId chain options txs jobs
              Hlen Hserved Horder) as [H _].
  destruct (batch_of_served_members w order' cfg vaultId chain options txs jobs
              Hlen Hserved Horder') as [H' _].
  rewrite (H Hok), (H' Hok). split; reflexivity.
Qed.

Lemma batch_result_ignores_completion_order_witness :
  let jobs :=
    [ Samples.job_with Completed (Some [Samples.signature_of_ones]);
      Samples.job_with Completed
        (Some [{| signature := Base64.encode (repeat x02 64);
                  public_key := "pk" |}]) ] in
  let txs := [ {| messageBytes := [x01] |}; {| messageBytes := [x02] |} ] in
  signAndSendTransactions (Observe.world_of_jobs jobs) [1; 1; 0; 0]
    Samples.cfg0 "vault" "solana_mainnet" Samples.no_options txs
  = Some (inr [repeat x01 64; repeat x02 64]).
Proof.
  cbv zeta.
  destruct (batch_result_ignores_completion_order
              (Observe.world_of_jobs
                 [ Samples.job_with Completed (Some [Samples.signature_of_ones]);
                   Samples.job_with Completed
                     (Some [{| signature := Base64.encode (repeat x02 64);
                               public_key := "pk" |}]) ])
              [1; 1; 0; 0] [0; 1; 0; 1]
              Samples.cfg0 "vault" "solana_mainnet" Samples.no_options
              [ {| messageBytes := [x01] |}; {| messageBytes := [x02] |} ]
              [ Samples.job_with Completed (Some [Samples.signature_of_ones]);
                Samples.job_with Completed
                  (Some [{| signature := Base64.encode (repeat x02 64);
                            public_key := "pk" |}]) ]
              eq_refl
              (fun k job H => world_of_jobs_serves Samples.cfg0 _ k job H))
    as [H _].
  - vm_compute. reflexivity.
  - intros [| [| k]] Hk; simpl in *; lia.
  - intros [| [| k]] Hk; simpl in *; lia.
  - rewrite H. vm_compute. reflexivity.
Defined.

(** X17.  With a base key that is not empty, the payloads of two different
    members of a batch carry different idempotence keys, whatever their
    transactions: no two members of one batch can be taken for a repetition
    of each other. *)
Theorem batch_members_get_distinct_keys (vaultId chain base : string)
  (options : Options) (i j : nat) (tx tx' : Transaction) :
  idempotenceId options = Some base ->
  base <> EmptyString ->
  i <> j ->
  Observe.member "idempotence_id" (member_submission vaultId chain options i tx)
  <> Observe.member "idempotence_id"
       (member_submission vaultId chain options j tx').
Proof.
  intros Hbase Hne Hij.
  unfold member_submission, submission, member_options, Observe.member.
  rewrite Hbase. cbn [idempotenceId Js.truthy].
  destruct (String.eqb base EmptyString) eqn:E;
    [apply String.eqb_eq in E; contradiction |].
  cbn. intros H. inversion H as [H1].
  apply SignatureFacts.append_cancel_l in H1.
  apply (SignatureFacts.append_cancel_l "-") in H1.
  apply SignatureFacts.show_injective in H1.
  apply Hij. lia.
Qed.

Lemma batch_members_get_distinct_keys_witness :
  Observe.member "idempotence_id"
    (member_submission "vault" "solana_mainnet" (Samples.with_key "base") 0
       {| messageBytes := [x01] |})
  <> Observe.member "idempotence_id"
       (member_submission "vault" "solana_mainnet" (Samples.with_key "base") 1
          {| messageBytes := [x01] |}).
Proof.
  apply (batch_members_get_distinct_keys "vault" "solana_mainnet" "base"
           (Samples.with_key "base") 0 1).
  - reflexivity.
  - discriminate.
  - discriminate.
Defined.

(* ------------------------------------------------------------------------- *)
(** ** Authority instructions *)

Module TokenFacts.
Import Token.
Open Scope string_scope.

Lemma own_property_In (k : string) (table : list (string * Z)) (v : Z) :
  own_property k table = Some v -> In (k, v) table.
Proof.
  induction table as [| [k' v'] table IH]; simpl; [discriminate |].
  destruct (String.eqb k k') eqn:E.
  - apply String.eqb_eq in E. intros H. inversion H; subst. auto.
  - auto.
Qed.

Lemma own_property_None (k : string) (table : list (string * Z)) :
  own_property k table = None <-> ~ In k (map fst table).
Proof.
  induction table as [| [k' v'] table IH]; simpl.
  - split; auto.
  - destruct (String.eqb k k') eqn:E.
    + apply String.eqb_eq in E. subst. split; [discriminate |].
      intros H. exfalso. apply H. auto.
    + apply String.eqb_neq in E. rewrite IH. split.
      * intros H [H' | H']; [congruence | contradiction].
      * intros H H'. apply H. auto.
Qed.

Lemma switch_case_In {A : Type} (role : string) (cases : list (string * A))
  (a : A) :
  switch_case role cases = Some a -> In (role, a) cases.
Proof.
  induction cases as [| [l b] cases IH]; simpl; [discriminate |].
  destruct (String.eqb role l) eqn:E.
  - apply String.eqb_eq in E. intros H. inversion H; subst. auto.
  - auto.
Qed.

Lemma switch_case_None {A : Type} (role : string) (cases : list (string * A)) :
  switch_case role cases = None <-> ~ In role (map fst cases).
Proof.
  induction cases as [| [l b] cases IH]; simpl.
  - split; auto.
  - destruct (String.eqb role l) eqn:E.
    + apply String.eqb_eq in E. subst. split; [discriminate |].
      intros H. exfalso. apply H. auto.
    + apply String.eqb_neq in E. rewrite IH. split.
      * intros H [H' | H']; [congruence | contradiction].
      * intros H H'. apply H. auto.
Qed.

Lemma skipn_repeat {A : Type} (x : A) (n k : nat) :
  skipn k (repeat x n) = repeat x (n - k).
Proof.
  revert k. induction n as [| n IH]; intros [| k]; simpl; auto.
Qed.

(** The buffer [getSetAuthorityInstruction] fills, for a code and the bytes
    of the new authority. *)
Lemma filled_buffer (code : Z) (bytes : list byte) :
  Uint8Array_set
    (Runtime.replace 2 x01
       (Runtime.replace 1 (Base64.byte_of_Z code)
          (Runtime.replace 0 x06 (repeat x00 (1 + 1 + 1 + 32)))))
    bytes 3
  = if Nat.ltb 32 (List.length bytes)
    then inl (RangeError "offset is out of bounds")
    else inr (x06 :: Base64.byte_of_Z code :: x01
              :: bytes ++ repeat x00 (32 - List.length bytes))%list.
Proof.
  unfold Uint8Array_set.
  change (Runtime.replace 2 x01
            (Runtime.replace 1 (Base64.byte_of_Z code)
               (Runtime.replace 0 x06 (repeat x00 (1 + 1 + 1 + 32)))))
    with (x06 :: Base64.byte_of_Z code :: x01 :: repeat x00 32).
  cbn [List.length]. rewrite repeat_length.
  replace (Nat.ltb (S (S (S 32))) (List.length bytes + 3))
    with (Nat.ltb 32 (List.length bytes)).
  2: { destruct (Nat.ltb_spec 32 (List.length bytes));
       destruct (Nat.ltb_spec (S (S (S 32))) (List.length bytes + 3));
       auto; lia. }
  destruct (Nat.ltb 32 (List.length bytes)); [reflexivity |].
  cbn [firstn Nat.add skipn app]. rewrite skipn_repeat. reflexivity.
Qed.

(** The codes of the table fit a byte, and no two names share one. *)
Lemma codes_are_distinct (t t' : string) (c c' : Z) :
  authority_code t = Some c ->
  authority_code t' = Some c' ->
  Base64.byte_of_Z c = Base64.byte_of_Z c' ->
  t = t'.
Proof.
  intros H H' E.
  apply own_property_In in H. apply own_property_In in H'.
  unfold AuthorityType in H, H'. simpl in H, H'.
  repeat (destruct H as [H | H]; [inversion H; subst; clear H |]);
    try contradiction;
    repeat (destruct H' as [H' | H']; [inversion H'; subst; clear H' |]);
    try contradiction;
    try reflexivity; vm_compute in E; discriminate E.
Qed.

End TokenFacts.

(** X18.  [getSetAuthorityInstruction] accepts exactly the seventeen names
    of its table.  Any other authority type makes it throw
    [Invalid authority type: <type>]; it does so before it looks at the new
    authority, so that an address the codec refuses does not change the
    error.  A name of the table never meets that error. *)
Theorem set_authority_accepts_the_table_names
  (encode : string -> option (list byte)) (program : string)
  (input : Token.SetAuthorityInput) :
  let result := Token.getSetAuthorityInstruction encode program input in
  let known := In (Token.authorityType input) (map fst Token.AuthorityType) in
  (~ known ->
   result = inl (Token.PlainError ("Invalid authority type: "
                                   ++ Token.authorityType input)))
  /\ (known -> forall message, result <> inl (Token.PlainError message)).
Proof.
  cbv zeta. unfold Token.getSetAuthorityInstruction. split.
  - intros H. apply TokenFacts.own_property_None in H.
    unfold Token.authority_code. rewrite H. reflexivity.
  - intros H message.
    destruct (Token.authority_code (Token.authorityType input)) as [code |]
      eqn:E.
    + destruct (encode (Token.newAuthority input)) as [bytes |];
        [| discriminate].
      rewrite TokenFacts.filled_buffer.
      destruct (Nat.ltb 32 (List.length bytes)); discriminate.
    + apply TokenFacts.own_property_None in E. contradiction.
Qed.

(** X19.  The data of the instruction [getSetAuthorityInstruction] builds:
    35 bytes, the discriminator 6, the code of the authority type, the
    marker 1, and the bytes of the new authority, padded with zeros when the
    codec yields fewer than 32; the accounts are the mint, writable, and the
    authority, a read-only signer.  More than 32 bytes make it throw the
    [RangeError] of [Uint8Array.set]. *)
Theorem set_authority_data_layout (encode : string -> option (list byte))
  (program : string) (input : Token.SetAuthorityInput) (code : Z)
  (bytes : list byte) :
  Token.authority_code (Token.authorityType input) = Some code ->
  encode (Token.newAuthority input) = Some bytes ->
  let result := Token.getSetAuthorityInstruction encode program input in
  (List.length bytes <= 32 ->
   exists instruction,
     result = inr instruction
     /\ Token.data instruction
        = (x06 :: Base64.byte_of_Z code :: x01
           :: bytes ++ repeat x00 (32 - List.length bytes))%list
     /\ List.length (Token.data instruction) = 35
     /\ Token.accounts instruction
        = [ {| Token.address := Token.mint input;
               Token.role := Token.WRITABLE |};
            {| Token.address := Token.authority input;
               Token.role := Token.READONLY_SIGNER |} ]
     /\ Token.programAddress instruction = program)
  /\ (32 < List.length bytes ->
      result = inl (Token.RangeError "offset is out of bounds")).
Proof.
  intros Hcode Hbytes. cbv zeta. unfold Token.getSetAuthorityInstruction.
  rewrite Hcode, Hbytes, TokenFacts.filled_buffer. split; intros Hlen.
  - replace (Nat.ltb 32 (List.length bytes)) with false
      by (symmetry; apply Nat.ltb_ge; exact Hlen).
    eexists. split; [reflexivity |]. cbn [Token.data Token.accounts
                                          Token.programAddress].
    repeat split.
    cbn [List.length]. rewrite length_app, repeat_length. lia.
  - replace (Nat.ltb 32 (List.length bytes)) with true
      by (symmetry; apply Nat.ltb_lt; exact Hlen).
    reflexivity.
Qed.

Lemma set_authority_data_layout_witness :
  exists instruction,
    Token.getSetAuthorityInstruction (fun _ => Some (repeat x07 32)) "Token"
      {| Token.mint := "mint"; Token.authority := "old";
         Token.newAuthority := "new"; Token.authorityType := "Pause" |}
    = inr instruction
    /\ Token.data instruction = (x06 :: x10 :: x01 :: repeat x07 32)%list.
Proof.
  destruct (set_authority_data_layout (fun _ => Some (repeat x07 32)) "Token"
              {| Token.mint := "mint"; Token.authority := "old";
                 Token.newAuthority := "new"; Token.authorityType := "Pause" |}
              16 (repeat x07 32) eq_refl eq_refl) as [H _].
  destruct H as [instruction [E [Hd _]]].
  - simpl. lia.
  - exists instruction. split; [exact E |]. rewrite Hd. reflexivity.
Defined.

(** X20.  With a codec of fixed size, as the address codec is, the data of
    the instruction determines the change it asks for: two inputs for which
    [getSetAuthorityInstruction] builds the same data name the same
    authority type and new authorities with the same bytes. *)
Theorem set_authority_data_determines_the_change
  (encode : string -> option (list byte)) (program : string)
  (input input' : Token.SetAuthorityInput)
  (instruction instruction' : Token.Instruction) :
  (forall a bytes, encode a = Some bytes -> List.length bytes = 32) ->
  Token.getSetAuthorityInstruction encode program input = inr instruction ->
  Token.getSetAuthorityInstruction encode program input' = inr instruction' ->
  Token.data instruction = Token.data instruction' ->
  Token.authorityType input = Token.authorityType input'
  /\ encode (Token.newAuthority input) = encode (Token.newAuthority input').
Proof.
  intros Hsize H H' Hdata.
  unfold Token.getSetAuthorityInstruction in H, H'.
  destruct (Token.authority_code (Token.authorityType input)) as [c |] eqn:Hc;
    [| discriminate].
  destruct (Token.authority_code (Token.authorityType input')) as [c' |]
    eqn:Hc'; [| discriminate].
  destruct (encode (Token.newAuthority input)) as [b |] eqn:Hb;
    [| discriminate].
  destruct (encode (Token.newAuthority input')) as [b' |] eqn:Hb';
    [| discriminate].
  rewrite TokenFacts.filled_buffer in H, H'.
  rewrite (Hsize _ _ Hb) in H. rewrite (Hsize _ _ Hb') in H'.
  cbn [Nat.ltb Nat.leb Nat.sub repeat] in H, H'.
  inversion H; subst instruction. inversion H'; subst instruction'.
  cbn [Token.data] in Hdata. inversion Hdata as [[Hcode Hbytes]].
  rewrite !app_nil_r in Hbytes. split.
  - exact (TokenFacts.codes_are_distinct _ _ c c' Hc Hc' Hcode).
  - congruence.
Qed.

Lemma set_authority_data_determines_the_change_witness :
  Token.authorityType
    {| Token.mint := "mint"; Token.authority := "old";
       Token.newAuthority := "new"; Token.authorityType := "Pause" |}
  = Token.authorityType
      {| Token.mint := "other"; Token.authority := "older";
         Token.newAuthority := "newer"; Token.authorityType := "Pause" |}.
Proof.
  destruct (set_authority_data_determines_the_change
              (fun _ => Some (repeat x07 32)) "Token"
              {| Token.mint := "mint"; Token.authority := "old";
                 Token.newAuthority := "new"; Token.authorityType := "Pause" |}
              {| Token.mint := "other"; Token.authority := "older";
                 Token.newAuthority := "newer";
                 Token.authorityType := "Pause" |}
              _ _
              (fun a bytes H =>
                 match H in (_ = o)
                       return match o with
                              | Some l => List.length l = 32
                              | None => True
                              end
                 with eq_refl => eq_refl end)
              eq_refl eq_refl eq_refl) as [H _].
  exact H.
Defined.

(** X21.  The script that creates a mint defines, and never calls, a
    builder of its own for the authority over the transfer hook program.
    What it builds has the program and the data
    [getSetAuthorityInstruction] builds for [TransferHookProgramId], and it
    fails where that fails; the two differ in one place: the script lists
    the authority as a read-only account, [getSetAuthorityInstruction] as a
    read-only signer. *)
Theorem transfer_hook_instruction_differs_in_the_signer
  (encode : string -> option (list byte)) (program : string)
  (input : Token.SetAuthorityInput) :
  match
    Token.getSetTransferHookProgramIdAuthorityInstruction encode program input,
    Token.getSetAuthorityInstruction encode program
      {| Token.mint := Token.mint input;
         Token.authority := Token.authority input;
         Token.newAuthority := Token.newAuthority input;
         Token.authorityType := "TransferHookProgramId" |}
  with
  | inr by_hand, inr by_table =>
      Token.data by_hand = Token.data by_table
      /\ Token.programAddress by_hand = Token.programAddress by_table
      /\ Token.accounts by_hand
         = [ {| Token.address := Token.mint input;
                Token.role := Token.WRITABLE |};
             {| Token.address := Token.authority input;
                Token.role := Token.READONLY |} ]
      /\ Token.accounts by_table
         = [ {| Token.address := Token.mint input;
                Token.role := Token.WRITABLE |};
             {| Token.address := Token.authority input;
                Token.role := Token.READONLY_SIGNER |} ]
  | inl e, inl e' => e = e'
  | _, _ => False
  end.
Proof.
  unfold Token.getSetTransferHookProgramIdAuthorityInstruction,
    Token.getSetAuthorityInstruction.
  cbn [Token.authorityType Token.newAuthority Token.mint Token.authority].
  change (Token.authority_code "TransferHookProgramId") with (Some 10%Z).
  cbv zeta.
  destruct (encode (Token.newAuthority input)) as [bytes |]; [| reflexivity].
  rewrite TokenFacts.filled_buffer.
  destruct (Nat.ltb 32 (List.length bytes)); [reflexivity |].
  repeat split.
Qed.

(** X22.  The [getUpdateAuthorityInstructions] that goes through
    [./setAuthority]: the role [Metadata] yields the SDK's update of the
    metadata authority; each of the seven roles of its [switch] is a name of
    the table of [getSetAuthorityInstruction] and yields what that builds
    for the mint, the address of the current authority and the new one;
    every other role, the remaining names of the table included, makes it
    throw [Unsupported authority role: <role>].  It never throws
    [Invalid authority type]. *)
Theorem local_update_supports_seven_roles
  (encode : string -> option (list byte)) (program : string)
  (input : Token.UpdateAuthorityInput) :
  let role := Token.update_role input in
  let result :=
    Token.ViaLocal.getUpdateAuthorityInstructions encode program input in
  (role = "Metadata" ->
   result = inr [ Token.SdkUpdateMetadataAuthority (Token.update_mint input)
                    (Token.currentAuthority input)
                    (Token.update_newAuthority input) program ])
  /\ (In role (map fst Token.ViaLocal.local_cases) ->
      Token.authority_code role <> None
      /\ result
         = match Token.getSetAuthorityInstruction encode program
                   {| Token.mint := Token.update_mint input;
                      Token.authority := Token.currentAuthority input;
                      Token.newAuthority := Token.update_newAuthority input;
                      Token.authorityType := role |} with
           | inl e => inl e
           | inr instruction => inr [Token.Manual instruction]
           end)
  /\ (role <> "Metadata" -> ~ In role (map fst Token.ViaLocal.local_cases) ->
      result = inl (Token.PlainError ("Unsupported authority role: " ++ role)))
  /\ (forall text,
        result <> inl (Token.PlainError ("Invalid authority type: " ++ text))).
Proof.
  cbv zeta. unfold Token.ViaLocal.getUpdateAuthorityInstructions.
  destruct input as [mint role current new].
  cbn [Token.update_role Token.update_mint Token.currentAuthority
       Token.update_newAuthority].
  assert (Hknown : In role (map fst Token.ViaLocal.local_cases) ->
                   Token.authority_code role <> None
                   /\ String.eqb role "Metadata" = false
                   /\ Token.switch_case role Token.ViaLocal.local_cases = Some tt).
  { simpl. intros H.
    repeat (destruct H as [H | H]; [subst role; repeat split; discriminate |]).
    contradiction. }
  split; [| split; [| split]].
  - intros H. subst role. reflexivity.
  - intros H. destruct (Hknown H) as [Hc [Hm Hs]].
    split; [exact Hc |]. rewrite Hm, Hs. reflexivity.
  - intros Hm Hn. apply String.eqb_neq in Hm. rewrite Hm.
    apply TokenFacts.switch_case_None in Hn. rewrite Hn. reflexivity.
  - intros text. destruct (String.eqb role "Metadata"); [discriminate |].
    destruct (Token.switch_case role Token.ViaLocal.local_cases) as [[] |] eqn:Hs.
    + apply TokenFacts.switch_case_In in Hs.
      assert (Hin : In role (map fst Token.ViaLocal.local_cases)).
      { apply in_map_iff. exists (role, tt). auto. }
      destruct (Hknown Hin) as [Hc _].
      unfold Token.getSetAuthorityInstruction. cbn [Token.authorityType].
      destruct (Token.authority_code role) as [code |]; [| contradiction].
      cbn [Token.newAuthority].
      destruct (encode new) as [bytes |]; [| discriminate].
      rewrite TokenFacts.filled_buffer.
      destruct (Nat.ltb 32 (List.length bytes)); discriminate.
    + intros H. inversion H.
Qed.

(** X23.  The [getUpdateAuthorityInstructions] that goes through the SDK
    accepts, besides [Metadata], exactly the names of the table of
    [getSetAuthorityInstruction], and hands the SDK the member of its
    [AuthorityType] that bears the name of the role; every other role makes
    it throw [Unsupported authority role: <role>]. *)
Theorem sdk_update_accepts_the_table_names (program : string)
  (input : Token.UpdateAuthorityInput) :
  let role := Token.update_role input in
  let result := Token.ViaSdk.getUpdateAuthorityInstructions program input in
  (forall kind,
     result = inr [ Token.SdkSetAuthority (Token.update_mint input)
                      (Token.currentAuthority input)
                      (Token.update_newAuthority input) kind ]
     <-> Token.member_name kind = role)
  /\ (result = inl (Token.PlainError ("Unsupported authority role: " ++ role))
      <-> role <> "Metadata" /\ Token.authority_code role = None).
Proof.
  cbv zeta. unfold Token.ViaSdk.getUpdateAuthorityInstructions.
  destruct input as [mint role current new].
  cbn [Token.update_role Token.update_mint Token.currentAuthority
       Token.update_newAuthority].
  assert (Hcases : forall kind,
             Token.switch_case role Token.ViaSdk.sdk_cases = Some kind ->
             Token.member_name kind = role
             /\ Token.authority_code role <> None
             /\ role <> "Metadata").
  { intros kind H. apply TokenFacts.switch_case_In in H. simpl in H.
    repeat (destruct H as [H | H];
            [inversion H; subst; repeat split; discriminate |]).
    contradiction. }
  assert (Hnames : forall kind,
             Token.member_name kind = role ->
             String.eqb role "Metadata" = false
             /\ Token.switch_case role Token.ViaSdk.sdk_cases = Some kind).
  { intros kind H. subst role. destruct kind; split; reflexivity. }
  assert (Htable : Token.authority_code role <> None ->
                   exists kind, Token.member_name kind = role).
  { intros H.
    destruct (Token.authority_code role) as [c |] eqn:E; [| contradiction].
    apply TokenFacts.own_property_In in E. simpl in E.
    repeat (destruct E as [E | E];
            [inversion E; subst;
             first [ exists Token.MintTokens; reflexivity
                   | exists Token.FreezeAccount; reflexivity
                   | exists Token.AccountOwner; reflexivity
                   | exists Token.CloseAccount; reflexivity
                   | exists Token.TransferFeeConfig; reflexivity
                   | exists Token.WithheldWithdraw; reflexivity
                   | exists Token.CloseMint; reflexivity
                   | exists Token.InterestRate; reflexivity
                   | exists Token.PermanentDelegate; reflexivity
                   | exists Token.ConfidentialTransferMint; reflexivity
                   | exists Token.TransferHookProgramId; reflexivity
                   | exists Token.ConfidentialTransferFeeConfig; reflexivity
                   | exists Token.MetadataPointer; reflexivity
                   | exists Token.GroupPointer; reflexivity
                   | exists Token.GroupMemberPointer; reflexivity
                   | exists Token.ScaledUiAmount; reflexivity
                   | exists Token.Pause; reflexivity ] |]).
    contradiction. }
  split.
  - intros kind. split.
    + destruct (String.eqb role "Metadata"); [discriminate |].
      destruct (Token.switch_case role Token.ViaSdk.sdk_cases) as [k |] eqn:Hs;
        [| discriminate].
      intros H. inversion H; subst k.
      exact (proj1 (Hcases kind eq_refl)).
    + intros H. destruct (Hnames kind H) as [Hm Hs]. rewrite Hm, Hs.
      reflexivity.
  - split.
    + destruct (String.eqb role "Metadata") eqn:Hm; [discriminate |].
      apply String.eqb_neq in Hm.
      destruct (Token.switch_case role Token.ViaSdk.sdk_cases) as [k |] eqn:Hs;
        [discriminate |].
      intros _. split; [exact Hm |].
      destruct (Token.authority_code role) as [c |] eqn:E; [| reflexivity].
      exfalso. destruct Htable as [kind Hk]; [discriminate |].
      destruct (Hnames kind Hk) as [_ Hs']. congruence.
    + intros [Hm Hc]. apply String.eqb_neq in Hm. rewrite Hm.
      destruct (Token.switch_case role Token.ViaSdk.sdk_cases) as [k |] eqn:Hs;
        [| reflexivity].
      destruct (Hcases k eq_refl) as [_ [Hc' _]]. contradiction.
Qed.
